(** * calc-demo: thermal-insulation sizing engine

    A shallow embedding of the calculation engine of the repository
    (h-estimators, material interpolation, dew point, condensation
    thickness search, stock-ladder rounding) and the properties its
    specification states about it.

    Numbers.  The TypeScript sources compute on IEEE-754 doubles.  The
    embedding idealises [number] as a real number: every arithmetic
    operation is the exact one, [NaN] and the infinities do not exist.
    [Math.round], [Math.ceil], [Math.abs], [Math.max], [Math.min],
    [Math.log] and [Math.pow] are the functions of module [JS] below. *)

From Stdlib Require Import Reals Lra Lia ZArith List String Bool.
From Stdlib Require Import Permutation Sorted.
From Equations Require Import Equations.
Import ListNotations.

Local Open Scope R_scope.

(** ** JavaScript numeric primitives *)

Module JS.

Definition Math_abs (x : R) : R := Rabs x.
Definition Math_max (x y : R) : R := Rmax x y.
Definition Math_min (x y : R) : R := Rmin x y.
Definition Math_log (x : R) : R := ln x.
Definition Math_PI : R := PI.

(** [Math.round] rounds to the nearest integer, halves towards +infinity. *)
Definition Math_round (x : R) : R := IZR (Zfloor (x + / 2)).

Definition Math_ceil (x : R) : R := IZR (Zceil x).

(** [Math.pow] with a positive fractional exponent: [exp (y * ln x)]
    on a positive base and [0] on base [0].  On a negative base
    JavaScript yields [NaN], which the embedding does not have; the
    estimators only call it on a positive base (a temperature
    difference floored at 1, a ratio of positive diameters). *)
Definition Math_pow (x y : R) : R :=
  if Rlt_dec 0 x then Rpower x y else 0.

(** [Math.pow] with an integer literal as exponent (3 and 4 in the
    radiation terms); the base may have any sign. *)
Definition Math_pow_int (x : R) (n : nat) : R := x ^ n.

(** Comparisons of numbers, as booleans. *)
Definition ltb (x y : R) : bool := if Rlt_dec x y then true else false.
Definition leb (x y : R) : bool := if Rle_dec x y then true else false.
Definition gtb (x y : R) : bool := ltb y x.
Definition geb (x y : R) : bool := leb y x.
Definition eqb (x y : R) : bool := if Req_dec_T x y then true else false.

End JS.
Import JS.

(** Optional parameters with a default ([x = d] in a destructuring). *)
Definition withDefault {A : Type} (d : A) (o : option A) : A :=
  match o with Some a => a | None => d end.

(** ** Errors

    The sources throw [Error] objects that differ only by their message;
    the constructors below name the throw sites after the taxonomy of
    the specification. *)

Inductive Error : Type :=
| InvalidEmissivity   (* epsilon outside [0, 1] *)
| InvalidGeometry     (* tubeDiameter <= 0 *)
| InvalidCoefficient  (* h <= 0 *)
| InvalidHumidity     (* dewPoint >= ambientTemp *)
| UnreachableTarget   (* dewPoint + margin > ambientTemp *)
| TypeError.          (* a property read on undefined *)

Inductive Result (A : Type) : Type :=
| Ok (a : A)
| Throw (e : Error).
Arguments Ok {A} a.
Arguments Throw {A} e.

(** [if (c) throw e; rest] *)
Definition throwIf {A : Type} (c : bool) (e : Error) (rest : Result A)
  : Result A :=
  if c then Throw e else rest.

Inductive Orientation : Type := horizontal | vertical.

Inductive CalculationType : Type := inside | outside.

Definition Orientation_eqb (a b : Orientation) : bool :=
  match a, b with
  | horizontal, horizontal | vertical, vertical => true
  | _, _ => false
  end.

(** Stefan-Boltzmann constant, [5.67e-8]. *)
Definition sigma : R := 5.67e-8.

(** [Math.round(x * 1000) / 1000] *)
Definition round3 (x : R) : R := Math_round (x * 1000) / 1000.

(** [Math.ceil(x * 1000) / 1000] *)
Definition ceil3 (x : R) : R := Math_ceil (x * 1000) / 1000.

(** ** Standard estimator: utils/thermal/calculations.ts *)

Record HCoefficientParams : Type := mkHCoefficientParams {
  T_sup : R;
  T_amb : R;
  epsilon : R;
  windSpeed : option R;
  hc_orientation : option Orientation;
  calculationType : option CalculationType;
  applySafetyFactor : option bool;
  T_medium : option R
}.

(** [calculateHCoefficient].  The [console.warn] for a temperature
    difference above 500 has no effect on the result and is left out. *)
Definition calculateHCoefficient (params : HCoefficientParams) : Result R :=
  let T_sup := T_sup params in
  let T_amb := T_amb params in
  let epsilon := epsilon params in
  let applySafetyFactor := withDefault true (applySafetyFactor params) in
  let T_medium := T_medium params in
  throwIf (ltb epsilon 0 || gtb epsilon 1) InvalidEmissivity (
    let T_sup_K := T_sup + 273.15 in
    let T_amb_K := T_amb + 273.15 in
    let deltaT :=
      match T_medium with
      | Some T_medium => Math_max (Math_abs (T_medium - T_amb)) 1
      | None => Math_max (Math_abs (T_sup - T_amb)) 1
      end in
    let alpha_conv_raw := 1.32 * Math_pow deltaT 0.33 in
    let alpha_conv := Math_max alpha_conv_raw (1 / 0.13) in
    let T_sup4 := Math_pow_int T_sup_K 4 in
    let T_amb4 := Math_pow_int T_amb_K 4 in
    let deltaT_K := T_sup_K - T_amb_K in
    let alpha_rad :=
      if ltb (Math_abs deltaT_K) 0.01 then
        let T_mean := (T_sup_K + T_amb_K) / 2 in
        4 * epsilon * sigma * Math_pow_int T_mean 3
      else
        (epsilon * sigma * (T_sup4 - T_amb4)) / deltaT_K in
    let alpha_rad := Math_min alpha_rad 6.5 in
    let h_raw := alpha_conv + alpha_rad in
    let safetyFactor := if applySafetyFactor then 0.75 else 1.0 in
    let h_final := h_raw * safetyFactor in
    Ok (Math_round (h_final * 1000) / 1000)).

(** ** Advanced estimators: utils/thermal/advanced-algorithm.ts *)

Record AdvancedHParams : Type := mkAdvancedHParams {
  adv_T_amb : R;
  adv_T_medium : R;
  adv_epsilon : R;
  adv_orientation : option Orientation;
  adv_tubeDiameter : option R;
  adv_insulationThickness : option R
}.

(** The guard of the diameter correction, shared in shape by
    [calculateAdvancedH] and [calculateKFlexH]: both numbers are given,
    [tubeDiameter > 0] and [insulationThickness >= 0]. *)
Definition knownGeometry (tubeDiameter insulationThickness : option R)
  : option (R * R) :=
  match tubeDiameter, insulationThickness with
  | Some d, Some t => if gtb d 0 && geb t 0 then Some (d, t) else None
  | _, _ => None
  end.

(** [calculateAdvancedH] *)
Definition calculateAdvancedH (params : AdvancedHParams) : Result R :=
  let T_amb := adv_T_amb params in
  let T_medium := adv_T_medium params in
  let epsilon := adv_epsilon params in
  let orientation := withDefault horizontal (adv_orientation params) in
  let tubeDiameter := adv_tubeDiameter params in
  let insulationThickness := adv_insulationThickness params in
  throwIf (ltb epsilon 0 || gtb epsilon 1) InvalidEmissivity (
    let deltaT_conv := Math_max (Math_abs (T_medium - T_amb)) 1 in
    let '(baseCoeff, power) :=
      if Orientation_eqb orientation horizontal
      then (1.646, 0.33)
      else (1.8, 0.25) in
    let alpha_conv_base := baseCoeff * Math_pow deltaT_conv power in
    let alpha_conv :=
      match knownGeometry tubeDiameter insulationThickness with
      | Some (tubeDiameter, insulationThickness) =>
          let D_outer := (tubeDiameter + 2 * insulationThickness) / 1000 in
          let D_ref := 0.000955 * tubeDiameter + 0.0244 in
          let diameterCorrection := Math_pow (D_ref / D_outer) 0.474 in
          alpha_conv_base * diameterCorrection
      | None => alpha_conv_base
      end in
    let alpha_conv := Math_ceil (alpha_conv * 1000) / 1000 in
    let T_mean := (T_amb + T_medium) / 2 in
    let T_rad := T_mean + 0.75 in
    let T_rad_K := T_rad + 273.15 in
    let alpha_rad := 4 * epsilon * sigma * Math_pow_int T_rad_K 3 in
    let h := alpha_conv + alpha_rad in
    Ok (Math_round (h * 1000) / 1000)).

(** [calculateAdvancedH_Sheets] *)
Definition calculateAdvancedH_Sheets (params : AdvancedHParams) : Result R :=
  let T_amb := adv_T_amb params in
  let T_medium := adv_T_medium params in
  let epsilon := adv_epsilon params in
  throwIf (ltb epsilon 0 || gtb epsilon 1) InvalidEmissivity (
    let deltaT_conv := Math_max (Math_abs (T_medium - T_amb)) 1 in
    let alpha_conv_raw :=
      if geb T_amb 20 then
        1.32 * Math_pow deltaT_conv 0.33
      else
        let convCoeff := 1.32 - 0.017 * (20 - T_amb) in
        convCoeff * Math_pow deltaT_conv 0.33 in
    let alpha_conv := Math_max alpha_conv_raw (1 / 0.13) in
    let T_mean := (T_amb + T_medium) / 2 in
    let radCoeff :=
      if geb T_mean 10 then 2.628 - 0.0295 * (25 - T_mean) else 1.4 in
    let alpha_rad := epsilon * Math_max radCoeff 1.4 in
    let h_raw := alpha_conv + alpha_rad in
    let h_final := h_raw * 0.75 in
    Ok (Math_round (h_final * 1000) / 1000)).

(** ** K-FLEX estimator: utils/thermal/kflex-algorithm.ts *)

Record KFlexHParams : Type := mkKFlexHParams {
  kf_T_amb : R;
  kf_T_medium : R;
  kf_epsilon : R;
  kf_orientation : option Orientation;
  kf_tubeDiameter : option R;
  kf_insulationThickness : option R;
  kf_forCondensation : option bool
}.

(** The convection base coefficient of [calculateKFlexH] (the
    [let baseCoeff] block of the source). *)
Definition kflexBaseCoeff (forCondensation : bool) (orientation : Orientation)
    (deltaT : R) : R :=
  if forCondensation then
    let deltaFrom30 := deltaT - 30 in
    let adaptiveCoeff :=
      if Orientation_eqb orientation horizontal
      then 1.646 - 0.0057 * deltaFrom30
      else 1.8 - 0.0063 * deltaFrom30 in
    Math_max adaptiveCoeff
      (if Orientation_eqb orientation horizontal then 1.44 else 1.58)
  else
    if Orientation_eqb orientation horizontal then 1.646 else 1.8.

(** [calculateKFlexH] *)
Definition calculateKFlexH (params : KFlexHParams) : Result R :=
  let T_amb := kf_T_amb params in
  let T_medium := kf_T_medium params in
  let epsilon := kf_epsilon params in
  let orientation := withDefault horizontal (kf_orientation params) in
  let tubeDiameter := kf_tubeDiameter params in
  let insulationThickness := kf_insulationThickness params in
  let forCondensation := withDefault false (kf_forCondensation params) in
  throwIf (ltb epsilon 0 || gtb epsilon 1) InvalidEmissivity (
    let deltaT := Math_max (Math_abs (T_medium - T_amb)) 1 in
    let baseCoeff := kflexBaseCoeff forCondensation orientation deltaT in
    let power := if Orientation_eqb orientation horizontal then 0.33 else 0.25 in
    let alphaConvBase := baseCoeff * Math_pow deltaT power in
    let alphaConv :=
      match knownGeometry tubeDiameter insulationThickness with
      | Some (tubeDiameter, insulationThickness) =>
          let D_outer := (tubeDiameter + 2 * insulationThickness) / 1000 in
          let D_ref := 0.043 in
          let powerCorrection := if forCondensation then 0.15 else 0.1 in
          let correction := Math_pow (D_ref / D_outer) powerCorrection in
          alphaConvBase * correction
      | None => alphaConvBase
      end in
    let T_meanK := (T_amb + T_medium) / 2 + 273.15 in
    let alphaRad := 4 * epsilon * sigma * Math_pow_int T_meanK 3 in
    let h := alphaConv + alphaRad in
    Ok (Math_round (h * 1000) / 1000)).

(** ** Catalogs: utils/constants.ts *)

(** [Array.prototype.sort((a, b) => a - b)]: ascending order. *)
Section Sort.
Context {A : Type} (le : A -> A -> bool).

Fixpoint insertAsc (x : A) (l : list A) : list A :=
  match l with
  | [] => [x]
  | y :: l' => if le x y then x :: l else y :: insertAsc x l'
  end.

Definition sortAsc (l : list A) : list A := fold_right insertAsc [] l.
End Sort.

(** An object literal is the list of its own properties in the order
    [Object.keys] enumerates them: keys that are array indices first, in
    ascending numeric order, then the other keys in the order written.
    Numeric keys stand for the number [Number(key)]; all keys of the
    catalogs are canonical decimal integers, so [String(Number(key))] is
    the key again. *)
Definition ObjectKeys {K V : Type} (o : list (K * V)) : list K := map fst o.

Record MaterialData : Type := mkMaterialData {
  lambda : list (R * R);
  density : R * R;
  mu : R * R
}.

(** The entry of [MATERIALS] under the key 'ROKAFLEX ST'. *)
Definition ROKAFLEX_ST : MaterialData :=
  {| lambda := [ (0, 0.034); (20, 0.036); (40, 0.038); (60, 0.040);
                 (-20, 0.032) ];
     density := (41, 60);
     mu := (2000, 8000) |}.

Definition MATERIALS : list (string * MaterialData) :=
  [ ("ROKAFLEX ST"%string, ROKAFLEX_ST) ].

(** The property names every object literal inherits from
    [Object.prototype]: a read [o[name]] of one of them on an object
    that has no own property of that name yields a function (for
    [__proto__] the prototype object), not [undefined]. *)
Definition ObjectPrototypeNames : list string :=
  [ "constructor"; "hasOwnProperty"; "isPrototypeOf"; "propertyIsEnumerable";
    "toLocaleString"; "toString"; "valueOf"; "__proto__";
    "__defineGetter__"; "__defineSetter__"; "__lookupGetter__";
    "__lookupSetter__" ]%string.

(** The outcome of the read [o[key]] on an object literal. *)
Inductive PropertyRead (V : Type) : Type :=
| OwnValue (v : V)   (* an own property of the literal *)
| InheritedValue     (* a member of Object.prototype, truthy *)
| Undefined.         (* no such property *)
Arguments OwnValue {V} v.
Arguments InheritedValue {V}.
Arguments Undefined {V}.

Definition readProperty {V : Type} (o : list (string * V)) (key : string)
  : PropertyRead V :=
  match find (fun e => String.eqb (fst e) key) o with
  | Some e => OwnValue (snd e)
  | None =>
      if existsb (String.eqb key) ObjectPrototypeNames
      then InheritedValue
      else Undefined
  end.

Inductive TubeType : Type := copper | steel.

(** [TubeSize]; the [inch] label is used for display only and left out. *)
Record TubeSize : Type := mkTubeSize {
  tube_type : TubeType;
  dn : string;
  mm : R;
  wallThicknesses : list (Z * Z)
}.

Definition ALL_TUBE_SIZES : list TubeSize :=
  [ mkTubeSize copper "DN8" 6 [(6, 486); (9, 342); (13, 216)]%Z;
    mkTubeSize copper "DN8" 8 [(6, 432); (9, 306); (13, 198)]%Z;
    mkTubeSize copper "DN10" 10 [(6, 378); (9, 270); (13, 180)]%Z;
    mkTubeSize copper "DN15" 12 [(6, 342); (9, 234); (13, 162)]%Z;
    mkTubeSize copper "DN15" 15 [(6, 270); (9, 198); (13, 144)]%Z;
    mkTubeSize copper "DN20" 18
      [(6, 234); (9, 180); (13, 126); (19, 72); (25, 56)]%Z;
    mkTubeSize copper "DN20" 22
      [(6, 198); (9, 162); (13, 108); (19, 72); (25, 48); (32, 32)]%Z;
    mkTubeSize copper "DN25" 25
      [(6, 164); (9, 134); (13, 96); (19, 66); (25, 44); (32, 28)]%Z;
    mkTubeSize copper "DN25" 28
      [(6, 132); (9, 108); (13, 84); (19, 60); (25, 40); (32, 24)]%Z;
    mkTubeSize copper "DN32" 35
      [(6, 120); (9, 96); (13, 72); (19, 48); (25, 32); (32, 24)]%Z;
    mkTubeSize copper "DN40" 42
      [(6, 108); (9, 88); (13, 56); (19, 40); (25, 24); (32, 22)]%Z;
    mkTubeSize steel "DN6" 10.2 [];
    mkTubeSize steel "DN8" 13.5 [];
    mkTubeSize steel "DN10" 17.2 [];
    mkTubeSize steel "DN15" 21.3 [(6, 342); (9, 234); (13, 162)]%Z;
    mkTubeSize steel "DN20" 26.9
      [(6, 234); (9, 180); (13, 126); (19, 72); (25, 56)]%Z;
    mkTubeSize steel "DN25" 33.7
      [(6, 164); (9, 134); (13, 96); (19, 66); (25, 44); (32, 28)]%Z;
    mkTubeSize steel "DN32" 42.4
      [(6, 108); (9, 88); (13, 56); (19, 40); (25, 24); (32, 22)]%Z;
    mkTubeSize steel "DN40" 48.3
      [(9, 80); (13, 48); (19, 32); (25, 24); (32, 18)]%Z;
    mkTubeSize steel "DN50" 60.3
      [(9, 56); (13, 40); (19, 32); (25, 18); (32, 14)]%Z;
    mkTubeSize steel "DN65" 76.1
      [(9, 48); (13, 36); (19, 24); (25, 18); (32, 12)]%Z;
    mkTubeSize steel "DN80" 88.9
      [(9, 42); (13, 30); (19, 24); (25, 16); (32, 12)]%Z;
    mkTubeSize steel "DN100" 114.3
      [(9, 28); (13, 24); (19, 16); (25, 12); (32, 8)]%Z ].

(** ** Material interpolation and Nusselt helpers: utils/thermal.ts *)

(** [lambdaData[String(t)]] for a [t] taken from the keys of
    [lambdaData]; the default is never reached on such a [t]. *)
Definition getLambda (lambdaData : list (R * R)) (t : R) : R :=
  match find (fun e => eqb (fst e) t) lambdaData with
  | Some e => snd e
  | None => 0
  end.

(** The [for] loop of [interpolateLambda] over the adjacent pairs
    [temps[i], temps[i + 1]], with its [break] at the first bracket. *)
Fixpoint interpolateLoop (lambdaData : list (R * R)) (temp : R)
    (temps : list R) : R :=
  match temps with
  | t0 :: ((t1 :: _) as rest) =>
      if geb temp t0 && leb temp t1 then
        let l0 := getLambda lambdaData t0 in
        let l1 := getLambda lambdaData t1 in
        l0 + (l1 - l0) * (temp - t0) / (t1 - t0)
      else interpolateLoop lambdaData temp rest
  | _ => 0.036
  end.

(** [interpolateLambda] over a catalog.  [materialData] is what the read
    [MATERIALS[material]] yields.  When that is [undefined] the function
    returns 0.036.  When it is a member of [Object.prototype],
    [materialData] is truthy, [materialData.lambda] is [undefined] and
    [Object.keys(undefined)] throws a TypeError. *)
Definition interpolateLambdaIn (catalog : list (string * MaterialData))
    (temp : R) (material : string) : Result R :=
  match readProperty catalog material with
  | Undefined => Ok 0.036
  | InheritedValue => Throw TypeError
  | OwnValue materialData =>
      let lambdaData := lambda materialData in
      let temps := sortAsc leb (ObjectKeys lambdaData) in
      Ok (interpolateLoop lambdaData temp temps)
  end.

(** [interpolateLambda] *)
Definition interpolateLambda (temp : R) (material : string) : Result R :=
  interpolateLambdaIn MATERIALS temp material.

Record AirProperties : Type := mkAirProperties {
  kinematicViscosity : R;
  thermalConductivity : R;
  prandtlNumber : R;
  thermalExpansion : R
}.

Definition getAirProperties (tempCelsius : R) : AirProperties :=
  let T := tempCelsius + 273.15 in
  {| kinematicViscosity := 1.34e-5 * Math_pow (T / 273.15) 1.5;
     thermalConductivity := 0.0242 + 0.0000726 * tempCelsius;
     prandtlNumber := 0.71;
     thermalExpansion := 1 / T |}.

Definition calculateGrashofNumber (beta deltaT characteristicLength
    kinematicViscosity : R) : R :=
  let g := 9.81 in
  (g * beta * Math_abs deltaT * Math_pow_int characteristicLength 3)
  / Math_pow_int kinematicViscosity 2.

Definition calculateRayleighNumber (grashofNumber prandtlNumber : R) : R :=
  grashofNumber * prandtlNumber.

Definition calculateNusseltHorizontal (rayleighNumber : R) : R :=
  let Ra := rayleighNumber in
  if ltb Ra 1e-5 then 0.4
  else
    let term1 := 0.6 in
    let term2 :=
      (0.387 * Math_pow Ra (1 / 6))
      / Math_pow (1 + Math_pow (0.559 / 0.71) (9 / 16)) (8 / 27) in
    Math_pow_int (term1 + term2) 2.

Definition calculateNusseltVertical (rayleighNumber : R) : R :=
  let Ra := rayleighNumber in
  if ltb Ra 1e4 then 0.59 * Math_pow Ra 0.25
  else 0.1 * Math_pow Ra 0.333.

Definition calculateConvectiveHeatTransfer (nusseltNumber thermalConductivity
    diameter : R) : R :=
  (nusseltNumber * thermalConductivity) / diameter.

Definition calculateRadiativeHeatTransfer (emissivity T_surface T_ambient : R)
  : R :=
  let T_s4 := Math_pow_int T_surface 4 in
  let T_amb4 := Math_pow_int T_ambient 4 in
  let deltaT := T_surface - T_ambient in
  if ltb (Math_abs deltaT) 0.01 then
    let T_mean := (T_surface + T_ambient) / 2 in
    4 * emissivity * sigma * Math_pow_int T_mean 3
  else
    (emissivity * sigma * (T_s4 - T_amb4)) / deltaT.

(** ** Mode dispatch: hooks/useHeatTransferCoefficient.ts *)

Record ComputeHArgs : Type := mkComputeHArgs {
  ambientTemp : R;
  mediumTemp : R;
  tubeDiameter : R;
  orientation : Orientation;
  emissivity : R;
  arg_calculationType : option CalculationType;
  insulationThickness : option R;
  arg_windSpeed : option R;
  useSimplifiedFormula : option bool;
  arg_applySafetyFactor : option bool;
  useAdvancedAlgorithm : option bool;
  useAdvancedSheetsAlgorithm : option bool;
  useKFlexAlgorithm : option bool;
  forCondensation : option bool
}.

(** [computeH] *)
Definition computeH (args : ComputeHArgs) : Result R :=
  let ambientTemp := ambientTemp args in
  let mediumTemp := mediumTemp args in
  let tubeDiameter := tubeDiameter args in
  let orientation := orientation args in
  let emissivity := emissivity args in
  let calculationType := withDefault inside (arg_calculationType args) in
  let insulationThickness := insulationThickness args in
  let windSpeed := arg_windSpeed args in
  let useSimplifiedFormula := withDefault true (useSimplifiedFormula args) in
  let applySafetyFactor := withDefault true (arg_applySafetyFactor args) in
  let useAdvancedAlgorithm := withDefault false (useAdvancedAlgorithm args) in
  let useAdvancedSheetsAlgorithm :=
    withDefault false (useAdvancedSheetsAlgorithm args) in
  let useKFlexAlgorithm := withDefault false (useKFlexAlgorithm args) in
  let forCondensation := withDefault false (forCondensation args) in
  if useKFlexAlgorithm then
    calculateKFlexH
      {| kf_T_amb := ambientTemp;
         kf_T_medium := mediumTemp;
         kf_epsilon := emissivity;
         kf_orientation := Some orientation;
         kf_tubeDiameter := Some tubeDiameter;
         kf_insulationThickness := insulationThickness;
         kf_forCondensation := Some forCondensation |}
  else if useAdvancedSheetsAlgorithm then
    calculateAdvancedH_Sheets
      {| adv_T_amb := ambientTemp;
         adv_T_medium := mediumTemp;
         adv_epsilon := emissivity;
         adv_orientation := Some orientation;
         adv_tubeDiameter := Some tubeDiameter;
         adv_insulationThickness := insulationThickness |}
  else if useAdvancedAlgorithm then
    calculateAdvancedH
      {| adv_T_amb := ambientTemp;
         adv_T_medium := mediumTemp;
         adv_epsilon := emissivity;
         adv_orientation := Some orientation;
         adv_tubeDiameter := Some tubeDiameter;
         adv_insulationThickness := insulationThickness |}
  else
    let T_ambient := ambientTemp + 273.15 in
    let effectiveDiameter :=
      match insulationThickness with
      | Some t =>
          if eqb t 0 then tubeDiameter / 1000
          else (tubeDiameter + 2 * t) / 1000
      | None => tubeDiameter / 1000
      end in
    let meanTemp := (ambientTemp + mediumTemp) / 2 in
    let deltaT_estimate := Math_abs (mediumTemp - ambientTemp) in
    let T_surface_estimate := T_ambient + 0.3 * (mediumTemp - ambientTemp) in
    if useSimplifiedFormula then
      calculateHCoefficient
        {| T_sup := ambientTemp + 0.3 * (mediumTemp - ambientTemp);
           T_amb := ambientTemp;
           T_medium := Some mediumTemp;
           epsilon := emissivity;
           windSpeed := windSpeed;
           hc_orientation := Some orientation;
           calculationType := Some calculationType;
           applySafetyFactor := Some applySafetyFactor |}
    else
      let airProps := getAirProperties meanTemp in
      let grashofNumber :=
        calculateGrashofNumber (thermalExpansion airProps) deltaT_estimate
          effectiveDiameter (kinematicViscosity airProps) in
      let rayleighNumber :=
        calculateRayleighNumber grashofNumber (prandtlNumber airProps) in
      let nusseltNumber :=
        if Orientation_eqb orientation horizontal
        then calculateNusseltHorizontal rayleighNumber
        else calculateNusseltVertical rayleighNumber in
      let h_conv :=
        calculateConvectiveHeatTransfer nusseltNumber
          (thermalConductivity airProps) effectiveDiameter in
      let h_rad :=
        calculateRadiativeHeatTransfer emissivity T_surface_estimate
          T_ambient in
      Ok (h_conv + h_rad).

(** ** Dew point: utils/thermal/calculations.ts *)

Record DewPointParams : Type := mkDewPointParams {
  dp_T : R;
  dp_UR : R
}.

(** [calculateDewPoint] of calculations.ts (Magnus formula). *)
Definition calculateDewPointMagnus (params : DewPointParams) : R :=
  let T := dp_T params in
  let UR := dp_UR params in
  let gamma := Math_log (UR / 100) + (17.62 * T) / (243.12 + T) in
  let T_dew := (243.12 * gamma) / (17.62 - gamma) in
  T_dew.

(** ** Condensation: utils/condensation.ts *)

(** [calculateDewPoint] of condensation.ts. *)
Definition calculateDewPoint (temperature relativeHumidity : R) : R :=
  calculateDewPointMagnus {| dp_T := temperature; dp_UR := relativeHumidity |}.

(** The body of the thickness loop of [calculateMinimumThickness] up to
    its test: the surface temperature at one [thickness]. *)
Definition surfaceTempAt (ri lambda h ambientTemp mediumTemp thickness : R)
  : R :=
  let ro := ri + thickness / 1000 in
  let R_ins := Math_log (ro / ri) / (2 * Math_PI * lambda) in
  let R_conv := 1 / (h * 2 * Math_PI * ro) in
  let R_total := R_ins + R_conv in
  let deltaT := mediumTemp - ambientTemp in
  let heatFlow := deltaT / R_total in
  let surfaceTemp := mediumTemp - heatFlow * R_ins in
  surfaceTemp.

(** The conductivity [calculateMinimumThickness] works with: the
    table interpolated at the mean of the two temperatures. *)
Definition meanLambda (ambientTemp mediumTemp : R) (material : string)
  : Result R :=
  let meanTemp := (ambientTemp + mediumTemp) / 2 in
  interpolateLambda meanTemp material.

(** Number of iterations the loop [thickness <= 100; thickness += 0.1]
    still has to run at most from [thickness]. *)
Definition remainingSteps (thickness : R) : nat :=
  Z.to_nat (Zfloor ((100 - thickness) * 10) + 1).

(** [for (let thickness = t; thickness <= 100; thickness += 0.1)] with
    the [return thickness] of its body and the [return 50] after it.
    The second component lists the thicknesses for which the body ran,
    in order. *)
Equations? thicknessLoop (accept : R -> bool) (thickness : R) : R * list R
  by wf (remainingSteps thickness) lt :=
thicknessLoop accept thickness with Rle_dec thickness 100 := {
  | left _ =>
      if accept thickness then (thickness, [thickness])
      else
        let '(r, visited) := thicknessLoop accept (thickness + 0.1) in
        (r, thickness :: visited)
  | right _ => (50, []) }.
Proof.
  unfold remainingSteps.
  replace ((100 - (thickness + 0.1)) * 10)
    with ((100 - thickness) * 10 + IZR (-1)) by (simpl; lra).
  rewrite Zfloor_addz.
  assert (0 <= Zfloor ((100 - thickness) * 10))%Z
    by (apply Zfloor_lub; simpl; lra).
  lia.
Qed.

(** [calculateMinimumThickness], with the list of thicknesses its loop
    examined. *)
Definition calculateMinimumThickness_traced
    (tubeDiameter ambientTemp mediumTemp dewPoint : R) (material : string)
    (h : R) : Result R * list R :=
  if leb tubeDiameter 0 then (Throw InvalidGeometry, [])
  else if leb h 0 then (Throw InvalidCoefficient, [])
  else if geb dewPoint ambientTemp then (Throw InvalidHumidity, [])
  else
    let safetyMargin := 0.4 in
    let targetSurfaceTemp := dewPoint + safetyMargin in
    if gtb targetSurfaceTemp ambientTemp then (Throw UnreachableTarget, [])
    else
      match meanLambda ambientTemp mediumTemp material with
      | Throw e => (Throw e, [])
      | Ok lambda =>
          let ri := tubeDiameter / 2 / 1000 in
          let '(thickness, visited) :=
            thicknessLoop
              (fun thickness =>
                 geb (surfaceTempAt ri lambda h ambientTemp mediumTemp
                        thickness)
                     targetSurfaceTemp)
              0.1 in
          (Ok thickness, visited)
      end.

(** [calculateMinimumThickness] *)
Definition calculateMinimumThickness
    (tubeDiameter ambientTemp mediumTemp dewPoint : R) (material : string)
    (h : R) : Result R :=
  fst (calculateMinimumThickness_traced tubeDiameter ambientTemp mediumTemp
         dewPoint material h).

(** ** Stock thicknesses: utils/calculations.ts *)

Definition defaultThicknesses : list Z := [6; 9; 13; 19; 25; 32]%Z.

(** [ALL_TUBE_SIZES.find(size => size.mm === diameter)] *)
Definition findTube (diameter : R) : option TubeSize :=
  find (fun size => eqb (mm size) diameter) ALL_TUBE_SIZES.

(** [getAvailableThicknesses] *)
Definition getAvailableThicknesses (diameter : R) : list Z :=
  match findTube diameter with
  | None => defaultThicknesses
  | Some tubeSize =>
      if (List.length (ObjectKeys (wallThicknesses tubeSize)) =? 0)%nat
      then defaultThicknesses
      else sortAsc Z.leb (ObjectKeys (wallThicknesses tubeSize))
  end.

(** ** Condensation calculator for pipes:
       components/calculators/pipes/CondensationCalculator.tsx *)

(** [xs[xs.length - 1]], [undefined] on the empty array. *)
Definition lastElement {A : Type} (xs : list A) : option A :=
  match xs with
  | [] => None
  | x :: xs' => Some (last xs' x)
  end.

(** [a || b] on a number or [undefined]: [b] when [a] is [undefined] or 0. *)
Definition orElse (a b : option Z) : option Z :=
  match a with
  | Some t => if (t =? 0)%Z then b else a
  | None => b
  end.

(** The ladder [calculateCondensation] selects from.  An object is
    truthy also when it has no property, so the test
    [selectedTube && selectedTube.wallThicknesses] succeeds for every
    tube that is found. *)
Definition availableThicknesses (tubeDiameter : R) : list Z :=
  match findTube tubeDiameter with
  | Some selectedTube =>
      sortAsc Z.leb (ObjectKeys (wallThicknesses selectedTube))
  | None => defaultThicknesses
  end.

(** [Math.ceil(minThickness * 1.2)], an integer. *)
Definition nominalThickness (minThickness : R) : Z :=
  Zceil (minThickness * 1.2).

(** [recommendedThickness] of [calculateCondensation]; [None] is
    [undefined]. *)
Definition recommendedThickness (minThickness tubeDiameter : R) : option Z :=
  let nominalThickness := nominalThickness minThickness in
  let availableThicknesses := availableThicknesses tubeDiameter in
  orElse (find (fun t => (nominalThickness <=? t)%Z) availableThicknesses)
         (lastElement availableThicknesses).

(** The values of the store and of the form that the calculation reads. *)
Record CondensationInputs : Type := mkCondensationInputs {
  ci_ambientTemp : R;
  ci_mediumTemp : R;
  ci_tubeDiameter : R;
  ci_material : string;
  ci_h : R;
  ci_relativeHumidity : R
}.

(** What [setResults] receives.  The source stores the recommendation as
    a text, the tube name (or nothing) followed by the recommended
    thickness; the record keeps its two ingredients. *)
Record CondensationResults : Type := mkCondensationResults {
  dewpointTemperature : R;
  minimumThickness : R;
  recommendationTube : option TubeSize;
  recommendationThickness : option Z
}.

Inductive CondensationOutcome : Type :=
| NotCalculated                           (* the early [return] *)
| Alerted (e : Error)                     (* the [catch] branch *)
| Calculated (r : CondensationResults).   (* [setResults] *)

(** [calculateCondensation] *)
Definition calculateCondensation (i : CondensationInputs)
  : CondensationOutcome :=
  let relativeHumidity := ci_relativeHumidity i in
  let h := ci_h i in
  let ambientTemp := ci_ambientTemp i in
  let mediumTemp := ci_mediumTemp i in
  let tubeDiameter := ci_tubeDiameter i in
  let material := ci_material i in
  if leb relativeHumidity 0 || gtb relativeHumidity 100 || leb h 0
  then NotCalculated
  else
    let dewPoint := calculateDewPoint ambientTemp relativeHumidity in
    match calculateMinimumThickness tubeDiameter ambientTemp mediumTemp
            dewPoint material h with
    | Throw e => Alerted e
    | Ok minThickness =>
        Calculated
          {| dewpointTemperature := dewPoint;
             minimumThickness := minThickness;
             recommendationTube := findTube tubeDiameter;
             recommendationThickness :=
               recommendedThickness minThickness tubeDiameter |}
    end.

(** ** Heat-loss calculator for pipes:
       components/calculators/pipes/HeatLossCalculator.tsx *)

(** The temperature at which [calculateHeatLoss] reads the conductivity. *)
Definition heatLoss_T_lambda (ambientTemp mediumTemp : R) : R :=
  ambientTemp + 0.533 * (mediumTemp - ambientTemp) + 21.

Definition heatLoss_lambda (ambientTemp mediumTemp : R) (material : string)
  : Result R :=
  let T_lambda := heatLoss_T_lambda ambientTemp mediumTemp in
  interpolateLambda T_lambda material.

(** ** The estimators in the words of the specification *)

Module Spec.

(** Rounding to the nearest, resp. up to the next, multiple of 0.001. *)
Definition roundTo3 (x : R) : R := IZR (Zfloor (x * 1000 + 1 / 2)) / 1000.
Definition ceilTo3 (x : R) : R := IZR (Zceil (x * 1000)) / 1000.

Definition kelvin (t : R) : R := t + 273.15.

(** Linearized radiation [4 eps sigma T^3] and the exact difference
    form [eps sigma (Ts^4 - Ta^4) / (Ts - Ta)], temperatures in Kelvin. *)
Definition rad_linear (eps T : R) : R := 4 * eps * sigma * T ^ 3.
Definition rad_exact (eps Ts Ta : R) : R :=
  eps * sigma * (Ts ^ 4 - Ta ^ 4) / (Ts - Ta).

(** *** Standard mode *)

Definition dT_eff (p : HCoefficientParams) : R :=
  match T_medium p with
  | Some Tm => Tm - T_amb p
  | None => T_sup p - T_amb p
  end.

Definition dT (p : HCoefficientParams) : R := Rmax (Rabs (dT_eff p)) 1.

(** The convection floor, 1/0.13, which the specification prints with
    four decimals as 7.6923. *)
Definition conv_floor : R := 1 / 0.13.

Definition alpha_conv (p : HCoefficientParams) : R :=
  Rmax (1.32 * Rpower (dT p) 0.33) conv_floor.

Definition alpha_rad_uncapped (p : HCoefficientParams) : R :=
  let Ts := kelvin (T_sup p) in
  let Ta := kelvin (T_amb p) in
  if Rlt_dec (Rabs (Ts - Ta)) 0.01
  then rad_linear (epsilon p) ((Ts + Ta) / 2)
  else rad_exact (epsilon p) Ts Ta.

Definition alpha_rad (p : HCoefficientParams) : R :=
  Rmin (alpha_rad_uncapped p) 6.5.

(** 0.75 when the safety factor is on, which is the default. *)
Definition safety (p : HCoefficientParams) : R :=
  match applySafetyFactor p with
  | Some false => 1
  | _ => 0.75
  end.

Definition standard_h (p : HCoefficientParams) : R :=
  roundTo3 ((alpha_conv p + alpha_rad p) * safety p).

(** *** AdvancedPipe mode *)

Definition adv_C (o : Orientation) : R :=
  match o with horizontal => 1.646 | vertical => 1.8 end.

Definition adv_p (o : Orientation) : R :=
  match o with horizontal => 0.33 | vertical => 0.25 end.

Definition adv_dT (T_amb T_medium : R) : R :=
  Rmax (Rabs (T_medium - T_amb)) 1.

Definition D_ref (D_pipe : R) : R := 0.000955 * D_pipe + 0.0244.

(** Outer diameter of the insulation in metres, from millimetres. *)
Definition D_outer (D_pipe thickness : R) : R :=
  (D_pipe + 2 * thickness) / 1000.

Definition adv_conv (o : Orientation) (T_amb T_medium D_pipe thickness : R)
  : R :=
  ceilTo3 (adv_C o * Rpower (adv_dT T_amb T_medium) (adv_p o)
           * Rpower (D_ref D_pipe / D_outer D_pipe thickness) 0.474).

Definition adv_rad (eps T_amb T_medium : R) : R :=
  rad_linear eps (kelvin ((T_amb + T_medium) / 2 + 0.75)).

Definition advanced_pipe_h (o : Orientation)
    (eps T_amb T_medium D_pipe thickness : R) : R :=
  roundTo3 (adv_conv o T_amb T_medium D_pipe thickness
            + adv_rad eps T_amb T_medium).

(** *** K-FLEX mode, condensation use-case *)

Definition kflex_linear (o : Orientation) (dT : R) : R :=
  match o with
  | horizontal => 1.646 - 0.0057 * (dT - 30)
  | vertical => 1.8 - 0.0063 * (dT - 30)
  end.

Definition kflex_floor (o : Orientation) : R :=
  match o with horizontal => 1.44 | vertical => 1.58 end.

(** *** Material table *)

(** The breakpoints of a material in ascending order of temperature,
    and the brackets formed by two neighbouring breakpoints. *)
Definition breakpoints (m : MaterialData) : list (R * R) :=
  sortAsc (fun a b => leb (fst a) (fst b)) (lambda m).

Definition brackets (m : MaterialData) : list ((R * R) * (R * R)) :=
  combine (breakpoints m) (tl (breakpoints m)).

(** Linear interpolation between the breakpoints [(t0, l0)] and
    [(t1, l1)]. *)
Definition lerp (b0 b1 : R * R) (t : R) : R :=
  snd b0 + (snd b1 - snd b0) * (t - fst b0) / (fst b1 - fst b0).

End Spec.

(** ** Auxiliary predicates *)

(** One of the four named modes is selected by the flags of [computeH]:
    K-FLEX, AdvancedSheet, AdvancedPipe, or the Standard formula (which
    is the default when no flag is given). *)
Definition namedModeSelected (args : ComputeHArgs) : Prop :=
  withDefault false (useKFlexAlgorithm args) = true \/
  withDefault false (useAdvancedSheetsAlgorithm args) = true \/
  withDefault false (useAdvancedAlgorithm args) = true \/
  withDefault true (useSimplifiedFormula args) = true.

(** The thicknesses a scan with step 0.1 goes through from [t], the
    first [n] of them. *)
Fixpoint scanPoints (t : R) (n : nat) : list R :=
  match n with
  | O => []
  | S n' => t :: scanPoints (t + 0.1) n'
  end.

(** The test of the thickness loop of [calculateMinimumThickness] for a
    validated input: the surface temperature at [thickness] reaches the
    dew point plus the margin of 0.4. *)
Definition surfaceCriterion
    (tubeDiameter ambientTemp mediumTemp dewPoint lambda h thickness : R)
  : Prop :=
  dewPoint + 0.4
  <= surfaceTempAt (tubeDiameter / 2 / 1000) lambda h ambientTemp mediumTemp
       thickness.

(** A validated input of [calculateMinimumThickness]. *)
Definition validatedInput (tubeDiameter ambientTemp dewPoint h : R) : Prop :=
  0 < tubeDiameter /\ 0 < h /\ dewPoint < ambientTemp /\
  dewPoint + 0.4 <= ambientTemp.

(** The inputs of a calculation on the 6 mm copper tube: ambient 25,
    medium -5, relative humidity 95, h = 9. *)
Definition tube6Inputs : CondensationInputs :=
  {| ci_ambientTemp := 25;
     ci_mediumTemp := -5;
     ci_tubeDiameter := 6;
     ci_material := "ROKAFLEX ST";
     ci_h := 9;
     ci_relativeHumidity := 95 |}.

(** The breakpoint temperatures of ROKAFLEX ST in ascending order. *)
Definition rokaflexTemps : list R := [-20; 0; 20; 40; 60].

(** * Further functions of the engine *)

(** The functions below throw [Error] objects at more sites than the
    ones above; [CalcError] names these sites. *)
Inductive CalcError : Type :=
| OuterNotAboveInner         (* D <= d *)
| NonPositiveLength          (* L <= 0 *)
| NonPositiveArea            (* A <= 0 *)
| NonPositiveThickness       (* s <= 0 *)
| NonPositiveLambda          (* lambda <= 0 *)
| NonPositiveH               (* h <= 0 *)
| NonPositiveAlpha           (* alpha given and alpha <= 0 *)
| MissingSurface             (* neither (D, L) nor A given *)
| MissingFlow                (* v or d not given *)
| NonPositiveResistance      (* R_total <= 0 *)
| NonPositiveBareResistance  (* R_total_uninsulated <= 0 *)
| LambdaError (e : Error)    (* thrown inside interpolateLambda *)
| EstimatorError (e : Error). (* thrown inside computeH *)

Inductive Outcome (A : Type) : Type :=
| Returns (a : A)
| Throws (e : CalcError).
Arguments Returns {A} a.
Arguments Throws {A} e.

(** ** Heat loss and surface temperature: utils/thermal/calculations.ts *)

Record HeatLossPipeParams : Type := mkHeatLossPipeParams {
  hlp_Ti : R;
  hlp_Te : R;
  hlp_d : R;
  hlp_D : R;
  hlp_L : R;
  hlp_lambda : R;
  hlp_h : R;
  hlp_alpha : option R
}.

(** [alpha !== undefined && alpha <= 0] *)
Definition alphaRejected (alpha : option R) : bool :=
  match alpha with
  | Some a => leb a 0
  | None => false
  end.

(** [alpha ? f(alpha) : 0]: an [alpha] that is [undefined] or 0 is falsy. *)
Definition whenAlpha (alpha : option R) (f : R -> R) : R :=
  match alpha with
  | Some a => if eqb a 0 then 0 else f a
  | None => 0
  end.

(** [calculateHeatLossPipe] *)
Definition calculateHeatLossPipe (params : HeatLossPipeParams) : Outcome R :=
  let Ti := hlp_Ti params in
  let Te := hlp_Te params in
  let d := hlp_d params in
  let D := hlp_D params in
  let L := hlp_L params in
  let lambda := hlp_lambda params in
  let h := hlp_h params in
  let alpha := hlp_alpha params in
  if leb D d then Throws OuterNotAboveInner
  else if leb L 0 then Throws NonPositiveLength
  else if leb lambda 0 then Throws NonPositiveLambda
  else if leb h 0 then Throws NonPositiveH
  else if alphaRejected alpha then Throws NonPositiveAlpha
  else
    let deltaT := Ti - Te in
    let R_alpha := whenAlpha alpha (fun alpha => 1 / (alpha * Math_PI * d * L)) in
    let R_ins := Math_log (D / d) / (2 * Math_PI * lambda * L) in
    let R_conv := 1 / (h * Math_PI * D * L) in
    let R_total := R_alpha + R_ins + R_conv in
    let Q := deltaT / R_total in
    Returns Q.

Record HeatLossSheetParams : Type := mkHeatLossSheetParams {
  hls_Ti : R;
  hls_Te : R;
  hls_A : R;
  hls_s : R;
  hls_lambda : R;
  hls_h : R;
  hls_alpha : option R
}.

(** [calculateHeatLossSheet] *)
Definition calculateHeatLossSheet (params : HeatLossSheetParams) : Outcome R :=
  let Ti := hls_Ti params in
  let Te := hls_Te params in
  let A := hls_A params in
  let s := hls_s params in
  let lambda := hls_lambda params in
  let h := hls_h params in
  let alpha := hls_alpha params in
  if leb A 0 then Throws NonPositiveArea
  else if leb s 0 then Throws NonPositiveThickness
  else if leb lambda 0 then Throws NonPositiveLambda
  else if leb h 0 then Throws NonPositiveH
  else if alphaRejected alpha then Throws NonPositiveAlpha
  else
    let deltaT := Ti - Te in
    let R_alpha := whenAlpha alpha (fun alpha => 1 / (alpha * A)) in
    let R_ins := s / (lambda * A) in
    let R_conv := 1 / (h * A) in
    let R_total := R_alpha + R_ins + R_conv in
    let Q := deltaT / R_total in
    Returns Q.

Record SurfaceTemperatureParams : Type := mkSurfaceTemperatureParams {
  st_T_amb : R;
  st_Q : R;
  st_h : R;
  st_A : option R;
  st_D : option R;
  st_L : option R
}.

(** [calculateSurfaceTemperature] *)
Definition calculateSurfaceTemperature (params : SurfaceTemperatureParams)
  : Outcome R :=
  let T_amb := st_T_amb params in
  let Q := st_Q params in
  let h := st_h params in
  let surfaceArea :=
    match st_D params, st_L params with
    | Some D, Some L => Returns (Math_PI * D * L)
    | _, _ =>
        match st_A params with
        | Some A => Returns A
        | None => Throws MissingSurface
        end
    end in
  match surfaceArea with
  | Throws e => Throws e
  | Returns surfaceArea =>
      let T_sup := T_amb + Q / (h * surfaceArea) in
      Returns T_sup
  end.

(** [calculateThermalTransmittancePipe] *)
Definition calculateThermalTransmittancePipe (Q L Ti Te : R) : R :=
  let deltaT := Ti - Te in
  if ltb (Math_abs deltaT) 1e-10 || leb L 0 then 0
  else Q / (L * deltaT).

(** [calculateThermalTransmittanceSheet] *)
Definition calculateThermalTransmittanceSheet (Q A Ti Te : R) : R :=
  let deltaT := Ti - Te in
  if ltb (Math_abs deltaT) 1e-10 || leb A 0 then 0
  else Q / (A * deltaT).

(** [calculateMeanTemperature] *)
Definition calculateMeanTemperature (T_int T_ext : R) : R :=
  (T_int + T_ext) / 2.

Record FlowingFluidTemperatureParams : Type := mkFlowingFluidTemperatureParams {
  ff_Ti : R;
  ff_Te : R;
  ff_k : R;
  ff_L : R;
  ff_Cp : R;
  ff_rho : R;
  ff_v : option R;
  ff_d : option R
}.

(** [calculateFlowingFluidTemperature]; [Math.exp] is [exp]. *)
Definition calculateFlowingFluidTemperature
    (params : FlowingFluidTemperatureParams) : Outcome R :=
  let Ti := ff_Ti params in
  let Te := ff_Te params in
  let k := ff_k params in
  let L := ff_L params in
  let Cp := ff_Cp params in
  let rho := ff_rho params in
  match ff_v params, ff_d params with
  | Some v, Some d =>
      let massFlowRate := rho * v * Math_PI * Math_pow_int d 2 / 4 in
      let exponent := - k * L / (Cp * massFlowRate) in
      let T_f := Te + (Ti - Te) * exp exponent in
      Returns T_f
  | _, _ => Throws MissingFlow
  end.

Record StaticFluidTemperatureParams : Type := mkStaticFluidTemperatureParams {
  sf_Ti : R;
  sf_Te : R;
  sf_k : R;
  sf_L : R;
  sf_t : R;
  sf_Cp : R;
  sf_m : R
}.

(** [calculateStaticFluidTemperature] *)
Definition calculateStaticFluidTemperature
    (params : StaticFluidTemperatureParams) : R :=
  let Ti := sf_Ti params in
  let Te := sf_Te params in
  let k := sf_k params in
  let L := sf_L params in
  let t := sf_t params in
  let Cp := sf_Cp params in
  let m := sf_m params in
  let exponent := - k * L * t / (Cp * m) in
  let T_f := Te + (Ti - Te) * exp exponent in
  T_f.

Record FreezingTimeParams : Type := mkFreezingTimeParams {
  fz_Ti : R;
  fz_Te : R;
  fz_T_cong : R;
  fz_k : R;
  fz_L : R;
  fz_m : R;
  fz_Cp : R;
  fz_Q : R;
  fz_x : R;
  fz_deltaH_fus : R
}.

(** [calculateFreezingTime] *)
Definition calculateFreezingTime (params : FreezingTimeParams) : R :=
  let Ti := fz_Ti params in
  let Te := fz_Te params in
  let T_cong := fz_T_cong params in
  let k := fz_k params in
  let L := fz_L params in
  let m := fz_m params in
  let Cp := fz_Cp params in
  let Q := fz_Q params in
  let x := fz_x params in
  let deltaH_fus := fz_deltaH_fus params in
  let t_cooling := (m * Cp * (Ti - T_cong)) / (k * L * (T_cong - Te)) in
  let t_freezing_phase := (x * m * deltaH_fus) / Q in
  let t_total_seconds := t_cooling + t_freezing_phase in
  let t_total_hours := t_total_seconds / 3600 in
  t_total_hours.

Record AntiCondensationParams : Type := mkAntiCondensationParams {
  ac_Ti : R;
  ac_Te : R;
  ac_T_amb : R;
  ac_UR : R;
  ac_d : R;
  ac_lambda : R;
  ac_h : R;
  ac_minThickness : option R;
  ac_maxThickness : option R;
  ac_step : option R;
  ac_alpha : option R
}.

Record AntiCondensationResult : Type := mkAntiCondensationResult {
  acr_thickness : R;
  acr_D : R;
  acr_T_sup : R;
  acr_T_dew : R
}.

(** The surface temperature the loop of
    [findMinimalAntiCondensationThickness] computes at the thickness [s]. *)
Definition antiCondensationSurface (params : AntiCondensationParams) (s : R)
  : Outcome R :=
  let D := ac_d params + 2 * s in
  match calculateHeatLossPipe
          {| hlp_Ti := ac_Ti params;
             hlp_Te := ac_Te params;
             hlp_d := ac_d params;
             hlp_D := D;
             hlp_L := 1;
             hlp_lambda := ac_lambda params;
             hlp_h := ac_h params;
             hlp_alpha := ac_alpha params |} with
  | Throws e => Throws e
  | Returns Q =>
      calculateSurfaceTemperature
        {| st_T_amb := ac_T_amb params;
           st_Q := Q;
           st_h := ac_h params;
           st_A := None;
           st_D := Some D;
           st_L := Some 1 |}
  end.

(** How a run of a loop whose step the caller supplies ends: with a
    value, with an exception, or not within the iterations granted. *)
Inductive LoopRun (A : Type) : Type :=
| Finished (a : A)
| Raised (e : CalcError)
| Unfinished.
Arguments Finished {A} a.
Arguments Raised {A} e.
Arguments Unfinished {A}.

(** [for (let s = minThickness; s <= maxThickness; s += step)] of
    [findMinimalAntiCondensationThickness], run for at most [fuel]
    iterations.  [None] is the [null] returned after the loop.  [add]
    is the addition that [s += step] performs.  The source adds in
    double precision, so the loop variable is not
    [minThickness + k * step] exactly: with the default values it is
    0.09900000000000007 after 98 additions and above 0.1 after 99. *)
Fixpoint antiCondensationLoop (add : R -> R -> R) (fuel : nat)
    (params : AntiCondensationParams) (maxThickness step T_dew s : R)
  : LoopRun (option AntiCondensationResult) :=
  match fuel with
  | O => Unfinished
  | S fuel' =>
      if leb s maxThickness then
        match antiCondensationSurface params s with
        | Throws e => Raised e
        | Returns T_sup =>
            if gtb T_sup T_dew then
              Finished (Some {| acr_thickness := s;
                                acr_D := ac_d params + 2 * s;
                                acr_T_sup := T_sup;
                                acr_T_dew := T_dew |})
            else
              antiCondensationLoop add fuel' params maxThickness step
                T_dew (add s step)
        end
      else Finished None
  end.

(** [findMinimalAntiCondensationThickness], run for at most [fuel]
    iterations of its loop, with [add] as the addition of the loop. *)
Definition findMinimalAntiCondensationThicknessWith (add : R -> R -> R)
    (fuel : nat) (params : AntiCondensationParams)
  : LoopRun (option AntiCondensationResult) :=
  let minThickness := withDefault 0.001 (ac_minThickness params) in
  let maxThickness := withDefault 0.1 (ac_maxThickness params) in
  let step := withDefault 0.001 (ac_step params) in
  let T_dew :=
    calculateDewPointMagnus
      {| dp_T := ac_T_amb params; dp_UR := ac_UR params |} in
  antiCondensationLoop add fuel params maxThickness step T_dew
    minThickness.

(** The search with the exact sum as the addition of its loop. *)
Definition findMinimalAntiCondensationThickness (fuel : nat)
    (params : AntiCondensationParams)
  : LoopRun (option AntiCondensationResult) :=
  findMinimalAntiCondensationThicknessWith Rplus fuel params.


(** ** Further variants: utils/thermal/advanced-algorithm.ts *)

(** The convection term shared by the two variants. *)
Definition variantConvection (orientation : Orientation) (deltaT : R) : R :=
  if Orientation_eqb orientation horizontal then
    let alpha_conv_raw := 1.0 * Math_pow deltaT 0.33 in
    Math_max alpha_conv_raw (1 / 0.13)
  else
    let alpha_conv_raw := 1.2 * Math_pow deltaT 0.25 in
    Math_max alpha_conv_raw (1 / 0.13).

(** [calculateAdvancedH_Variant2] *)
Definition calculateAdvancedH_Variant2 (params : AdvancedHParams) : Result R :=
  let T_amb := adv_T_amb params in
  let T_medium := adv_T_medium params in
  let epsilon := adv_epsilon params in
  let orientation := withDefault horizontal (adv_orientation params) in
  throwIf (ltb epsilon 0 || gtb epsilon 1) InvalidEmissivity (
    let T_mean := (T_amb + T_medium) / 2 in
    let deltaT := Math_max (Math_abs (T_medium - T_amb)) 1 in
    let alpha_conv := variantConvection orientation deltaT in
    let T_mean_K := T_mean + 273.15 in
    let alpha_rad := 4 * epsilon * sigma * Math_pow_int T_mean_K 3 in
    let h := alpha_conv + alpha_rad in
    Ok (Math_round (h * 1000) / 1000)).

(** [calculateAdvancedH_Variant3] *)
Definition calculateAdvancedH_Variant3 (params : AdvancedHParams) : Result R :=
  let T_amb := adv_T_amb params in
  let T_medium := adv_T_medium params in
  let epsilon := adv_epsilon params in
  let orientation := withDefault horizontal (adv_orientation params) in
  throwIf (ltb epsilon 0 || gtb epsilon 1) InvalidEmissivity (
    let deltaT := Math_max (Math_abs (T_medium - T_amb)) 1 in
    let alpha_conv := variantConvection orientation deltaT in
    let T_amb_K := T_amb + 273.15 in
    let alpha_rad := 4 * epsilon * sigma * Math_pow_int T_amb_K 3 in
    let h := alpha_conv + alpha_rad in
    Ok (Math_round (h * 1000) / 1000)).

(** ** Heat losses and stock sizes: utils/heatLoss.ts *)

Record HeatLosses : Type := mkHeatLosses {
  heatLoss : R;
  heatLossUninsulated : R;
  decrease : R
}.

(** [calculateHeatLosses].  The [console.warn] for
    [R_total <= R_total_uninsulated] has no effect on the result and is
    left out. *)
Definition calculateHeatLosses (deltaT R_total R_total_uninsulated : R)
  : Outcome HeatLosses :=
  if leb R_total 0 then Throws NonPositiveResistance
  else if leb R_total_uninsulated 0 then Throws NonPositiveBareResistance
  else
    let heatLoss := Math_abs deltaT / R_total in
    let heatLossUninsulated := Math_abs deltaT / R_total_uninsulated in
    let decrease :=
      ((heatLossUninsulated - heatLoss) / heatLossUninsulated) * 100 in
    Returns {| heatLoss := heatLoss;
               heatLossUninsulated := heatLossUninsulated;
               decrease := decrease |}.

(** [calculateEconomicData] *)
Definition calculateEconomicData (heatLoss pipeLength costPerKWh : R) : R :=
  let totalHeatLoss := heatLoss * pipeLength in
  let costPerHour := (totalHeatLoss / 1000) * costPerKWh in
  costPerHour.

(** The table of [calculateRokaflexDimension].  A key is the text of a
    tube diameter, a slash and the text of a thickness; the pair of the
    two numbers stands for it, a number being determined by its text. *)
Definition conversionTable : list ((R * R) * R) :=
  [
    ((6, 6), 6); ((6, 9), 6); ((6, 13), 6); ((8, 6), 8);
    ((8, 9), 8); ((8, 13), 8); ((10, 6), 10); ((10, 9), 10);
    ((10, 13), 10); ((12, 6), 12); ((12, 9), 12); ((12, 13), 12);
    ((15, 6), 15); ((15, 9), 15); ((15, 13), 15); ((18, 6), 18);
    ((18, 9), 18); ((18, 13), 18); ((18, 19), 18); ((18, 25), 18);
    ((22, 6), 22); ((22, 9), 22); ((22, 13), 22); ((22, 19), 22);
    ((22, 25), 22); ((22, 32), 22); ((25, 6), 25); ((25, 9), 25);
    ((25, 13), 25); ((25, 19), 25); ((25, 25), 25); ((25, 32), 25);
    ((28, 6), 28); ((28, 9), 28); ((28, 13), 28); ((28, 19), 28);
    ((28, 25), 28); ((28, 32), 28); ((35, 6), 35); ((35, 9), 35);
    ((35, 13), 35); ((35, 19), 35); ((35, 25), 35); ((35, 32), 35);
    ((42, 6), 42); ((42, 9), 42); ((42, 13), 42); ((42, 19), 42);
    ((42, 25), 42); ((42, 32), 42); ((48, 9), 48); ((48, 13), 48);
    ((48, 19), 48); ((48, 25), 48); ((48, 32), 48); ((54, 9), 54);
    ((54, 13), 54); ((54, 19), 54); ((54, 25), 54); ((54, 32), 54);
    ((60, 9), 60); ((60, 13), 60); ((60, 19), 60); ((60, 25), 60);
    ((60, 32), 60); ((76, 9), 76); ((76, 13), 76); ((76, 19), 76);
    ((76, 25), 76); ((76, 32), 76); ((89, 9), 89); ((89, 13), 89);
    ((89, 19), 89); ((89, 25), 89); ((89, 32), 89); ((114, 9), 114);
    ((114, 13), 114); ((114, 19), 114); ((114, 25), 114); ((114, 32), 114) ].

(** [conversionTable[key] || tubeDiameter] with
    [key = `${tubeDiameter}/${insulationThickness}`].  A key always
    holds a slash, so no inherited property is ever read. *)
Definition calculateRokaflexDimension (tubeDiameter insulationThickness : R)
  : R :=
  match find (fun e => eqb (fst (fst e)) tubeDiameter
                       && eqb (snd (fst e)) insulationThickness)
             conversionTable with
  | Some e => if eqb (snd e) 0 then tubeDiameter else snd e
  | None => tubeDiameter
  end.

(** The heat loss per metre [getRecommendedThickness] computes for the
    candidate thickness [t]. *)
Definition candidateHeatLoss (rOuterPipe rInnerPipe lambdaInsul h deltaT : R)
    (t : Z) : Outcome R :=
  let lambdaPipe := 50 in
  let ro := rOuterPipe + IZR t / 1000 in
  let R_pipe :=
    Math_log (rOuterPipe / rInnerPipe) / (2 * Math_PI * lambdaPipe) in
  let R_insul := Math_log (ro / rOuterPipe) / (2 * Math_PI * lambdaInsul) in
  let R_conv := 1 / (h * 2 * Math_PI * ro) in
  let R_total := R_pipe + R_insul + R_conv in
  let R_unins := R_pipe + 1 / (h * 2 * Math_PI * rOuterPipe) in
  match calculateHeatLosses deltaT R_total R_unins with
  | Throws e => Throws e
  | Returns losses => Returns (heatLoss losses)
  end.

(** [for (const t of candidates)] of [getRecommendedThickness] with its
    [return t]; [Returns None] when the loop ends without returning. *)
Fixpoint recommendLoop (loss : Z -> Outcome R) (candidates : list Z)
  : Outcome (option Z) :=
  match candidates with
  | [] => Returns None
  | t :: rest =>
      match loss t with
      | Throws e => Throws e
      | Returns heatLoss =>
          let targetHeatLoss := 15 in
          if leb heatLoss targetHeatLoss then Returns (Some t)
          else recommendLoop loss rest
      end
  end.

(** [getRecommendedThickness]; [Returns None] is the value [undefined]
    that the last statement would yield on an empty candidate list. *)
Definition getRecommendedThickness (ambientTemp mediumTemp tubeDiameter : R)
    (pipeWallThickness : option R) (material : string) (h : R)
  : Outcome (option Z) :=
  let candidates := getAvailableThicknesses tubeDiameter in
  let rOuterPipe := tubeDiameter / 2 / 1000 in
  let rInnerPipe :=
    Math_max 1e-6 (rOuterPipe - withDefault 0 pipeWallThickness / 1000) in
  match interpolateLambda ambientTemp material with
  | Throw e => Throws (LambdaError e)
  | Ok lambdaInsul =>
      let deltaT := mediumTemp - ambientTemp in
      match recommendLoop
              (candidateHeatLoss rOuterPipe rInnerPipe lambdaInsul h deltaT)
              candidates with
      | Throws e => Throws e
      | Returns (Some t) => Returns (Some t)
      | Returns None => Returns (lastElement candidates)
      end
  end.

(** ** Heat-loss calculator for pipes, the calculation:
       components/calculators/pipes/HeatLossCalculator.tsx *)

(** The values of the store and of the form that the calculation reads.
    The safety factor is a state of the component that is never set:
    it is [false]. *)
Record HeatLossInputs : Type := mkHeatLossInputs {
  hl_ambientTemp : R;
  hl_mediumTemp : R;
  hl_tubeDiameter : R;
  hl_material : string;
  hl_h : R;
  hl_orientation : Orientation;
  hl_emissivity : R;
  hl_insulationThickness : R;
  hl_pipeWallThickness : option R;
  hl_pipeLength : R;
  hl_costPerKWh : R
}.

(** What [setResults] receives; [recommendedThicknessMm] is always
    [undefined] and left out. *)
Record CalculationResults : Type := mkCalculationResults {
  res_meanLambda : R;
  res_thermalTransmittance : R;
  res_heatLoss : R;
  res_decrease : R;
  res_costPerHour : R;
  res_rokaflexDimension : R
}.

Inductive HeatLossOutcome : Type :=
| HeatLossNotCalculated                       (* the early [return] *)
| HeatLossUncaught (e : CalcError)            (* an exception leaves the handler *)
| HeatLossCalculated (r : CalculationResults). (* [setResults] *)

(** The call of [computeH] for the bare pipe. *)
Definition barePipeArgs (i : HeatLossInputs) : ComputeHArgs :=
  {| ambientTemp := hl_ambientTemp i;
     mediumTemp := hl_mediumTemp i;
     tubeDiameter := hl_tubeDiameter i;
     orientation := hl_orientation i;
     emissivity := hl_emissivity i;
     arg_calculationType := Some inside;
     insulationThickness := Some 0;
     arg_windSpeed := None;
     useSimplifiedFormula := Some false;
     arg_applySafetyFactor := Some false;
     useAdvancedAlgorithm := Some false;
     useAdvancedSheetsAlgorithm := Some false;
     useKFlexAlgorithm := Some true;
     forCondensation := None |}.

(** [calculateHeatLoss].  The handler has no [try]: an exception of a
    function it calls leaves it. *)
Definition calculateHeatLoss (i : HeatLossInputs) : HeatLossOutcome :=
  let ambientTemp := hl_ambientTemp i in
  let mediumTemp := hl_mediumTemp i in
  let tubeDiameter := hl_tubeDiameter i in
  let material := hl_material i in
  let h := hl_h i in
  let insulationThickness := hl_insulationThickness i in
  let pipeLength := hl_pipeLength i in
  let costPerKWh := hl_costPerKWh i in
  if leb insulationThickness 0 || leb pipeLength 0 || leb h 0
  then HeatLossNotCalculated
  else
    let usedThickness := insulationThickness in
    let rOuterPipe := tubeDiameter / 2 / 1000 in
    let rInnerPipe :=
      Math_max 1e-6
        (rOuterPipe - withDefault 0 (hl_pipeWallThickness i) / 1000) in
    let ro := rOuterPipe + usedThickness / 1000 in
    match heatLoss_lambda ambientTemp mediumTemp material with
    | Throw e => HeatLossUncaught (LambdaError e)
    | Ok lambda =>
        let lambdaPipe := 50 in
        let pipeWallThicknessActual :=
          withDefault 0 (hl_pipeWallThickness i) in
        let R_pipe :=
          if gtb pipeWallThicknessActual 0 && ltb rInnerPipe rOuterPipe
          then Math_log (rOuterPipe / rInnerPipe) / (2 * Math_PI * lambdaPipe)
          else 0 in
        let R_cond := Math_log (ro / rOuterPipe) / (2 * Math_PI * lambda) in
        let R_conv := 1 / (h * 2 * Math_PI * ro) in
        let R_total := R_pipe + R_cond + R_conv in
        match computeH (barePipeArgs i) with
        | Throw e => HeatLossUncaught (EstimatorError e)
        | Ok hUninsulated =>
            let hUninsulated :=
              if gtb tubeDiameter 0 then
                let diameterRatio := 25 / tubeDiameter in
                let boostPower := 0.2 in
                let boostFactor := Math_pow diameterRatio boostPower in
                hUninsulated * boostFactor
              else hUninsulated in
            let R_total_uninsulated :=
              R_pipe + 1 / (hUninsulated * 2 * Math_PI * rOuterPipe) in
            let deltaT := mediumTemp - ambientTemp in
            match calculateHeatLosses deltaT R_total R_total_uninsulated with
            | Throws e => HeatLossUncaught e
            | Returns losses =>
                let heatLossPerMeter := heatLoss losses in
                let decrease := decrease losses in
                let heatLoss := heatLossPerMeter * pipeLength in
                let costPerHour :=
                  calculateEconomicData heatLossPerMeter pipeLength
                    costPerKWh in
                let rokaflexDimension :=
                  calculateRokaflexDimension tubeDiameter usedThickness in
                let thermalTransmittance :=
                  heatLossPerMeter / Math_abs deltaT in
                HeatLossCalculated
                  {| res_meanLambda := lambda;
                     res_thermalTransmittance := thermalTransmittance;
                     res_heatLoss := heatLoss;
                     res_decrease := decrease;
                     res_costPerHour := costPerHour;
                     res_rokaflexDimension := rokaflexDimension |}
            end
        end
    end.

(** ** Auxiliary predicates for the further functions *)

(** The parameters [calculateHeatLossPipe] accepts, on a pipe of
    positive diameter (the function does not check [d] itself). *)
Definition validPipe (p : HeatLossPipeParams) : Prop :=
  0 < hlp_d p /\ hlp_d p < hlp_D p /\ 0 < hlp_L p /\ 0 < hlp_lambda p /\
  0 < hlp_h p /\ forall a, hlp_alpha p = Some a -> 0 < a.

(** The parameters [calculateHeatLossSheet] accepts. *)
Definition validSheet (p : HeatLossSheetParams) : Prop :=
  0 < hls_A p /\ 0 < hls_s p /\ 0 < hls_lambda p /\ 0 < hls_h p /\
  forall a, hls_alpha p = Some a -> 0 < a.

(** The surface temperature of a pipe from its heat loss, as
    [findMinimalAntiCondensationThickness] chains the two functions:
    [calculateSurfaceTemperature({T_amb, Q: calculateHeatLossPipe(p), h, D, L})]. *)
Definition pipeSurfaceTemperature (T_amb : R) (p : HeatLossPipeParams)
  : Outcome R :=
  match calculateHeatLossPipe p with
  | Throws e => Throws e
  | Returns Q =>
      calculateSurfaceTemperature
        {| st_T_amb := T_amb;
           st_Q := Q;
           st_h := hlp_h p;
           st_A := None;
           st_D := Some (hlp_D p);
           st_L := Some (hlp_L p) |}
  end.

(** A pipe of 25 mm with 9 mm of insulation, one metre long, carrying
    water of 60 degrees through air of 20 degrees. *)
Definition warmPipe : HeatLossPipeParams :=
  {| hlp_Ti := 60;
     hlp_Te := 20;
     hlp_d := 0.025;
     hlp_D := 0.043;
     hlp_L := 1;
     hlp_lambda := 0.036;
     hlp_h := 9;
     hlp_alpha := None |}.

(** [{...p, Ti, Te}]: the pipe [p] at other temperatures. *)
Definition atTemperatures (p : HeatLossPipeParams) (Ti Te : R)
  : HeatLossPipeParams :=
  {| hlp_Ti := Ti;
     hlp_Te := Te;
     hlp_d := hlp_d p;
     hlp_D := hlp_D p;
     hlp_L := hlp_L p;
     hlp_lambda := hlp_lambda p;
     hlp_h := hlp_h p;
     hlp_alpha := hlp_alpha p |}.

(** The transmittance of a pipe from its heat loss:
    [calculateThermalTransmittancePipe(calculateHeatLossPipe(p), L, Ti, Te)]. *)
Definition pipeTransmittance (p : HeatLossPipeParams) : Outcome R :=
  match calculateHeatLossPipe p with
  | Throws e => Throws e
  | Returns Q =>
      Returns (calculateThermalTransmittancePipe Q (hlp_L p) (hlp_Ti p)
                 (hlp_Te p))
  end.

(** [{...p, s}]: the sheet [p] with another insulation thickness. *)
Definition withThickness (p : HeatLossSheetParams) (s : R)
  : HeatLossSheetParams :=
  {| hls_Ti := hls_Ti p;
     hls_Te := hls_Te p;
     hls_A := hls_A p;
     hls_s := s;
     hls_lambda := hls_lambda p;
     hls_h := hls_h p;
     hls_alpha := hls_alpha p |}.

(** A wall of 2 square metres with 19 mm of insulation between 60 and
    20 degrees. *)
Definition warmSheet : HeatLossSheetParams :=
  {| hls_Ti := 60;
     hls_Te := 20;
     hls_A := 2;
     hls_s := 0.019;
     hls_lambda := 0.036;
     hls_h := 9;
     hls_alpha := Some 500 |}.

(** [{...p, D}]: the pipe [p] with another outer diameter. *)
Definition withOuterDiameter (p : HeatLossPipeParams) (D : R)
  : HeatLossPipeParams :=
  {| hlp_Ti := hlp_Ti p;
     hlp_Te := hlp_Te p;
     hlp_d := hlp_d p;
     hlp_D := D;
     hlp_L := hlp_L p;
     hlp_lambda := hlp_lambda p;
     hlp_h := hlp_h p;
     hlp_alpha := hlp_alpha p |}.

(** The pipe whose heat loss [findMinimalAntiCondensationThickness]
    computes at the thickness [s]. *)
Definition searchPipe (params : AntiCondensationParams) (s : R)
  : HeatLossPipeParams :=
  {| hlp_Ti := ac_Ti params;
     hlp_Te := ac_Te params;
     hlp_d := ac_d params;
     hlp_D := ac_d params + 2 * s;
     hlp_L := 1;
     hlp_lambda := ac_lambda params;
     hlp_h := ac_h params;
     hlp_alpha := ac_alpha params |}.

(** Parameters of a search on which the heat loss is computed without
    an exception at every positive thickness. *)
Definition validSearch (params : AntiCondensationParams) : Prop :=
  0 < ac_d params /\ 0 < ac_lambda params /\ 0 < ac_h params /\
  forall a, ac_alpha params = Some a -> 0 < a.

(** The [k]-th thickness the loop of
    [findMinimalAntiCondensationThickness] examines. *)
Definition searchPoint (params : AntiCondensationParams) (k : nat) : R :=
  withDefault 0.001 (ac_minThickness params)
  + INR k * withDefault 0.001 (ac_step params).

(** A number of iterations that suffices for the loop to end when its
    step is positive. *)
Definition searchFuel (params : AntiCondensationParams) : nat :=
  S (Z.to_nat
       (Zfloor ((withDefault 0.1 (ac_maxThickness params)
                 - withDefault 0.001 (ac_minThickness params))
                / withDefault 0.001 (ac_step params)) + 1)).




(** The surface at the thickness [s] is computed and is above the dew
    point / not above the dew point. *)
Definition surfaceAbove (params : AntiCondensationParams) (T_dew s : R)
  : Prop :=
  exists T, antiCondensationSurface params s = Returns T /\ T_dew < T.

Definition surfaceNotAbove (params : AntiCondensationParams) (T_dew s : R)
  : Prop :=
  exists T, antiCondensationSurface params s = Returns T /\ T <= T_dew.

(** A search for a chilled-water pipe of 25 mm in air of 25 degrees and
    60 percent humidity, with the default bounds and step. *)
Definition chilledSearch : AntiCondensationParams :=
  {| ac_Ti := 6;
     ac_Te := 25;
     ac_T_amb := 25;
     ac_UR := 60;
     ac_d := 0.025;
     ac_lambda := 0.036;
     ac_h := 9;
     ac_minThickness := None;
     ac_maxThickness := None;
     ac_step := None;
     ac_alpha := None |}.

(** [{...params, minThickness, step}] *)
Definition withScan (params : AntiCondensationParams)
    (minThickness step : option R) : AntiCondensationParams :=
  {| ac_Ti := ac_Ti params;
     ac_Te := ac_Te params;
     ac_T_amb := ac_T_amb params;
     ac_UR := ac_UR params;
     ac_d := ac_d params;
     ac_lambda := ac_lambda params;
     ac_h := ac_h params;
     ac_minThickness := minThickness;
     ac_maxThickness := ac_maxThickness params;
     ac_step := step;
     ac_alpha := ac_alpha params |}.

(** The dew point of the air of a search. *)
Definition searchDewPoint (params : AntiCondensationParams) : R :=
  calculateDewPointMagnus
    {| dp_T := ac_T_amb params; dp_UR := ac_UR params |}.

(** The fluid of [p] starting at the temperature [Ti], after the time
    [t]: [calculateStaticFluidTemperature({...p, Ti, t})]. *)
Definition staticCooling (p : StaticFluidTemperatureParams) (Ti t : R) : R :=
  calculateStaticFluidTemperature
    {| sf_Ti := Ti;
       sf_Te := sf_Te p;
       sf_k := sf_k p;
       sf_L := sf_L p;
       sf_t := t;
       sf_Cp := sf_Cp p;
       sf_m := sf_m p |}.

(** Ten metres of pipe holding 5 kg of water of 60 degrees in air of 5
    degrees, with a transmittance of 0.3 W/(m K). *)
Definition standingWater : StaticFluidTemperatureParams :=
  {| sf_Ti := 60;
     sf_Te := 5;
     sf_k := 0.3;
     sf_L := 10;
     sf_t := 3600;
     sf_Cp := 4186;
     sf_m := 5 |}.

(** [calculateFlowingFluidTemperature({...p, v})] *)
Definition atSpeed (p : FlowingFluidTemperatureParams) (v : option R)
  : FlowingFluidTemperatureParams :=
  {| ff_Ti := ff_Ti p;
     ff_Te := ff_Te p;
     ff_k := ff_k p;
     ff_L := ff_L p;
     ff_Cp := ff_Cp p;
     ff_rho := ff_rho p;
     ff_v := v;
     ff_d := ff_d p |}.

(** Water of 60 degrees flowing at 0.5 m/s through 10 m of a 20 mm pipe
    in air of 5 degrees. *)
Definition flowingWater : FlowingFluidTemperatureParams :=
  {| ff_Ti := 60;
     ff_Te := 5;
     ff_k := 0.3;
     ff_L := 10;
     ff_Cp := 4186;
     ff_rho := 1000;
     ff_v := Some 0.5;
     ff_d := Some 0.02 |}.

(** [{...p, insulationThickness}] *)
Definition withInsulation (p : KFlexHParams) (insulationThickness : option R)
  : KFlexHParams :=
  {| kf_T_amb := kf_T_amb p;
     kf_T_medium := kf_T_medium p;
     kf_epsilon := kf_epsilon p;
     kf_orientation := kf_orientation p;
     kf_tubeDiameter := kf_tubeDiameter p;
     kf_insulationThickness := insulationThickness;
     kf_forCondensation := kf_forCondensation p |}.

(** The call of the K-FLEX estimator the condensation calculator makes
    for a 25 mm tube between 25 and -5 degrees. *)
Definition kflexCall : KFlexHParams :=
  {| kf_T_amb := 25;
     kf_T_medium := -5;
     kf_epsilon := 0.93;
     kf_orientation := Some horizontal;
     kf_tubeDiameter := Some 25;
     kf_insulationThickness := Some 9;
     kf_forCondensation := Some true |}.

(** The call [computeH] makes to the Standard estimator for a medium of
    60 degrees in air of 20 degrees. *)
Definition standardCall : HCoefficientParams :=
  {| T_sup := 32;
     T_amb := 20;
     epsilon := 0.93;
     windSpeed := None;
     hc_orientation := Some horizontal;
     calculationType := Some inside;
     applySafetyFactor := None;
     T_medium := Some 60 |}.

(** A call of the advanced estimators: medium of 60 degrees in air of
    20 degrees. *)
Definition advancedCall : AdvancedHParams :=
  {| adv_T_amb := 20;
     adv_T_medium := 60;
     adv_epsilon := 0.93;
     adv_orientation := Some horizontal;
     adv_tubeDiameter := Some 25;
     adv_insulationThickness := Some 9 |}.

(** What [calculateCondensation] can end with, with the condition on the
    inputs under which it does. *)
Definition condensationOutcomeExplained (i : CondensationInputs)
    (o : CondensationOutcome) : Prop :=
  let dewPoint :=
    calculateDewPoint (ci_ambientTemp i) (ci_relativeHumidity i) in
  match o with
  | NotCalculated =>
      ci_relativeHumidity i <= 0 \/ 100 < ci_relativeHumidity i \/ ci_h i <= 0
  | Alerted e =>
      0 < ci_relativeHumidity i <= 100 /\ 0 < ci_h i /\
      match e with
      | InvalidGeometry => ci_tubeDiameter i <= 0
      | InvalidHumidity =>
          0 < ci_tubeDiameter i /\ ci_ambientTemp i <= dewPoint
      | UnreachableTarget =>
          0 < ci_tubeDiameter i /\ dewPoint < ci_ambientTemp i /\
          ci_ambientTemp i < dewPoint + 0.4
      | TypeError =>
          0 < ci_tubeDiameter i /\ dewPoint + 0.4 <= ci_ambientTemp i /\
          In (ci_material i) ObjectPrototypeNames
      | InvalidEmissivity | InvalidCoefficient => False
      end
  | Calculated r =>
      0 < ci_relativeHumidity i <= 100 /\ 0 < ci_h i /\
      0 < ci_tubeDiameter i /\
      dewpointTemperature r = dewPoint /\
      dewPoint + 0.4 <= ci_ambientTemp i /\
      ~ In (ci_material i) ObjectPrototypeNames /\
      0.1 <= minimumThickness r <= 100
  end.

(** The default inputs of the calculator in saturated air. *)
Definition saturatedInputs : CondensationInputs :=
  {| ci_ambientTemp := 25;
     ci_mediumTemp := -5;
     ci_tubeDiameter := 25;
     ci_material := "ROKAFLEX ST";
     ci_h := 9;
     ci_relativeHumidity := 100 |}.

(** [{...args, emissivity}] *)
Definition withEmissivity (args : ComputeHArgs) (eps : R) : ComputeHArgs :=
  {| ambientTemp := ambientTemp args;
     mediumTemp := mediumTemp args;
     tubeDiameter := tubeDiameter args;
     orientation := orientation args;
     emissivity := eps;
     arg_calculationType := arg_calculationType args;
     insulationThickness := insulationThickness args;
     arg_windSpeed := arg_windSpeed args;
     useSimplifiedFormula := useSimplifiedFormula args;
     arg_applySafetyFactor := arg_applySafetyFactor args;
     useAdvancedAlgorithm := useAdvancedAlgorithm args;
     useAdvancedSheetsAlgorithm := useAdvancedSheetsAlgorithm args;
     useKFlexAlgorithm := useKFlexAlgorithm args;
     forCondensation := forCondensation args |}.

(** The flags of [computeH] select none of the named estimators: the
    coefficient is computed from the Nusselt number. *)
Definition nusseltModeSelected (args : ComputeHArgs) : Prop :=
  withDefault false (useKFlexAlgorithm args) = false /\
  withDefault false (useAdvancedSheetsAlgorithm args) = false /\
  withDefault false (useAdvancedAlgorithm args) = false /\
  withDefault true (useSimplifiedFormula args) = false.

(** A call of [computeH] in that mode. *)
Definition nusseltCall : ComputeHArgs :=
  {| ambientTemp := 20;
     mediumTemp := 60;
     tubeDiameter := 25;
     orientation := horizontal;
     emissivity := 0.93;
     arg_calculationType := None;
     insulationThickness := Some 9;
     arg_windSpeed := None;
     useSimplifiedFormula := Some false;
     arg_applySafetyFactor := None;
     useAdvancedAlgorithm := None;
     useAdvancedSheetsAlgorithm := None;
     useKFlexAlgorithm := None;
     forCondensation := None |}.

(** Inputs on which [calculateHeatLoss] passes its validation. *)
Definition heatLossValidated (i : HeatLossInputs) : Prop :=
  0 < hl_insulationThickness i /\ 0 < hl_pipeLength i /\ 0 < hl_h i.

(** Inputs of [calculateHeatLoss] with physical values: a tube of at
    most a metre, an emissivity in [0, 1], temperatures not below
    absolute zero and different from each other, a material name that
    is not inherited. *)
Definition heatLossPhysical (i : HeatLossInputs) : Prop :=
  heatLossValidated i /\
  0 < hl_tubeDiameter i <= 1000 /\
  0 <= hl_emissivity i <= 1 /\
  -273.15 <= hl_ambientTemp i /\ -273.15 <= hl_mediumTemp i /\
  hl_mediumTemp i <> hl_ambientTemp i /\
  ~ In (hl_material i) ObjectPrototypeNames.

(** The default inputs of the heat-loss calculator: tube of 25 mm with
    9 mm of insulation, medium of -5 degrees in air of 25 degrees. *)
Definition defaultHeatLossInputs : HeatLossInputs :=
  {| hl_ambientTemp := 25;
     hl_mediumTemp := -5;
     hl_tubeDiameter := 25;
     hl_material := "ROKAFLEX ST";
     hl_h := 9;
     hl_orientation := horizontal;
     hl_emissivity := 0.93;
     hl_insulationThickness := 9;
     hl_pipeWallThickness := Some 0;
     hl_pipeLength := 1;
     hl_costPerKWh := 0.5 |}.

(** [{...i, emissivity, material}] *)
Definition withSurface (i : HeatLossInputs) (eps : R) (material : string)
  : HeatLossInputs :=
  {| hl_ambientTemp := hl_ambientTemp i;
     hl_mediumTemp := hl_mediumTemp i;
     hl_tubeDiameter := hl_tubeDiameter i;
     hl_material := material;
     hl_h := hl_h i;
     hl_orientation := hl_orientation i;
     hl_emissivity := eps;
     hl_insulationThickness := hl_insulationThickness i;
     hl_pipeWallThickness := hl_pipeWallThickness i;
     hl_pipeLength := hl_pipeLength i;
     hl_costPerKWh := hl_costPerKWh i |}.

(** ** The condensation mode of the K-FLEX estimator in the words of
       its claim *)

(** The temperature difference and the orientation the estimator works
    with, the diameter correction of the condensation mode (exponent
    0.15, absent without a known geometry), and the coefficient the
    estimator returns when [coeff] is its convection base coefficient. *)
Definition kflex_dT (p : KFlexHParams) : R :=
  Rmax (Rabs (kf_T_medium p - kf_T_amb p)) 1.

Definition kflex_orientation (p : KFlexHParams) : Orientation :=
  withDefault horizontal (kf_orientation p).

Definition kflex_condensation_correction (p : KFlexHParams) : R :=
  match knownGeometry (kf_tubeDiameter p) (kf_insulationThickness p) with
  | Some (d, t) => Rpower (0.043 / ((d + 2 * t) / 1000)) 0.15
  | None => 1
  end.

Definition kflex_condensation_h (p : KFlexHParams) (coeff : R) : R :=
  Spec.roundTo3
    (coeff * Rpower (kflex_dT p) (Spec.adv_p (kflex_orientation p))
     * kflex_condensation_correction p
     + Spec.rad_linear (kf_epsilon p)
         (Spec.kelvin ((kf_T_amb p + kf_T_medium p) / 2))).

(** The clamped coefficient: the linear recalibration, not below the
    floor. *)
Definition kflex_clamped_coeff (p : KFlexHParams) : R :=
  Rmax (Spec.kflex_linear (kflex_orientation p) (kflex_dT p))
       (Spec.kflex_floor (kflex_orientation p)).

(** A call of the estimator in its condensation mode, for a medium of
    -40 degrees in air of 25 degrees. *)
Definition coldKFlexCall : KFlexHParams :=
  {| kf_T_amb := 25;
     kf_T_medium := -40;
     kf_epsilon := 0.93;
     kf_orientation := Some horizontal;
     kf_tubeDiameter := Some 25;
     kf_insulationThickness := Some 9;
     kf_forCondensation := Some true |}.

(** * Properties *)

(** ** Facts about the numeric primitives *)

Module JSFacts.

Lemma ltb_true x y : ltb x y = true <-> x < y.
Proof. unfold ltb; destruct (Rlt_dec x y); split; intros; easy. Qed.

Lemma ltb_false x y : ltb x y = false <-> y <= x.
Proof. unfold ltb; destruct (Rlt_dec x y); split; intros; try easy; lra. Qed.

Lemma leb_true x y : leb x y = true <-> x <= y.
Proof. unfold leb; destruct (Rle_dec x y); split; intros; easy. Qed.

Lemma leb_false x y : leb x y = false <-> y < x.
Proof. unfold leb; destruct (Rle_dec x y); split; intros; try easy; lra. Qed.

Lemma gtb_true x y : gtb x y = true <-> y < x.
Proof. apply ltb_true. Qed.

Lemma gtb_false x y : gtb x y = false <-> x <= y.
Proof. apply ltb_false. Qed.

Lemma geb_true x y : geb x y = true <-> y <= x.
Proof. apply leb_true. Qed.

Lemma geb_false x y : geb x y = false <-> x < y.
Proof. apply leb_false. Qed.

Lemma eqb_true x y : eqb x y = true <-> x = y.
Proof. unfold eqb; destruct (Req_dec_T x y); split; intros; easy. Qed.

Lemma eqb_false x y : eqb x y = false <-> x <> y.
Proof. unfold eqb; destruct (Req_dec_T x y); split; intros; easy. Qed.

Lemma Math_pow_pos x y : 0 < x -> Math_pow x y = Rpower x y.
Proof. intros Hx; unfold Math_pow; destruct (Rlt_dec 0 x); easy. Qed.

Lemma Math_pow_one y : Math_pow 1 y = 1.
Proof.
  rewrite Math_pow_pos by lra.
  unfold Rpower. rewrite ln_1, Rmult_0_r. apply exp_0.
Qed.

Lemma Math_max_floor_pos x : 0 < Math_max x 1.
Proof. unfold Math_max. pose proof (Rmax_r x 1). lra. Qed.

Lemma round3_eq x : round3 x = Spec.roundTo3 x.
Proof.
  unfold round3, Spec.roundTo3, Math_round.
  replace (x * 1000 + / 2) with (x * 1000 + 1 / 2) by lra. reflexivity.
Qed.

Lemma ceil3_eq x : ceil3 x = Spec.ceilTo3 x.
Proof. reflexivity. Qed.

End JSFacts.
Import JSFacts.

(** Decide the comparisons between numerals that occur in a goal. *)
Ltac decide_cmp :=
  repeat match goal with
  | |- context [ltb ?a ?b] =>
      first [ rewrite (proj2 (ltb_true a b)) by lra
            | rewrite (proj2 (ltb_false a b)) by lra ]
  | |- context [leb ?a ?b] =>
      first [ rewrite (proj2 (leb_true a b)) by lra
            | rewrite (proj2 (leb_false a b)) by lra ]
  | |- context [gtb ?a ?b] =>
      first [ rewrite (proj2 (gtb_true a b)) by lra
            | rewrite (proj2 (gtb_false a b)) by lra ]
  | |- context [geb ?a ?b] =>
      first [ rewrite (proj2 (geb_true a b)) by lra
            | rewrite (proj2 (geb_false a b)) by lra ]
  | |- context [eqb ?a ?b] =>
      first [ rewrite (proj2 (eqb_true a b)) by lra
            | rewrite (proj2 (eqb_false a b)) by lra ]
  end.

(** ** The emissivity guard *)

Lemma emissivity_guard_rejects eps :
  eps < 0 \/ 1 < eps -> ltb eps 0 || gtb eps 1 = true.
Proof.
  intros [H | H].
  - rewrite (proj2 (ltb_true eps 0)) by lra. reflexivity.
  - rewrite (proj2 (gtb_true eps 1)) by lra. apply orb_true_r.
Qed.

Lemma emissivity_guard_accepts eps :
  0 <= eps <= 1 -> ltb eps 0 || gtb eps 1 = false.
Proof.
  intros H.
  rewrite (proj2 (ltb_false eps 0)), (proj2 (gtb_false eps 1)) by lra.
  reflexivity.
Qed.

(** C5. In every h-estimator mode (Standard, KFlexCalibrated,
    AdvancedPipe, AdvancedSheet) an emissivity outside [0, 1] makes the
    estimator throw InvalidEmissivity, whatever the temperatures and the
    other parameters are: the guard is the first statement of each
    estimator, no coefficient is returned.  The same holds through
    [computeH] whenever its flags select one of the four modes. *)
Theorem invalid_emissivity_rejected (eps : R) (Heps : eps < 0 \/ 1 < eps) :
  (forall p, epsilon p = eps ->
             calculateHCoefficient p = Throw InvalidEmissivity) /\
  (forall p, kf_epsilon p = eps ->
             calculateKFlexH p = Throw InvalidEmissivity) /\
  (forall p, adv_epsilon p = eps ->
             calculateAdvancedH p = Throw InvalidEmissivity) /\
  (forall p, adv_epsilon p = eps ->
             calculateAdvancedH_Sheets p = Throw InvalidEmissivity) /\
  (forall args, emissivity args = eps -> namedModeSelected args ->
                computeH args = Throw InvalidEmissivity).
Proof.
  pose proof (emissivity_guard_rejects eps Heps) as G.
  assert (HC : forall p, epsilon p = eps ->
                         calculateHCoefficient p = Throw InvalidEmissivity).
  { intros p <-. unfold calculateHCoefficient. rewrite G. reflexivity. }
  assert (HK : forall p, kf_epsilon p = eps ->
                         calculateKFlexH p = Throw InvalidEmissivity).
  { intros p <-. unfold calculateKFlexH. rewrite G. reflexivity. }
  assert (HA : forall p, adv_epsilon p = eps ->
                         calculateAdvancedH p = Throw InvalidEmissivity).
  { intros p <-. unfold calculateAdvancedH. rewrite G. reflexivity. }
  assert (HS : forall p, adv_epsilon p = eps ->
                         calculateAdvancedH_Sheets p = Throw InvalidEmissivity).
  { intros p <-. unfold calculateAdvancedH_Sheets. rewrite G. reflexivity. }
  repeat split; trivial.
  intros args Hargs Hmode. unfold computeH.
  destruct (withDefault false (useKFlexAlgorithm args)) eqn:EK.
  { apply HK. exact Hargs. }
  destruct (withDefault false (useAdvancedSheetsAlgorithm args)) eqn:ES.
  { apply HS. exact Hargs. }
  destruct (withDefault false (useAdvancedAlgorithm args)) eqn:EA.
  { apply HA. exact Hargs. }
  destruct Hmode as [H | [H | [H | H]]]; try congruence.
  rewrite H. apply HC. exact Hargs.
Qed.

(** Scenario C: emissivity -0.1 in each mode. *)
Lemma invalid_emissivity_rejected_witness :
  (-0.1 < 0 \/ 1 < -0.1) /\
  calculateHCoefficient
    (mkHCoefficientParams 20 20 (-0.1) None None None None None)
  = Throw InvalidEmissivity /\
  calculateKFlexH (mkKFlexHParams 25 (-5) (-0.1) None None None (Some true))
  = Throw InvalidEmissivity.
Proof.
  assert (H : -0.1 < 0 \/ 1 < -0.1) by (left; lra).
  split; [exact H|].
  split.
  - apply (proj1 (invalid_emissivity_rejected (-0.1) H)). reflexivity.
  - apply (proj1 (proj2 (invalid_emissivity_rejected (-0.1) H))). reflexivity.
Defined.

(** ** Standard mode *)

Lemma standard_dT_source (p : HCoefficientParams) :
  match T_medium p with
  | Some Tm => Math_max (Math_abs (Tm - T_amb p)) 1
  | None => Math_max (Math_abs (T_sup p - T_amb p)) 1
  end = Spec.dT p.
Proof. unfold Spec.dT, Spec.dT_eff. destruct (T_medium p); reflexivity. Qed.

Lemma standard_dT_ge_1 (p : HCoefficientParams) : 1 <= Spec.dT p.
Proof. unfold Spec.dT. apply Rmax_r. Qed.

Lemma standard_safety_source (p : HCoefficientParams) :
  (if withDefault true (applySafetyFactor p) then 0.75 else 1.0)
  = Spec.safety p.
Proof.
  unfold Spec.safety. destruct (applySafetyFactor p) as [[|]|]; simpl; lra.
Qed.

Lemma calculateHCoefficient_valid (p : HCoefficientParams) :
  0 <= epsilon p <= 1 ->
  calculateHCoefficient p = Ok (Spec.standard_h p).
Proof.
  intros Heps. unfold calculateHCoefficient, throwIf.
  rewrite (emissivity_guard_accepts _ Heps).
  rewrite standard_dT_source, standard_safety_source.
  rewrite Math_pow_pos by (pose proof (standard_dT_ge_1 p); lra).
  fold (round3 ((Math_max (1.32 * Rpower (Spec.dT p) 0.33) (1 / 0.13)
                 + Math_min
                     (if ltb (Math_abs (T_sup p + 273.15 - (T_amb p + 273.15)))
                             0.01
                      then 4 * epsilon p * sigma
                           * Math_pow_int
                               ((T_sup p + 273.15 + (T_amb p + 273.15)) / 2) 3
                      else epsilon p * sigma
                           * (Math_pow_int (T_sup p + 273.15) 4
                              - Math_pow_int (T_amb p + 273.15) 4)
                           / (T_sup p + 273.15 - (T_amb p + 273.15))) 6.5)
                * Spec.safety p)).
  rewrite round3_eq. unfold Spec.standard_h. do 3 f_equal.
  unfold Spec.alpha_rad, Spec.alpha_rad_uncapped, Spec.kelvin,
    Spec.rad_linear, Spec.rad_exact, Math_min, Math_abs, Math_pow_int, ltb.
  destruct (Rlt_dec (Rabs (T_sup p + 273.15 - (T_amb p + 273.15))) 0.01);
    reflexivity.
Qed.

Lemma standard_zero_dT (p : HCoefficientParams) :
  T_sup p = T_amb p -> Spec.dT_eff p = 0 ->
  Spec.alpha_conv p = Spec.conv_floor /\
  Spec.alpha_rad p
  = Rmin (Spec.rad_linear (epsilon p) (Spec.kelvin (T_amb p))) 6.5.
Proof.
  intros Hsup Heff. split.
  - unfold Spec.alpha_conv, Spec.dT. rewrite Heff, Rabs_R0.
    rewrite (Rmax_right 0 1) by lra.
    unfold Rpower. rewrite ln_1, Rmult_0_r, exp_0.
    unfold Spec.conv_floor. apply Rmax_right. lra.
  - unfold Spec.alpha_rad, Spec.alpha_rad_uncapped. rewrite Hsup.
    destruct (Rlt_dec _ 0.01) as [_ | Hn].
    + do 2 f_equal. lra.
    + exfalso. apply Hn.
      replace (Spec.kelvin (T_amb p) - Spec.kelvin (T_amb p)) with 0 by lra.
      rewrite Rabs_R0. lra.
Qed.

(** C1. For every input with emissivity in [0, 1], the Standard
    estimator returns the rounding to three decimals of
    [(alpha_conv + alpha_rad) * s], where
    [alpha_conv = max (1.32 * dT^0.33) (1/0.13)] (the floor the
    specification prints as 7.6923), [dT = max |dT_eff| 1] with [dT_eff]
    taken from the medium temperature when one is supplied and from the
    surface temperature otherwise, [alpha_rad] the exact
    Stefan-Boltzmann difference form in Kelvin, replaced by the
    linearized form when the two temperatures differ by less than
    0.01 K, and capped at 6.5, and [s] is 0.75 unless the safety factor
    is switched off.  With [T_sup = T_amb] and no other temperature
    difference no division takes place: convection is the floor value
    reached at [dT = 1], radiation is the linearized form. *)
Theorem standard_h_formula (p : HCoefficientParams)
    (Heps : 0 <= epsilon p <= 1) :
  calculateHCoefficient p = Ok (Spec.standard_h p) /\
  (T_sup p = T_amb p -> Spec.dT_eff p = 0 ->
   Spec.dT p = 1 /\
   calculateHCoefficient p
   = Ok (Spec.roundTo3
           ((Spec.conv_floor
             + Rmin (Spec.rad_linear (epsilon p) (Spec.kelvin (T_amb p))) 6.5)
            * Spec.safety p))).
Proof.
  split; [apply calculateHCoefficient_valid; exact Heps|].
  intros Hsup Heff. split.
  - unfold Spec.dT. rewrite Heff, Rabs_R0. apply Rmax_right. lra.
  - rewrite (calculateHCoefficient_valid p Heps). unfold Spec.standard_h.
    destruct (standard_zero_dT p Hsup Heff) as [-> ->]. reflexivity.
Qed.

(** Scenario B: surface and ambient both at 20 degrees, emissivity 0.93. *)
Lemma standard_h_formula_witness :
  0 <= 0.93 <= 1 /\
  calculateHCoefficient
    (mkHCoefficientParams 20 20 0.93 None None None None None)
  = Ok (Spec.roundTo3
          ((Spec.conv_floor + Rmin (Spec.rad_linear 0.93 (Spec.kelvin 20)) 6.5)
           * 0.75)).
Proof.
  assert (Heps : 0 <= 0.93 <= 1) by lra.
  split; [exact Heps|].
  destruct (standard_h_formula
              (mkHCoefficientParams 20 20 0.93 None None None None None) Heps)
    as [_ H].
  destruct (H eq_refl) as [_ H'].
  - unfold Spec.dT_eff. simpl. lra.
  - exact H'.
Defined.

(** The floor 1/0.13 is the number the sources and the specification
    print as 7.6923. *)
Lemma conv_floor_print : 7.6923 < Spec.conv_floor < 7.6924.
Proof. unfold Spec.conv_floor. lra. Qed.

(** ** AdvancedPipe mode *)

Lemma knownGeometry_valid (d t : R) :
  0 < d -> 0 <= t -> knownGeometry (Some d) (Some t) = Some (d, t).
Proof.
  intros Hd Ht. unfold knownGeometry.
  rewrite (proj2 (gtb_true d 0)), (proj2 (geb_true t 0)) by lra.
  reflexivity.
Qed.

Lemma diameter_ratio_pos (d t : R) :
  0 < d -> 0 <= t -> 0 < Spec.D_ref d / Spec.D_outer d t.
Proof.
  intros Hd Ht. unfold Spec.D_ref, Spec.D_outer.
  apply Rdiv_lt_0_compat; lra.
Qed.

(** C7. For every valid input of the AdvancedPipe estimator with known
    geometry (emissivity in [0, 1], positive pipe diameter, non-negative
    insulation thickness), the convection term is the base term
    [C * dT^p] of the orientation (1.646 and 0.33 horizontal, 1.8 and
    0.25 vertical) times the diameter correction
    [(D_ref / D_outer)^0.474] with [D_ref = 0.000955 * D_pipe + 0.0244],
    rounded up to the next 0.001; radiation is [4 eps sigma T^3] at the
    mean temperature plus 0.75 K, in Kelvin; the result is the rounding
    of the plain sum of the two, with no cap on radiation and no safety
    factor. *)
Theorem advanced_pipe_formula (p : AdvancedHParams) (d t : R)
    (Heps : 0 <= adv_epsilon p <= 1)
    (Hd : adv_tubeDiameter p = Some d)
    (Ht : adv_insulationThickness p = Some t)
    (Hdpos : 0 < d) (Htpos : 0 <= t) :
  calculateAdvancedH p
  = Ok (Spec.advanced_pipe_h (withDefault horizontal (adv_orientation p))
          (adv_epsilon p) (adv_T_amb p) (adv_T_medium p) d t).
Proof.
  unfold Spec.advanced_pipe_h, calculateAdvancedH, throwIf.
  rewrite (emissivity_guard_accepts _ Heps), Hd, Ht.
  rewrite (knownGeometry_valid d t Hdpos Htpos).
  set (o := withDefault horizontal (adv_orientation p)).
  assert (Hbase :
    (let '(baseCoeff, power) :=
       if Orientation_eqb o horizontal then (1.646, 0.33) else (1.8, 0.25) in
     baseCoeff
     * Math_pow (Math_max (Math_abs (adv_T_medium p - adv_T_amb p)) 1) power)
    = Spec.adv_C o
      * Rpower (Spec.adv_dT (adv_T_amb p) (adv_T_medium p)) (Spec.adv_p o)).
  { unfold Spec.adv_dT.
    destruct o; simpl; rewrite Math_pow_pos by apply Math_max_floor_pos;
      reflexivity. }
  destruct (if Orientation_eqb o horizontal then (1.646, 0.33) else (1.8, 0.25))
    as [baseCoeff power].
  rewrite Hbase.
  rewrite Math_pow_pos by (apply (diameter_ratio_pos d t); assumption).
  fold (Spec.D_ref d). fold (Spec.D_outer d t).
  match goal with
  | |- Ok (Math_round (?h * 1000) / 1000) = _ => fold (round3 h)
  end.
  match goal with
  | |- context [Math_ceil (?c * 1000) / 1000] => fold (ceil3 c)
  end.
  rewrite round3_eq, ceil3_eq. reflexivity.
Qed.

Lemma advanced_pipe_formula_witness :
  0 <= 0.93 <= 1 /\ 0 < 25 /\ 0 <= 9 /\
  calculateAdvancedH
    (mkAdvancedHParams 25 (-5) 0.93 (Some horizontal) (Some 25) (Some 9))
  = Ok (Spec.advanced_pipe_h horizontal 0.93 25 (-5) 25 9).
Proof.
  assert (Heps : 0 <= 0.93 <= 1) by lra.
  assert (Hd : 0 < 25) by lra.
  assert (Ht : 0 <= 9) by lra.
  repeat split; try lra.
  exact (advanced_pipe_formula
           (mkAdvancedHParams 25 (-5) 0.93 (Some horizontal) (Some 25) (Some 9))
           25 9 Heps eq_refl eq_refl Hd Ht).
Defined.

(** ** K-FLEX mode *)

(** The convection base coefficient of the condensation mode is
    clamped from below: it is at least 1.44 for a horizontal and 1.58
    for a vertical pipe; it is the linear recalibration as long as that
    stays above the floor, and the floor from there on. *)
Lemma kflexBaseCoeff_clamped (o : Orientation) (deltaT : R) :
  kflexBaseCoeff true o deltaT
  = Rmax (Spec.kflex_linear o deltaT) (Spec.kflex_floor o) /\
  Spec.kflex_floor o <= kflexBaseCoeff true o deltaT /\
  (Spec.kflex_floor o <= Spec.kflex_linear o deltaT ->
   kflexBaseCoeff true o deltaT = Spec.kflex_linear o deltaT) /\
  (Spec.kflex_linear o deltaT <= Spec.kflex_floor o ->
   kflexBaseCoeff true o deltaT = Spec.kflex_floor o).
Proof.
  unfold kflexBaseCoeff, Math_max.
  destruct o; simpl; repeat split; intros;
    try (apply Rmax_r); try (apply Rmax_left; lra);
    try (apply Rmax_right; lra).
Qed.

Lemma knownGeometry_inv (tubeDiameter insulationThickness : option R)
    (d t : R) :
  knownGeometry tubeDiameter insulationThickness = Some (d, t) ->
  tubeDiameter = Some d /\ insulationThickness = Some t /\ 0 < d /\ 0 <= t.
Proof.
  unfold knownGeometry.
  destruct tubeDiameter as [d'|]; [|discriminate].
  destruct insulationThickness as [t'|]; [|discriminate].
  destruct (gtb d' 0) eqn:Ed; [|discriminate].
  destruct (geb t' 0) eqn:Et; [|discriminate].
  cbn [andb]. intros [= <- <-].
  apply gtb_true in Ed. apply geb_true in Et. repeat split; assumption.
Qed.

(** C10. In its condensation mode the K-FLEX estimator itself works
    with the clamped coefficient: for every valid emissivity and every
    temperatures, orientation and geometry, [calculateKFlexH] returns
    the rounding of [coeff * dT^p * correction + radiation] where
    [coeff] is the larger of the linear recalibration
    [1.646 - 0.0057 (dT - 30)] (vertical: [1.8 - 0.0063 (dT - 30)]) and
    the floor 1.44 (vertical: 1.58).  So the coefficient never falls
    below the floor, for every temperature difference, however large:
    the estimator computes with the linear recalibration as long as
    that stays above the floor and with the floor from there on, and
    the value it returns is never below the one computed with the
    floor. *)
Theorem kflex_condensation_coeff_floor (p : KFlexHParams)
    (Heps : 0 <= kf_epsilon p <= 1)
    (Hmode : kf_forCondensation p = Some true) :
  calculateKFlexH p = Ok (kflex_condensation_h p (kflex_clamped_coeff p)) /\
  Spec.kflex_floor (kflex_orientation p) <= kflex_clamped_coeff p /\
  (Spec.kflex_floor (kflex_orientation p)
   <= Spec.kflex_linear (kflex_orientation p) (kflex_dT p) ->
   calculateKFlexH p
   = Ok (kflex_condensation_h p
           (Spec.kflex_linear (kflex_orientation p) (kflex_dT p)))) /\
  (Spec.kflex_linear (kflex_orientation p) (kflex_dT p)
   <= Spec.kflex_floor (kflex_orientation p) ->
   calculateKFlexH p
   = Ok (kflex_condensation_h p (Spec.kflex_floor (kflex_orientation p)))) /\
  kflex_condensation_h p (Spec.kflex_floor (kflex_orientation p))
  <= kflex_condensation_h p (kflex_clamped_coeff p).
Proof.
  set (o := kflex_orientation p). set (deltaT := kflex_dT p).
  destruct (kflexBaseCoeff_clamped o deltaT) as (Hc & Hfloor & Hlin & Hflo).
  assert (Hcall : calculateKFlexH p
                  = Ok (kflex_condensation_h p (kflex_clamped_coeff p))).
  { unfold calculateKFlexH, throwIf.
    rewrite (emissivity_guard_accepts _ Heps), Hmode.
    cbn [withDefault]. cbv zeta. fold (kflex_orientation p). fold o.
    unfold Math_max, Math_abs. fold (kflex_dT p). fold deltaT.
    rewrite Hc.
    assert (HdT : 0 < deltaT).
    { unfold deltaT, kflex_dT.
      pose proof (Rmax_r (Rabs (kf_T_medium p - kf_T_amb p)) 1). lra. }
    rewrite (Math_pow_pos deltaT) by exact HdT.
    replace (if Orientation_eqb o horizontal then 0.33 else 0.25)
      with (Spec.adv_p o) by (destruct o; reflexivity).
    unfold kflex_condensation_h, kflex_clamped_coeff,
      kflex_condensation_correction.
    rewrite <- round3_eq. unfold round3. fold o. fold deltaT.
    destruct (knownGeometry (kf_tubeDiameter p) (kf_insulationThickness p))
      as [[d t]|] eqn:Egeo.
    - apply knownGeometry_inv in Egeo as (_ & _ & Hd & Ht).
      rewrite Math_pow_pos by (apply Rdiv_lt_0_compat; lra).
      reflexivity.
    - do 4 f_equal. unfold Spec.rad_linear, Spec.kelvin, Math_pow_int.
      ring. }
  split; [exact Hcall|].
  split; [unfold kflex_clamped_coeff; apply Rmax_r|].
  split; [|split].
  - intros H. rewrite Hcall. unfold kflex_clamped_coeff.
    rewrite Rmax_left by exact H. reflexivity.
  - intros H. rewrite Hcall. unfold kflex_clamped_coeff.
    rewrite Rmax_right by exact H. reflexivity.
  - assert (Hpow : 0 <= Rpower deltaT (Spec.adv_p o)
                        * kflex_condensation_correction p).
    { apply Rmult_le_pos; [left; apply exp_pos|].
      unfold kflex_condensation_correction.
      destruct (knownGeometry _ _) as [[d t]|]; [left; apply exp_pos | lra]. }
    assert (Hle : Spec.kflex_floor o * Rpower deltaT (Spec.adv_p o)
                  * kflex_condensation_correction p
                  <= kflex_clamped_coeff p * Rpower deltaT (Spec.adv_p o)
                     * kflex_condensation_correction p).
    { rewrite !Rmult_assoc. apply Rmult_le_compat_r; [exact Hpow|].
      unfold kflex_clamped_coeff. apply Rmax_r. }
    unfold kflex_condensation_h, Spec.roundTo3. fold o. fold deltaT.
    apply Rmult_le_compat_r; [lra|].
    apply IZR_le. apply Zfloor_le. lra.
Qed.

Lemma kflex_condensation_coeff_floor_witness :
  calculateKFlexH coldKFlexCall
  = Ok (kflex_condensation_h coldKFlexCall
          (kflex_clamped_coeff coldKFlexCall)) /\
  Spec.kflex_floor (kflex_orientation coldKFlexCall)
  <= kflex_clamped_coeff coldKFlexCall /\
  (Spec.kflex_floor (kflex_orientation coldKFlexCall)
   <= Spec.kflex_linear (kflex_orientation coldKFlexCall)
        (kflex_dT coldKFlexCall) ->
   calculateKFlexH coldKFlexCall
   = Ok (kflex_condensation_h coldKFlexCall
           (Spec.kflex_linear (kflex_orientation coldKFlexCall)
              (kflex_dT coldKFlexCall)))) /\
  (Spec.kflex_linear (kflex_orientation coldKFlexCall)
     (kflex_dT coldKFlexCall)
   <= Spec.kflex_floor (kflex_orientation coldKFlexCall) ->
   calculateKFlexH coldKFlexCall
   = Ok (kflex_condensation_h coldKFlexCall
           (Spec.kflex_floor (kflex_orientation coldKFlexCall)))) /\
  kflex_condensation_h coldKFlexCall
    (Spec.kflex_floor (kflex_orientation coldKFlexCall))
  <= kflex_condensation_h coldKFlexCall (kflex_clamped_coeff coldKFlexCall).
Proof.
  apply (kflex_condensation_coeff_floor coldKFlexCall).
  - cbn. lra.
  - reflexivity.
Defined.

(** The coefficient is the one [calculateKFlexH] multiplies the power of
    the temperature difference with. *)
Lemma calculateKFlexH_uses_baseCoeff (p : KFlexHParams) :
  0 <= kf_epsilon p <= 1 ->
  kf_tubeDiameter p = None ->
  let o := withDefault horizontal (kf_orientation p) in
  let deltaT := Rmax (Rabs (kf_T_medium p - kf_T_amb p)) 1 in
  calculateKFlexH p
  = Ok (round3
          (kflexBaseCoeff (withDefault false (kf_forCondensation p)) o deltaT
           * Rpower deltaT (Spec.adv_p o)
           + Spec.rad_linear (kf_epsilon p)
               (Spec.kelvin ((kf_T_amb p + kf_T_medium p) / 2)))).
Proof.
  intros Heps Hd o deltaT. unfold calculateKFlexH, throwIf.
  rewrite (emissivity_guard_accepts _ Heps), Hd. simpl.
  fold o. rewrite Math_pow_pos by apply Math_max_floor_pos.
  unfold round3. do 4 f_equal.
  destruct o; reflexivity.
Qed.

(** ** Sorting *)

Section SortFacts.
Context {A : Type} (le : A -> A -> bool).
Hypothesis le_total : forall x y, le x y = true \/ le y x = true.

Lemma insertAsc_perm (x : A) (l : list A) :
  Permutation (x :: l) (insertAsc le x l).
Proof.
  induction l as [|y l IH]; simpl; [reflexivity|].
  destruct (le x y); [reflexivity|].
  rewrite perm_swap. apply perm_skip. exact IH.
Qed.

Lemma sortAsc_perm (l : list A) : Permutation l (sortAsc le l).
Proof.
  induction l as [|x l IH]; simpl; [reflexivity|].
  rewrite <- insertAsc_perm. apply perm_skip. exact IH.
Qed.

Lemma insertAsc_sorted (x : A) (l : list A) :
  Sorted (fun a b => le a b = true) l ->
  Sorted (fun a b => le a b = true) (insertAsc le x l).
Proof.
  induction 1 as [|y l Hs IH Hhd]; simpl; [repeat constructor|].
  destruct (le x y) eqn:E.
  - repeat constructor; assumption.
  - constructor; [exact IH|].
    destruct (le_total x y) as [H | H]; [congruence|].
    destruct Hhd as [|z l' Hyz]; simpl.
    + repeat constructor. exact H.
    + destruct (le x z); constructor; assumption.
Qed.

Lemma sortAsc_sorted (l : list A) :
  Sorted (fun a b => le a b = true) (sortAsc le l).
Proof.
  induction l as [|x l IH]; simpl; [constructor|].
  apply insertAsc_sorted. exact IH.
Qed.
End SortFacts.

Lemma leb_total (x y : R) : leb x y = true \/ leb y x = true.
Proof.
  destruct (Rle_dec x y) as [H | H].
  - left. apply leb_true. exact H.
  - right. apply leb_true. lra.
Qed.

(** The temperatures [interpolateLambda] loops over are the keys of the
    table, in ascending order, whatever the order of the table. *)
Lemma interpolation_temps_sorted (lambdaData : list (R * R)) :
  Sorted Rle (sortAsc leb (ObjectKeys lambdaData)) /\
  Permutation (ObjectKeys lambdaData) (sortAsc leb (ObjectKeys lambdaData)).
Proof.
  split; [|apply sortAsc_perm].
  pose proof (sortAsc_sorted leb leb_total (ObjectKeys lambdaData)) as H.
  induction H as [|x l Hs IH Hhd]; constructor; [exact IH|].
  destruct Hhd; constructor. apply leb_true. assumption.
Qed.

(** ** Material interpolation *)

Lemma readProperty_MATERIALS (material : string) :
  readProperty MATERIALS material
  = if String.eqb "ROKAFLEX ST" material then OwnValue ROKAFLEX_ST
    else if existsb (String.eqb material) ObjectPrototypeNames
         then InheritedValue
         else Undefined.
Proof.
  unfold readProperty, MATERIALS. cbn [find fst snd].
  destruct (String.eqb "ROKAFLEX ST" material); reflexivity.
Qed.

Lemma inherited_name_iff (material : string) :
  existsb (String.eqb material) ObjectPrototypeNames = true
  <-> In material ObjectPrototypeNames.
Proof.
  rewrite existsb_exists. split.
  - intros (x & Hin & Heq). apply String.eqb_eq in Heq. subst x. exact Hin.
  - intros Hin. exists material. split; [exact Hin | apply String.eqb_refl].
Qed.

Lemma rokaflex_temps :
  sortAsc leb (ObjectKeys (lambda ROKAFLEX_ST)) = rokaflexTemps.
Proof.
  cbn [ROKAFLEX_ST lambda ObjectKeys map fst sortAsc fold_right insertAsc].
  repeat (decide_cmp; cbn [insertAsc]). reflexivity.
Qed.

Lemma rokaflex_breakpoints :
  Spec.breakpoints ROKAFLEX_ST
  = [(-20, 0.032); (0, 0.034); (20, 0.036); (40, 0.038); (60, 0.040)].
Proof.
  unfold Spec.breakpoints.
  cbn [ROKAFLEX_ST lambda sortAsc fold_right insertAsc fst].
  repeat (decide_cmp; cbn [insertAsc fst]). reflexivity.
Qed.

Lemma rokaflex_getLambda :
  getLambda (lambda ROKAFLEX_ST) (-20) = 0.032 /\
  getLambda (lambda ROKAFLEX_ST) 0 = 0.034 /\
  getLambda (lambda ROKAFLEX_ST) 20 = 0.036 /\
  getLambda (lambda ROKAFLEX_ST) 40 = 0.038 /\
  getLambda (lambda ROKAFLEX_ST) 60 = 0.040.
Proof.
  unfold getLambda. cbn [ROKAFLEX_ST lambda find fst].
  repeat split; repeat (decide_cmp; cbn [find fst snd]); reflexivity.
Qed.

Lemma interpolateLambda_rokaflex_ok (temp : R) :
  interpolateLambda temp "ROKAFLEX ST"
  = Ok (interpolateLoop (lambda ROKAFLEX_ST) temp rokaflexTemps).
Proof.
  unfold interpolateLambda, interpolateLambdaIn.
  rewrite readProperty_MATERIALS. cbn [String.eqb Ascii.eqb Bool.eqb andb].
  rewrite rokaflex_temps. reflexivity.
Qed.

(** The value of the interpolation loop on the catalog material, bracket
    by bracket. *)
Lemma interpolateLoop_rokaflex (temp : R) :
  let r := interpolateLoop (lambda ROKAFLEX_ST) temp rokaflexTemps in
  (temp < -20 /\ r = 0.036) \/
  (-20 <= temp <= 0 /\ r = Spec.lerp (-20, 0.032) (0, 0.034) temp) \/
  (0 < temp <= 20 /\ r = Spec.lerp (0, 0.034) (20, 0.036) temp) \/
  (20 < temp <= 40 /\ r = Spec.lerp (20, 0.036) (40, 0.038) temp) \/
  (40 < temp <= 60 /\ r = Spec.lerp (40, 0.038) (60, 0.040) temp) \/
  (60 < temp /\ r = 0.036).
Proof.
  intros r. subst r. unfold rokaflexTemps.
  destruct rokaflex_getLambda as (L1 & L2 & L3 & L4 & L5).
  cbn [interpolateLoop]. rewrite L1, L2, L3, L4, L5.
  unfold Spec.lerp. cbn [fst snd].
  destruct (Rlt_dec temp (-20)) as [H0 | H0].
  { left. split; [exact H0|]. decide_cmp. reflexivity. }
  right.
  destruct (Rle_dec temp 0) as [H1 | H1].
  { left. split; [lra|]. decide_cmp. reflexivity. }
  right.
  destruct (Rle_dec temp 20) as [H2 | H2].
  { left. split; [lra|]. decide_cmp. cbn [andb]. reflexivity. }
  right.
  destruct (Rle_dec temp 40) as [H3 | H3].
  { left. split; [lra|]. decide_cmp. cbn [andb]. reflexivity. }
  right.
  destruct (Rle_dec temp 60) as [H4 | H4].
  { left. split; [lra|]. decide_cmp. cbn [andb]. reflexivity. }
  right. split; [lra|]. decide_cmp. reflexivity.
Qed.

Lemma interpolateLambda_unknown (temp : R) (material : string) :
  readProperty MATERIALS material = Undefined ->
  interpolateLambda temp material = Ok 0.036.
Proof.
  intros H. unfold interpolateLambda, interpolateLambdaIn. rewrite H.
  reflexivity.
Qed.

Lemma readProperty_own (material : string) (m : MaterialData) :
  readProperty MATERIALS material = OwnValue m ->
  material = "ROKAFLEX ST"%string /\ m = ROKAFLEX_ST.
Proof.
  rewrite readProperty_MATERIALS.
  destruct (String.eqb "ROKAFLEX ST" material) eqn:E.
  - apply String.eqb_eq in E. intros [= <-]. split; congruence.
  - destruct (existsb _ _); discriminate.
Qed.

Lemma rokaflex_brackets :
  Spec.brackets ROKAFLEX_ST
  = [ ((-20, 0.032), (0, 0.034)); ((0, 0.034), (20, 0.036));
      ((20, 0.036), (40, 0.038)); ((40, 0.038), (60, 0.040)) ].
Proof. unfold Spec.brackets. rewrite rokaflex_breakpoints. reflexivity. Qed.

(** Go through the six ranges of [temp] for the value of the loop on the
    catalog material. *)
Ltac rokaflex_ranges temp :=
  let H := fresh "Hrange" in let E := fresh "Hval" in
  destruct (interpolateLoop_rokaflex temp)
    as [[H E] | [[H E] | [[H E] | [[H E] | [[H E] | [H E]]]]]];
  cbv zeta in E; rewrite E; unfold Spec.lerp; cbn [fst snd].

(** The contract of [interpolateLambda] on every name that is a key of
    the catalog or no property of the catalog object at all: the result
    is a positive number; inside a bracket of the ascending breakpoints
    it is the linear interpolation between the two breakpoints of the
    bracket, hence the table value at a breakpoint; in no bracket (below
    the first or above the last breakpoint) and for a name the catalog
    does not have it is the default 0.036. *)
Lemma interpolateLambda_contract (temp : R) (material : string) :
  ~ In material ObjectPrototypeNames ->
  exists v,
    interpolateLambda temp material = Ok v /\ 0 < v /\
    (readProperty MATERIALS material = Undefined -> v = 0.036) /\
    (forall m, readProperty MATERIALS material = OwnValue m ->
       (forall b0 b1, In (b0, b1) (Spec.brackets m) ->
          fst b0 <= temp <= fst b1 -> v = Spec.lerp b0 b1 temp) /\
       (forall b, In b (Spec.breakpoints m) -> temp = fst b -> v = snd b) /\
       ((forall b0 b1, In (b0, b1) (Spec.brackets m) ->
           ~ fst b0 <= temp <= fst b1) -> v = 0.036) /\
       ((forall b, In b (Spec.breakpoints m) -> fst b < temp) -> v = 0.036)).
Proof.
  intros Hname.
  destruct (readProperty MATERIALS material) as [m | | ] eqn:E.
  - apply readProperty_own in E as [-> ->].
    eexists. split; [apply interpolateLambda_rokaflex_ok|].
    split; [rokaflex_ranges temp; lra|].
    split; [discriminate|].
    intros m [= <-]. rewrite rokaflex_brackets, rokaflex_breakpoints.
    repeat split.
    + intros b0 b1 Hin Hb. cbn [In] in Hin.
      repeat destruct Hin as [Hin | Hin]; try contradiction;
        injection Hin as <- <-; cbn [fst snd] in Hb;
        unfold Spec.lerp at 1; cbn [fst snd];
        rokaflex_ranges temp; lra.
    + intros b Hin Hb. cbn [In] in Hin.
      repeat destruct Hin as [Hin | Hin]; try contradiction;
        subst b; cbn [fst snd] in *; subst temp;
        match goal with
        | |- interpolateLoop _ ?t _ = _ => rokaflex_ranges t; lra
        end.
    + intros Hout. rokaflex_ranges temp; try reflexivity; exfalso.
      * apply (Hout (-20, 0.032) (0, 0.034)); cbn; tauto || lra.
      * apply (Hout (0, 0.034) (20, 0.036)); cbn; tauto || lra.
      * apply (Hout (20, 0.036) (40, 0.038)); cbn; tauto || lra.
      * apply (Hout (40, 0.038) (60, 0.040)); cbn; tauto || lra.
    + intros Habove.
      assert (H60 : 60 < temp) by (apply (Habove (60, 0.040)); cbn; tauto).
      rokaflex_ranges temp; try reflexivity; lra.
  - exfalso. apply Hname. apply inherited_name_iff.
    rewrite readProperty_MATERIALS in E.
    destruct (String.eqb "ROKAFLEX ST" material); [discriminate|].
    destruct (existsb _ _); [reflexivity | discriminate].
  - exists 0.036. split; [apply interpolateLambda_unknown; exact E|].
    split; [lra|]. split; [reflexivity | discriminate].
Qed.

(** On a name inherited from [Object.prototype] the function throws. *)
Lemma interpolateLambda_inherited (temp : R) (material : string) :
  In material ObjectPrototypeNames ->
  interpolateLambda temp material = Throw TypeError.
Proof.
  intros Hin. unfold interpolateLambda, interpolateLambdaIn.
  rewrite readProperty_MATERIALS.
  destruct (String.eqb "ROKAFLEX ST" material) eqn:E.
  - apply String.eqb_eq in E. subst material. cbn [ObjectPrototypeNames In] in Hin.
    repeat destruct Hin as [Hin | Hin]; try discriminate. contradiction.
  - rewrite (proj2 (inherited_name_iff material) Hin). reflexivity.
Qed.

(** C6, at a name where the code raises.  The catalog has no entry
    'constructor', so the claim promises the default 0.036; the read
    [MATERIALS['constructor']] yields the constructor function every
    object inherits, the test [!materialData] does not fire, and
    [Object.keys] is applied to the missing [lambda] property: a
    TypeError is thrown and no number is returned. *)
Theorem inherited_name_raises :
  find (fun e => String.eqb (fst e) "constructor") MATERIALS = None /\
  interpolateLambda 20 "constructor" = Throw TypeError /\
  (forall v, interpolateLambda 20 "constructor" <> Ok v).
Proof.
  split; [reflexivity|].
  assert (H : interpolateLambda 20 "constructor" = Throw TypeError).
  { apply interpolateLambda_inherited. cbn. tauto. }
  split; [exact H|]. intros v. rewrite H. discriminate.
Qed.

(** C8. Scenario A: ambient 25, medium -5, material ROKAFLEX ST.  The
    condensation solver reads the conductivity at the mean temperature
    10, which lies between the breakpoints 0 and 20 of the table, and
    obtains their linear interpolation, 0.035.  The heat-loss formula
    reads it at [25 + 0.533 * (-5 - 25) + 21 = 30.01] and obtains
    0.037001, which is again the value at 30.01 of the line through the
    breakpoints (0, 0.034) and (20, 0.036): the table is affine, so the
    line through the neighbouring breakpoints (20, 0.036) and
    (40, 0.038), between which 30.01 lies, is the same line. *)
Theorem scenarioA_lambda :
  In ((0, 0.034), (20, 0.036)) (Spec.brackets ROKAFLEX_ST) /\
  (0 <= (25 + -5) / 2 <= 20 /\
   meanLambda 25 (-5) "ROKAFLEX ST"
   = Ok (Spec.lerp (0, 0.034) (20, 0.036) ((25 + -5) / 2)) /\
   meanLambda 25 (-5) "ROKAFLEX ST" = Ok 0.035) /\
  (heatLoss_T_lambda 25 (-5) = 30.01 /\
   heatLoss_lambda 25 (-5) "ROKAFLEX ST"
   = Ok (Spec.lerp (0, 0.034) (20, 0.036) (heatLoss_T_lambda 25 (-5))) /\
   heatLoss_lambda 25 (-5) "ROKAFLEX ST" = Ok 0.037001).
Proof.
  split; [rewrite rokaflex_brackets; cbn; tauto|].
  assert (Hmean : (25 + -5) / 2 = 10) by lra.
  assert (Hhl : heatLoss_T_lambda 25 (-5) = 30.01)
    by (unfold heatLoss_T_lambda; lra).
  split.
  - split; [lra|].
    unfold meanLambda. cbv zeta. rewrite Hmean, interpolateLambda_rokaflex_ok.
    rokaflex_ranges 10; split; f_equal; lra.
  - split; [exact Hhl|].
    unfold heatLoss_lambda. cbv zeta.
    rewrite Hhl, interpolateLambda_rokaflex_ok.
    rokaflex_ranges 30.01; split; f_equal; lra.
Qed.

(** ** Dew point *)

Lemma magnus_coefficient_bound (T : R) :
  -243.12 < T -> 17.62 * T / (243.12 + T) < 17.62.
Proof.
  intros HT.
  assert (Hpos : 0 < 243.12 + T) by lra.
  apply (Rmult_lt_reg_r (243.12 + T)); [exact Hpos|].
  unfold Rdiv. rewrite Rmult_assoc, Rinv_l by lra. lra.
Qed.

Lemma magnus_increasing (g1 g2 : R) :
  g1 < g2 -> g2 < 17.62 ->
  243.12 * g1 / (17.62 - g1) < 243.12 * g2 / (17.62 - g2).
Proof.
  intros H12 H2.
  assert (H1 : 0 < 17.62 - g1) by lra.
  assert (H2' : 0 < 17.62 - g2) by lra.
  apply (Rmult_lt_reg_r ((17.62 - g1) * (17.62 - g2)));
    [apply Rmult_lt_0_compat; assumption|].
  replace (243.12 * g1 / (17.62 - g1) * ((17.62 - g1) * (17.62 - g2)))
    with (243.12 * g1 * (17.62 - g2)) by (field; lra).
  replace (243.12 * g2 / (17.62 - g2) * ((17.62 - g1) * (17.62 - g2)))
    with (243.12 * g2 * (17.62 - g1)) by (field; lra).
  nra.
Qed.

Lemma ln_humidity_nonpos (RH : R) : 0 < RH <= 100 -> ln (RH / 100) <= 0.
Proof.
  intros [Hpos Hle]. destruct (Req_dec RH 100) as [-> | Hne].
  - replace (100 / 100) with 1 by lra. rewrite ln_1. lra.
  - rewrite <- ln_1. left. apply ln_increasing; lra.
Qed.

Lemma calculateDewPoint_increasing (T RH1 RH2 : R) :
  -243.12 < T -> 0 < RH1 -> RH1 < RH2 -> RH2 <= 100 ->
  calculateDewPoint T RH1 < calculateDewPoint T RH2.
Proof.
  intros HT H1 H12 H2.
  unfold calculateDewPoint, calculateDewPointMagnus, Math_log. cbn.
  apply magnus_increasing.
  - apply Rplus_lt_compat_r. apply ln_increasing; lra.
  - pose proof (magnus_coefficient_bound T HT).
    pose proof (ln_humidity_nonpos RH2). lra.
Qed.

Lemma calculateDewPoint_saturated (T : R) :
  -243.12 < T -> calculateDewPoint T 100 = T.
Proof.
  intros HT.
  unfold calculateDewPoint, calculateDewPointMagnus, Math_log. cbn.
  replace (100 / 100) with 1 by lra. rewrite ln_1. field. lra.
Qed.

(** C9, amended. For every air temperature above -243.12 degrees (the
    pole of the Magnus formula) the dew point is strictly increasing in
    the relative humidity on 0 < RH <= 100, and at RH = 100 it is the
    air temperature itself. *)
Theorem dew_point_increasing (T RH1 RH2 : R)
    (HT : -243.12 < T) (H1 : 0 < RH1) (H12 : RH1 < RH2) (H2 : RH2 <= 100) :
  calculateDewPoint T RH1 < calculateDewPoint T RH2 /\
  calculateDewPoint T 100 = T.
Proof.
  split.
  - apply calculateDewPoint_increasing; assumption.
  - apply calculateDewPoint_saturated. exact HT.
Qed.

Lemma dew_point_increasing_witness :
  calculateDewPoint 25 50 < calculateDewPoint 25 60 /\
  calculateDewPoint 25 100 = 25.
Proof.
  apply (dew_point_increasing 25 50 60); lra.
Defined.

(** Scenario D names a relative humidity of 60 at an ambient temperature
    of 10; the Magnus dew point of that air is below 10. *)
Lemma scenarioD_dew_point : calculateDewPoint 10 60 < 10.
Proof.
  rewrite <- (calculateDewPoint_saturated 10) at 2 by lra.
  apply calculateDewPoint_increasing; lra.
Qed.

(** C9 as stated fails below the pole: at an air temperature of -250
    degrees the dew point at the humidity [100 * exp (-640)] is above
    the dew point at the humidity 100. *)
Lemma dew_point_not_increasing_below_pole :
  0 < 100 * exp (-640) /\ 100 * exp (-640) < 100 /\
  calculateDewPoint (-250) 100 < calculateDewPoint (-250) (100 * exp (-640)).
Proof.
  assert (He : 0 < exp (-640)) by apply exp_pos.
  assert (He1 : exp (-640) < 1).
  { rewrite <- exp_0. apply exp_increasing. lra. }
  split; [lra|]. split; [lra|].
  unfold calculateDewPoint, calculateDewPointMagnus, Math_log. cbn.
  replace (100 / 100) with 1 by lra.
  replace (100 * exp (-640) / 100) with (exp (-640)) by lra.
  rewrite ln_1, ln_exp.
  apply Rlt_trans with 0.
  - lra.
  - apply Rdiv_lt_0_compat; lra.
Qed.

(** ** The thickness loop *)

Lemma thicknessLoop_eq (accept : R -> bool) (thickness : R) :
  thicknessLoop accept thickness
  = if leb thickness 100 then
      if accept thickness then (thickness, [thickness])
      else (fst (thicknessLoop accept (thickness + 0.1)),
            thickness :: snd (thicknessLoop accept (thickness + 0.1)))
    else (50, []).
Proof.
  rewrite thicknessLoop_equation_1. unfold leb.
  destruct (Rle_dec thickness 100); cbn; [|reflexivity].
  destruct (accept thickness); [reflexivity|].
  destruct (thicknessLoop accept (thickness + 0.1)). reflexivity.
Qed.

Lemma remainingSteps_done (thickness : R) :
  100 < thickness -> remainingSteps thickness = O.
Proof.
  intros H. unfold remainingSteps.
  assert (Zfloor ((100 - thickness) * 10) < 0)%Z; [|lia].
  apply lt_IZR. pose proof (Zfloor_bound ((100 - thickness) * 10)). lra.
Qed.

Lemma remainingSteps_step (thickness : R) :
  thickness <= 100 ->
  remainingSteps thickness = S (remainingSteps (thickness + 0.1)).
Proof.
  intros H. unfold remainingSteps.
  replace ((100 - (thickness + 0.1)) * 10)
    with ((100 - thickness) * 10 + IZR (-1)) by lra.
  rewrite Zfloor_addz.
  assert (0 <= Zfloor ((100 - thickness) * 10))%Z
    by (apply Zfloor_lub; lra).
  lia.
Qed.

Lemma remainingSteps_start : remainingSteps 0.1 = 1000%nat.
Proof.
  unfold remainingSteps.
  rewrite (Zfloor_eq 999) by lra. reflexivity.
Qed.

Lemma scanPoints_length (t : R) (n : nat) :
  List.length (scanPoints t n) = n.
Proof.
  revert t; induction n as [|n IH]; intros t; simpl; [|rewrite IH];
    reflexivity.
Qed.

Lemma scanPoints_In (t x : R) (n : nat) :
  In x (scanPoints t n) <-> exists j, (j < n)%nat /\ x = t + 0.1 * INR j.
Proof.
  revert t; induction n as [|n IH]; intros t; simpl.
  - split; [contradiction | intros (j & Hj & _); lia].
  - rewrite IH. split.
    + intros [<- | (j & Hj & ->)].
      * exists O. split; [lia | simpl; lra].
      * exists (S j). split; [lia | rewrite S_INR; lra].
    + intros (j & Hj & ->). destruct j as [|j].
      * left. simpl. lra.
      * right. exists j. split; [lia | rewrite S_INR; lra].
Qed.

Lemma scanPoints_last (t : R) (n : nat) :
  last (scanPoints t (S n)) 0 = t + 0.1 * INR n.
Proof.
  revert t; induction n as [|n IH]; intros t.
  - simpl. lra.
  - change (scanPoints t (S (S n))) with (t :: scanPoints (t + 0.1) (S n)).
    change (last (t :: scanPoints (t + 0.1) (S n)) 0)
      with (last (scanPoints (t + 0.1) (S n)) 0).
    rewrite IH, S_INR. lra.
Qed.

(** The points of the loop stay below its bound. *)
Lemma scan_within_bound (t : R) (j : nat) :
  (j < remainingSteps t)%nat -> t + 0.1 * INR j <= 100.
Proof.
  revert t; induction j as [|j IH]; intros t Hj.
  - destruct (Rle_dec t 100) as [H | H]; [simpl; lra|].
    rewrite remainingSteps_done in Hj by lra. lia.
  - destruct (Rle_dec t 100) as [H | H].
    + rewrite remainingSteps_step in Hj by exact H.
      specialize (IH (t + 0.1) ltac:(lia)). rewrite S_INR. lra.
    + rewrite remainingSteps_done in Hj by lra. lia.
Qed.

(** What the loop returns and which thicknesses it examines: either the
    first point of the scan that is accepted, or 50 after all points up
    to the bound were rejected. *)
Lemma thicknessLoop_outcome (accept : R -> bool) (t : R) :
  (exists k,
     (k < remainingSteps t)%nat /\
     (forall j, (j < k)%nat -> accept (t + 0.1 * INR j) = false) /\
     accept (t + 0.1 * INR k) = true /\
     thicknessLoop accept t = (t + 0.1 * INR k, scanPoints t (S k))) \/
  ((forall j, (j < remainingSteps t)%nat ->
              accept (t + 0.1 * INR j) = false) /\
   thicknessLoop accept t = (50, scanPoints t (remainingSteps t))).
Proof.
  remember (remainingSteps t) as n eqn:En. revert t En.
  induction n as [|n IH]; intros t En.
  - right. split; [intros j Hj; lia|].
    rewrite thicknessLoop_eq.
    rewrite (proj2 (leb_false t 100)); [reflexivity|].
    destruct (Rle_dec t 100) as [H | H]; [|lra].
    rewrite remainingSteps_step in En by exact H. discriminate.
  - assert (Ht : t <= 100).
    { destruct (Rle_dec t 100) as [H | H]; [exact H|].
      rewrite remainingSteps_done in En by lra. discriminate. }
    rewrite remainingSteps_step in En by exact Ht. injection En as En.
    rewrite thicknessLoop_eq, (proj2 (leb_true t 100)) by exact Ht.
    destruct (accept t) eqn:Ea.
    + left. exists O. simpl. rewrite Rmult_0_r, Rplus_0_r.
      repeat split; [lia | intros j Hj; lia | exact Ea].
    + destruct (IH (t + 0.1) En) as [(k & Hk & Hrej & Hacc & Heq) | [Hrej Heq]].
      * left. exists (S k). rewrite S_INR.
        replace (t + 0.1 * (INR k + 1)) with (t + 0.1 + 0.1 * INR k) by lra.
        repeat split; [lia | | exact Hacc | rewrite Heq; reflexivity].
        intros [|j] Hj; [simpl; rewrite Rmult_0_r, Rplus_0_r; exact Ea|].
        rewrite S_INR.
        replace (t + 0.1 * (INR j + 1)) with (t + 0.1 + 0.1 * INR j) by lra.
        apply Hrej. lia.
      * right. split; [|rewrite Heq; reflexivity].
        intros [|j] Hj; [simpl; rewrite Rmult_0_r, Rplus_0_r; exact Ea|].
        rewrite S_INR.
        replace (t + 0.1 * (INR j + 1)) with (t + 0.1 + 0.1 * INR j) by lra.
        apply Hrej. lia.
Qed.

(** ** Minimum thickness: the checks at the function boundary *)

(** Whenever [calculateMinimumThickness] throws, its loop has examined
    no thickness. *)
Lemma errors_precede_search
    (tubeDiameter ambientTemp mediumTemp dewPoint : R) (material : string)
    (h : R) (e : Error) :
  calculateMinimumThickness tubeDiameter ambientTemp mediumTemp dewPoint
    material h = Throw e ->
  snd (calculateMinimumThickness_traced tubeDiameter ambientTemp mediumTemp
         dewPoint material h) = [].
Proof.
  unfold calculateMinimumThickness, calculateMinimumThickness_traced.
  destruct (leb tubeDiameter 0); [reflexivity|].
  destruct (leb h 0); [reflexivity|].
  destruct (geb dewPoint ambientTemp); [reflexivity|].
  cbv zeta. destruct (gtb (dewPoint + 0.4) ambientTemp); [reflexivity|].
  destruct (meanLambda ambientTemp mediumTemp material); [|reflexivity].
  destruct (thicknessLoop _ 0.1). discriminate.
Qed.

(** C4, amended. For a positive tube diameter and a positive h (the two
    validations that come first), [calculateMinimumThickness] raises
    InvalidHumidity whenever the dew point supplied is at or above the
    ambient temperature, and raises UnreachableTarget whenever the dew
    point is below the ambient temperature but the dew point plus the
    margin of 0.4 is above it.  Both checks precede the search: the loop
    examines no thickness and no thickness is returned. *)
Theorem humidity_checks_before_search
    (tubeDiameter ambientTemp mediumTemp dewPoint : R) (material : string)
    (h : R) (Hd : 0 < tubeDiameter) (Hh : 0 < h) :
  (ambientTemp <= dewPoint ->
   calculateMinimumThickness_traced tubeDiameter ambientTemp mediumTemp
     dewPoint material h = (Throw InvalidHumidity, []) /\
   calculateMinimumThickness tubeDiameter ambientTemp mediumTemp
     dewPoint material h = Throw InvalidHumidity) /\
  (dewPoint < ambientTemp -> ambientTemp < dewPoint + 0.4 ->
   calculateMinimumThickness_traced tubeDiameter ambientTemp mediumTemp
     dewPoint material h = (Throw UnreachableTarget, []) /\
   calculateMinimumThickness tubeDiameter ambientTemp mediumTemp
     dewPoint material h = Throw UnreachableTarget).
Proof.
  unfold calculateMinimumThickness, calculateMinimumThickness_traced.
  rewrite (proj2 (leb_false tubeDiameter 0)) by exact Hd.
  rewrite (proj2 (leb_false h 0)) by exact Hh.
  split.
  - intros Hdew. rewrite (proj2 (geb_true dewPoint ambientTemp)) by exact Hdew.
    split; reflexivity.
  - intros Hlt Hmargin.
    rewrite (proj2 (geb_false dewPoint ambientTemp)) by exact Hlt.
    rewrite (proj2 (gtb_true (dewPoint + 0.4) ambientTemp)) by exact Hmargin.
    split; reflexivity.
Qed.

(** Scenario D: ambient 10 and a dew point of 10; and a dew point of
    9.8, within the margin. *)
Lemma humidity_checks_before_search_witness :
  calculateMinimumThickness_traced 25 10 (-5) 10 "ROKAFLEX ST" 9
  = (Throw InvalidHumidity, []) /\
  calculateMinimumThickness_traced 25 10 (-5) 9.8 "ROKAFLEX ST" 9
  = (Throw UnreachableTarget, []).
Proof.
  assert (Hd : 0 < 25) by lra.
  assert (Hh : 0 < 9) by lra.
  split.
  - apply (humidity_checks_before_search 25 10 (-5) 10 "ROKAFLEX ST" 9 Hd Hh).
    lra.
  - apply (humidity_checks_before_search 25 10 (-5) 9.8 "ROKAFLEX ST" 9 Hd Hh);
      lra.
Defined.

Lemma meanLambda_throws (ambientTemp mediumTemp : R) (material : string)
    (e : Error) :
  meanLambda ambientTemp mediumTemp material = Throw e -> e = TypeError.
Proof.
  unfold meanLambda, interpolateLambda, interpolateLambdaIn. cbv zeta.
  destruct (readProperty MATERIALS material); intros [=]; congruence.
Qed.

(** Scenario D end to end: at an ambient temperature of 10 and a
    relative humidity of 60 the calculator never reports
    InvalidHumidity, whatever the other inputs are. *)
Lemma scenarioD_outcome (i : CondensationInputs) :
  ci_ambientTemp i = 10 -> ci_relativeHumidity i = 60 ->
  calculateCondensation i <> Alerted InvalidHumidity.
Proof.
  intros Ha Hr. unfold calculateCondensation. rewrite Ha, Hr.
  destruct (_ || _ || _); [discriminate|].
  unfold calculateMinimumThickness, calculateMinimumThickness_traced.
  destruct (leb (ci_tubeDiameter i) 0); [discriminate|].
  destruct (leb (ci_h i) 0); [discriminate|].
  rewrite (proj2 (geb_false (calculateDewPoint 10 60) 10))
    by exact scenarioD_dew_point.
  cbv zeta. destruct (gtb _ 10); [discriminate|].
  destruct (meanLambda _ _ _) as [lam | e] eqn:El.
  - destruct (thicknessLoop _ 0.1). discriminate.
  - apply meanLambda_throws in El. subst e. discriminate.
Qed.

(** C4 as stated fails in three ways.  With a tube diameter of 0 and a
    dew point above the ambient temperature the error is the one of the
    diameter check, which comes first; with a dew point of 12 at an
    ambient temperature of 10 the dew point plus the margin is above the
    ambient temperature, and the error is InvalidHumidity, not
    UnreachableTarget; and the inputs of Scenario D, relative humidity
    60 at an ambient temperature of 10, have a dew point below 10 and
    raise no InvalidHumidity. *)
Lemma humidity_checks_precedence :
  (10 <= 12 /\
   calculateMinimumThickness 0 10 (-5) 12 "ROKAFLEX ST" 9
   = Throw InvalidGeometry) /\
  (10 < 12 + 0.4 /\
   calculateMinimumThickness 25 10 (-5) 12 "ROKAFLEX ST" 9
   = Throw InvalidHumidity) /\
  (calculateDewPoint 10 60 < 10 /\
   calculateCondensation (mkCondensationInputs 10 (-5) 25 "ROKAFLEX ST" 9 60)
   <> Alerted InvalidHumidity).
Proof.
  split; [|split].
  - split; [lra|].
    unfold calculateMinimumThickness, calculateMinimumThickness_traced.
    decide_cmp. reflexivity.
  - split; [lra|].
    unfold calculateMinimumThickness, calculateMinimumThickness_traced.
    decide_cmp. reflexivity.
  - split; [exact scenarioD_dew_point|].
    apply scenarioD_outcome; reflexivity.
Qed.

(** ** Minimum thickness: the scan *)

Lemma calculateMinimumThickness_validated
    (tubeDiameter ambientTemp mediumTemp dewPoint : R) (material : string)
    (h lam : R) :
  validatedInput tubeDiameter ambientTemp dewPoint h ->
  meanLambda ambientTemp mediumTemp material = Ok lam ->
  calculateMinimumThickness_traced tubeDiameter ambientTemp mediumTemp
    dewPoint material h
  = (Ok (fst (thicknessLoop
                (fun thickness =>
                   geb (surfaceTempAt (tubeDiameter / 2 / 1000) lam h
                          ambientTemp mediumTemp thickness)
                       (dewPoint + 0.4))
                0.1)),
     snd (thicknessLoop
            (fun thickness =>
               geb (surfaceTempAt (tubeDiameter / 2 / 1000) lam h
                      ambientTemp mediumTemp thickness)
                   (dewPoint + 0.4))
            0.1)).
Proof.
  intros (Hd & Hh & Hdew & Hmargin) Hlam.
  unfold calculateMinimumThickness_traced.
  rewrite (proj2 (leb_false tubeDiameter 0)) by exact Hd.
  rewrite (proj2 (leb_false h 0)) by exact Hh.
  rewrite (proj2 (geb_false dewPoint ambientTemp)) by exact Hdew.
  rewrite (proj2 (gtb_false (dewPoint + 0.4) ambientTemp)) by exact Hmargin.
  cbv zeta. rewrite Hlam.
  destruct (thicknessLoop _ 0.1). reflexivity.
Qed.

(** For a validated input, with the conductivity [lam] of the material
    at the mean temperature, the function returns the first thickness of
    the scan 0.1, 0.2, ... at which the surface temperature reaches the
    dew point plus 0.4, having examined the thicknesses up to it; when
    no thickness up to 100 does, it returns 50 after examining all
    thousand of them. *)
Lemma minimum_thickness_scan
    (tubeDiameter ambientTemp mediumTemp dewPoint : R) (material : string)
    (h lam : R) :
  validatedInput tubeDiameter ambientTemp dewPoint h ->
  meanLambda ambientTemp mediumTemp material = Ok lam ->
  let criterion :=
    surfaceCriterion tubeDiameter ambientTemp mediumTemp dewPoint lam h in
  let run :=
    calculateMinimumThickness_traced tubeDiameter ambientTemp mediumTemp
      dewPoint material h in
  (exists k, (k < 1000)%nat /\
     (forall j, (j < k)%nat -> ~ criterion (0.1 + 0.1 * INR j)) /\
     criterion (0.1 + 0.1 * INR k) /\
     run = (Ok (0.1 + 0.1 * INR k), scanPoints 0.1 (S k))) \/
  ((forall j, (j < 1000)%nat -> ~ criterion (0.1 + 0.1 * INR j)) /\
   run = (Ok 50, scanPoints 0.1 1000)).
Proof.
  intros Hv Hlam criterion run. subst run.
  rewrite (calculateMinimumThickness_validated _ _ _ _ _ _ _ Hv Hlam).
  match goal with
  | |- context [thicknessLoop ?a 0.1] =>
      destruct (thicknessLoop_outcome a 0.1)
        as [(k & Hk & Hrej & Hacc & Heq) | [Hrej Heq]]
  end; rewrite remainingSteps_start in *.
  - left. exists k. rewrite Heq. cbn [fst snd].
    split; [exact Hk|]. split; [|split; [|reflexivity]].
    + intros j Hj Hc. specialize (Hrej j Hj). apply geb_false in Hrej.
      unfold criterion, surfaceCriterion in Hc. lra.
    + apply geb_true in Hacc. exact Hacc.
  - right. rewrite Heq. cbn [fst snd]. split; [|reflexivity].
    intros j Hj Hc. specialize (Hrej j Hj). apply geb_false in Hrej.
    unfold criterion, surfaceCriterion in Hc. lra.
Qed.

(** Every thickness the function returns is positive. *)
Lemma minimum_thickness_positive
    (tubeDiameter ambientTemp mediumTemp dewPoint : R) (material : string)
    (h minThickness : R) :
  calculateMinimumThickness tubeDiameter ambientTemp mediumTemp dewPoint
    material h = Ok minThickness ->
  0 < minThickness.
Proof.
  unfold calculateMinimumThickness. intros H.
  assert (Hv : validatedInput tubeDiameter ambientTemp dewPoint h /\
               exists lam, meanLambda ambientTemp mediumTemp material = Ok lam).
  { unfold calculateMinimumThickness_traced in H. unfold validatedInput.
    destruct (leb tubeDiameter 0) eqn:E1; [discriminate|].
    destruct (leb h 0) eqn:E2; [discriminate|].
    destruct (geb dewPoint ambientTemp) eqn:E3; [discriminate|].
    cbv zeta in H.
    destruct (gtb (dewPoint + 0.4) ambientTemp) eqn:E4; [discriminate|].
    destruct (meanLambda ambientTemp mediumTemp material) as [lam | e];
      [|discriminate].
    apply leb_false in E1, E2. apply geb_false in E3. apply gtb_false in E4.
    split; [repeat split; assumption | exists lam; reflexivity]. }
  destruct Hv as [Hv [lam Hlam]].
  destruct (minimum_thickness_scan _ _ mediumTemp _ material _ lam Hv Hlam)
    as [(k & _ & _ & _ & Heq) | [_ Heq]];
    rewrite Heq in H; cbn in H; injection H as <-.
  - pose proof (pos_INR k). lra.
  - lra.
Qed.

(** ** Surface temperature *)

Lemma ln_le_minus_1 (x : R) : 0 < x -> ln x <= x - 1.
Proof.
  intros Hx. pose proof (exp_ineq1_le (ln x)) as H.
  rewrite exp_ln in H by exact Hx. lra.
Qed.

Lemma ln_ge_1_minus_inv (x : R) : 0 < x -> 1 - / x <= ln x.
Proof.
  intros Hx. pose proof (ln_le_minus_1 (/ x) (Rinv_0_lt_compat x Hx)) as H.
  rewrite ln_Rinv in H by exact Hx. lra.
Qed.

Lemma ln_radius_ratio (ri t : R) :
  0 < ri -> 0 < t ->
  0 < ln ((ri + t / 1000) / ri) <= t / 1000 / ri.
Proof.
  intros Hri Ht.
  assert (Hratio : (ri + t / 1000) / ri = 1 + t / 1000 / ri) by (field; lra).
  assert (Hu : 0 < t / 1000 / ri).
  { apply Rdiv_lt_0_compat; lra. }
  rewrite Hratio. split.
  - rewrite <- ln_1. apply ln_increasing; lra.
  - pose proof (ln_le_minus_1 (1 + t / 1000 / ri)). lra.
Qed.

(** The surface temperature of the loop body in closed form: the part
    of the temperature difference that falls across the surface film is
    [lambda / (lambda + h * ro * ln (ro / ri))]. *)
Lemma surfaceTempAt_closed (ri lam h Ta Tm t : R) :
  0 < ri -> 0 < lam -> 0 < h -> 0 < t ->
  surfaceTempAt ri lam h Ta Tm t
  = Ta - (Ta - Tm) * lam
         / (lam + h * (ri + t / 1000) * ln ((ri + t / 1000) / ri)).
Proof.
  intros Hri Hlam Hh Ht.
  pose proof (ln_radius_ratio ri t Hri Ht) as [HL _].
  pose proof PI_RGT_0 as Hpi.
  unfold surfaceTempAt, Math_log, Math_PI. cbv zeta.
  set (L := ln ((ri + t / 1000) / ri)) in *.
  assert (Hro : 0 < ri + t / 1000) by lra.
  assert (Hden : 0 < lam + h * (ri + t / 1000) * L).
  { assert (0 < h * (ri + t / 1000) * L); [|lra].
    apply Rmult_lt_0_compat; [nra | exact HL]. }
  assert (Hsum : L / (2 * PI * lam) + 1 / (h * 2 * PI * (ri + t / 1000)) <> 0).
  { assert (0 < L / (2 * PI * lam)).
    { apply Rdiv_lt_0_compat; [exact HL | nra]. }
    assert (0 < 1 / (h * 2 * PI * (ri + t / 1000))).
    { apply Rdiv_lt_0_compat; [lra|].
      apply Rmult_lt_0_compat; [nra | exact Hro]. }
    lra. }
  field_simplify_eq; [reflexivity|].
  repeat split; lra.
Qed.

(** An upper bound for a cold medium, from [ln x <= x - 1]. *)
Lemma surfaceTempAt_cold_upper (ri lam h Ta Tm t : R) :
  0 < ri -> 0 < lam -> 0 < h -> 0 < t -> Tm < Ta ->
  surfaceTempAt ri lam h Ta Tm t
  <= Ta - (Ta - Tm) * lam
          / (lam + h * (ri + t / 1000) * (t / 1000 / ri)).
Proof.
  intros Hri Hlam Hh Ht Hcold.
  rewrite surfaceTempAt_closed by assumption.
  pose proof (ln_radius_ratio ri t Hri Ht) as [HL HU].
  set (L := ln ((ri + t / 1000) / ri)) in *.
  set (u := t / 1000 / ri) in *.
  assert (Hk : 0 < h * (ri + t / 1000)) by nra.
  assert (HdL : 0 < lam + h * (ri + t / 1000) * L) by nra.
  assert (Hdu : 0 < lam + h * (ri + t / 1000) * u) by nra.
  assert (Hinv : / (lam + h * (ri + t / 1000) * u)
                 <= / (lam + h * (ri + t / 1000) * L)).
  { apply Rinv_le_contravar; [exact HdL | nra]. }
  unfold Rdiv at 1 3.
  assert (Hc : 0 < (Ta - Tm) * lam) by nra.
  nra.
Qed.


(** ** Minimum thickness: the exhausted scan *)

Lemma scenarioA_meanLambda : meanLambda 25 (-5) "ROKAFLEX ST" = Ok 0.035.
Proof.
  unfold meanLambda. cbv zeta.
  replace ((25 + -5) / 2) with 10 by lra.
  rewrite interpolateLambda_rokaflex_ok.
  rokaflex_ranges 10; f_equal; lra.
Qed.

(** C2, at an input where the scan finds nothing.  Tube of 25 mm,
    ambient 25, medium -5, dew point 24.5, h = 9: the input is
    validated, the loop examines the thousand thicknesses 0.1, ..., 100
    and none reaches the target 24.9; the function then returns 50,
    which is not the bound 100 of the scan it has just completed. *)
Theorem exhausted_scan_returns_50 :
  validatedInput 25 25 24.5 9 /\
  calculateMinimumThickness_traced 25 25 (-5) 24.5 "ROKAFLEX ST" 9
  = (Ok 50, scanPoints 0.1 1000) /\
  last (scanPoints 0.1 1000) 0 = 100 /\
  (forall t, In t (scanPoints 0.1 1000) ->
             ~ surfaceCriterion 25 25 (-5) 24.5 0.035 9 t) /\
  calculateMinimumThickness 25 25 (-5) 24.5 "ROKAFLEX ST" 9 <> Ok 100.
Proof.
  assert (Hv : validatedInput 25 25 24.5 9) by (unfold validatedInput; lra).
  assert (Hrej : forall j, (j < 1000)%nat ->
            ~ surfaceCriterion 25 25 (-5) 24.5 0.035 9 (0.1 + 0.1 * INR j)).
  { intros j Hj. unfold surfaceCriterion.
    assert (Hle : 0.1 + 0.1 * INR j <= 100).
    { apply scan_within_bound. rewrite remainingSteps_start. exact Hj. }
    pose proof (pos_INR j) as Hpos.
    set (t := 0.1 + 0.1 * INR j) in *.
    assert (Ht : 0 < t) by (unfold t; lra).
    pose proof (surfaceTempAt_cold_upper (25 / 2 / 1000) 0.035 9 25 (-5) t
                  ltac:(lra) ltac:(lra) ltac:(lra) Ht ltac:(lra)) as Hup.
    assert (Hden : 0 < 0.035 + 9 * (25 / 2 / 1000 + t / 1000)
                             * (t / 1000 / (25 / 2 / 1000)) <= 8.135).
    { replace (t / 1000 / (25 / 2 / 1000)) with (t / 12.5) by lra. nra. }
    set (D := 0.035 + 9 * (25 / 2 / 1000 + t / 1000)
                     * (t / 1000 / (25 / 2 / 1000))) in *.
    assert (Hfrac : 1.05 / 8.135 <= (25 - -5) * 0.035 / D).
    { unfold Rdiv. replace ((25 - -5) * 0.035) with 1.05 by lra.
      apply Rmult_le_compat_l; [lra|].
      apply Rinv_le_contravar; lra. }
    lra. }
  split; [exact Hv|].
  destruct (minimum_thickness_scan 25 25 (-5) 24.5 "ROKAFLEX ST" 9 0.035 Hv
              scenarioA_meanLambda)
    as [(k & Hk & _ & Hacc & _) | [_ Heq]].
  { exfalso. exact (Hrej k Hk Hacc). }
  split; [exact Heq|]. split; [|split].
  - rewrite (scanPoints_last 0.1 999).
    replace (INR 999) with 999 by (rewrite INR_IZR_INZ; reflexivity). lra.
  - intros t Hin. apply scanPoints_In in Hin as (j & Hj & ->).
    apply Hrej. exact Hj.
  - unfold calculateMinimumThickness. rewrite Heq. cbn [fst].
    intros [= H]. lra.
Qed.

(** ** Stock ladders *)

Lemma Zceil_le_iff (x : R) (z : Z) : (Zceil x <= z)%Z <-> x <= IZR z.
Proof.
  pose proof (Zceil_bound x) as [Hlo Hhi]. split; intros H.
  - apply IZR_le in H. lra.
  - apply Z.lt_succ_r. apply lt_IZR. rewrite succ_IZR. lra.
Qed.

Lemma sortAsc_Z_sorted (l : list Z) : StronglySorted Z.le (sortAsc Z.leb l).
Proof.
  apply Sorted_StronglySorted; [intros x y z; apply Z.le_trans|].
  assert (H : Sorted (fun a b => Z.leb a b = true) (sortAsc Z.leb l)).
  { apply sortAsc_sorted. intros x y.
    destruct (Z.leb_spec x y); [left; reflexivity|].
    right. apply Z.leb_le. lia. }
  induction H as [|x l' Hs IH Hhd]; constructor; [exact IH|].
  destruct Hhd; constructor. apply Z.leb_le. assumption.
Qed.

Lemma sortAsc_Z_In (l : list Z) (x : Z) : In x (sortAsc Z.leb l) <-> In x l.
Proof.
  split; apply Permutation_in;
    [symmetry|]; apply sortAsc_perm.
Qed.

(** On an ascending list, [find] with the test [n <= t] returns the
    least member that is at least [n]. *)
Lemma find_least (n : Z) (l : list Z) (t : Z) :
  StronglySorted Z.le l ->
  find (fun t => (n <=? t)%Z) l = Some t ->
  In t l /\ (n <= t)%Z /\ forall u, In u l -> (n <= u)%Z -> (t <= u)%Z.
Proof.
  induction 1 as [|x l Hs IH Hall]; simpl; [discriminate|].
  destruct (Z.leb_spec n x) as [Hle | Hlt].
  - intros [= <-]. split; [left; reflexivity|]. split; [exact Hle|].
    intros u [<- | Hu] _; [lia|].
    rewrite Forall_forall in Hall. apply Hall. exact Hu.
  - intros Hf. destruct (IH Hf) as (Hin & Hn & Hmin).
    split; [right; exact Hin|]. split; [exact Hn|].
    intros u [<- | Hu] Hnu; [lia | apply Hmin; assumption].
Qed.

Lemma find_none_all_below (n : Z) (l : list Z) :
  find (fun t => (n <=? t)%Z) l = None ->
  forall u, In u l -> (u < n)%Z.
Proof.
  intros H u Hu. pose proof (find_none _ _ H u Hu) as Hn. cbn in Hn.
  apply Z.leb_gt. exact Hn.
Qed.

Lemma last_cons_default {A : Type} (y x : A) (l : list A) :
  last (y :: l) x = last l y.
Proof.
  revert x y. induction l as [|z l IH]; intros x y; [reflexivity|].
  change (last (y :: z :: l) x) with (last (z :: l) x).
  rewrite (IH x z), (IH y z). reflexivity.
Qed.

(** On an ascending list the last element is the greatest. *)
Lemma lastElement_greatest (l : list Z) :
  StronglySorted Z.le l -> l <> [] ->
  exists t, lastElement l = Some t /\ In t l /\
            forall u, In u l -> (u <= t)%Z.
Proof.
  intros Hs Hne. destruct l as [|x l]; [contradiction|]. clear Hne.
  exists (last l x). split; [reflexivity|].
  revert x Hs. induction l as [|y l IH]; intros x Hs.
  - simpl. split; [left; reflexivity|]. intros u [<- | []]. lia.
  - apply StronglySorted_inv in Hs as [Hs Hall].
    destruct (IH y Hs) as [Hin Hmax].
    rewrite last_cons_default.
    split; [right; exact Hin|].
    intros u [<- | Hu]; [|apply Hmax; exact Hu].
    rewrite Forall_forall in Hall.
    specialize (Hall y (or_introl eq_refl)).
    specialize (Hmax y (or_introl eq_refl)). lia.
Qed.

(** All stocked thicknesses of the catalog are positive. *)
Lemma stocked_thicknesses_positive :
  Forall (fun tube => Forall (fun t => (0 < t)%Z)
                        (ObjectKeys (wallThicknesses tube)))
         ALL_TUBE_SIZES.
Proof.
  unfold ALL_TUBE_SIZES.
  repeat (apply Forall_cons;
          [cbn [wallThicknesses ObjectKeys map fst];
           repeat (apply Forall_cons; [lia|]); apply Forall_nil|]).
  apply Forall_nil.
Qed.

Lemma findTube_In (d : R) (tube : TubeSize) :
  findTube d = Some tube -> In tube ALL_TUBE_SIZES /\ mm tube = d.
Proof.
  unfold findTube. intros H. apply find_some in H as [Hin Heq].
  split; [exact Hin | apply eqb_true; exact Heq].
Qed.

Lemma availableThicknesses_positive (d : R) (t : Z) :
  In t (availableThicknesses d) -> (0 < t)%Z.
Proof.
  unfold availableThicknesses. destruct (findTube d) as [tube|] eqn:E.
  - intros Hin. apply (proj1 (sortAsc_Z_In _ _)) in Hin.
    apply findTube_In in E as [Hin' _].
    pose proof stocked_thicknesses_positive as H.
    rewrite Forall_forall in H. specialize (H tube Hin').
    rewrite Forall_forall in H. apply H. exact Hin.
  - unfold defaultThicknesses. cbn [In].
    intros H. repeat destruct H as [<- | H]; try lia; contradiction.
Qed.

Lemma availableThicknesses_sorted (d : R) :
  StronglySorted Z.le (availableThicknesses d).
Proof.
  unfold availableThicknesses. destruct (findTube d).
  - apply sortAsc_Z_sorted.
  - unfold defaultThicknesses. repeat constructor; lia.
Qed.

(** Where the tube that is found has a stocked thickness, the ladder of
    [calculateCondensation] is the one of [getAvailableThicknesses]: the
    tube's stocked thicknesses, or the default ladder for a diameter
    that is not listed. *)
Lemma availableThicknesses_applicable (d : R) :
  (forall tube, findTube d = Some tube -> wallThicknesses tube <> []) ->
  availableThicknesses d = getAvailableThicknesses d /\
  availableThicknesses d <> [].
Proof.
  intros Hne. unfold availableThicknesses, getAvailableThicknesses.
  destruct (findTube d) as [tube|] eqn:E.
  - specialize (Hne tube eq_refl).
    destruct (wallThicknesses tube) as [|e l] eqn:Ew; [contradiction|].
    cbn [ObjectKeys map List.length Nat.eqb]. split; [reflexivity|].
    intros Hnil.
    assert (Hin : In (fst e) (sortAsc Z.leb (fst e :: map fst l)))
      by (apply (proj2 (sortAsc_Z_In _ _)); left; reflexivity).
    rewrite Hnil in Hin. contradiction.
  - split; [reflexivity | discriminate].
Qed.

(** ** The recommendation of the condensation calculator *)

Lemma recommendedThickness_from_ladder (minThickness d : R) :
  0 < minThickness -> availableThicknesses d <> [] ->
  exists t,
    recommendedThickness minThickness d = Some t /\
    In t (availableThicknesses d) /\
    ((exists u, In u (availableThicknesses d) /\
                minThickness * 1.2 <= IZR u) ->
     minThickness * 1.2 <= IZR t /\ minThickness <= IZR t /\
     forall u, In u (availableThicknesses d) ->
               minThickness * 1.2 <= IZR u -> (t <= u)%Z) /\
    ((forall u, In u (availableThicknesses d) ->
                IZR u < minThickness * 1.2) ->
     forall u, In u (availableThicknesses d) -> (u <= t)%Z).
Proof.
  intros Hpos Hne. unfold recommendedThickness, nominalThickness. cbv zeta.
  pose proof (availableThicknesses_sorted d) as Hs.
  destruct (find _ (availableThicknesses d)) as [t|] eqn:Ef.
  - destruct (find_least _ _ _ Hs Ef) as (Hin & Hn & Hmin).
    apply Zceil_le_iff in Hn.
    exists t. split.
    { pose proof (availableThicknesses_positive d t Hin) as Ht.
      unfold orElse. destruct (Z.eqb_spec t 0); [lia | reflexivity]. }
    split; [exact Hin|]. split.
    + intros _. split; [exact Hn|]. split; [lra|].
      intros u Hu Hnu. apply Hmin; [exact Hu|].
      apply Zceil_le_iff. exact Hnu.
    + intros Hall. specialize (Hall t Hin). lra.
  - pose proof (find_none_all_below _ _ Ef) as Hbelow.
    destruct (lastElement_greatest _ Hs Hne) as (t & Hlast & Hin & Hmax).
    exists t. split; [unfold orElse; exact Hlast|].
    split; [exact Hin|]. split.
    + intros (u & Hu & Hnu). apply Zceil_le_iff in Hnu.
      specialize (Hbelow u Hu). lia.
    + intros _. exact Hmax.
Qed.

Lemma calculateCondensation_calculated (i : CondensationInputs)
    (r : CondensationResults) :
  calculateCondensation i = Calculated r ->
  calculateMinimumThickness (ci_tubeDiameter i) (ci_ambientTemp i)
    (ci_mediumTemp i) (dewpointTemperature r) (ci_material i) (ci_h i)
  = Ok (minimumThickness r) /\
  dewpointTemperature r
  = calculateDewPoint (ci_ambientTemp i) (ci_relativeHumidity i) /\
  recommendationThickness r
  = recommendedThickness (minimumThickness r) (ci_tubeDiameter i).
Proof.
  unfold calculateCondensation.
  destruct (_ || _ || _); [discriminate|].
  destruct (calculateMinimumThickness _ _ _ _ _ _) as [m | e] eqn:Em;
    [|discriminate].
  intros [= <-]. cbn. rewrite Em. repeat split; reflexivity.
Qed.

(** C3, amended. For every condensation calculation that produces a
    result, on a tube that has stocked thicknesses or on a diameter that
    is not listed, the recommended thickness is a member of the
    applicable ladder (the tube's stocked thicknesses, the default
    ladder 6, 9, 13, 19, 25, 32 for an unlisted diameter).  When some
    member is at least 1.2 times the minimum thickness, it is the
    smallest such member, and then it is at least the minimum
    thickness; when none is, it is the largest member. *)
Theorem recommended_thickness_on_ladder (i : CondensationInputs)
    (r : CondensationResults)
    (Hres : calculateCondensation i = Calculated r)
    (Hstock : forall tube, findTube (ci_tubeDiameter i) = Some tube ->
                           wallThicknesses tube <> []) :
  let ladder := getAvailableThicknesses (ci_tubeDiameter i) in
  let target := minimumThickness r * 1.2 in
  exists t,
    recommendationThickness r = Some t /\
    In t ladder /\
    ((exists u, In u ladder /\ target <= IZR u) ->
     target <= IZR t /\ minimumThickness r <= IZR t /\
     forall u, In u ladder -> target <= IZR u -> (t <= u)%Z) /\
    ((forall u, In u ladder -> IZR u < target) ->
     forall u, In u ladder -> (u <= t)%Z).
Proof.
  intros ladder target. subst ladder target.
  destruct (calculateCondensation_calculated i r Hres) as (Hm & _ & Hrec).
  destruct (availableThicknesses_applicable _ Hstock) as [Heq Hne].
  rewrite <- Heq, Hrec.
  apply recommendedThickness_from_ladder; [|exact Hne].
  exact (minimum_thickness_positive _ _ _ _ _ _ _ Hm).
Qed.

(** ** A calculation on the 6 mm copper tube

    Ambient 25, medium -5, relative humidity 95, h = 9, tube of 6 mm,
    whose stocked thicknesses are 6, 9 and 13. *)

Lemma Rdiv_gt_bound (c n d : R) : 0 < d -> c * d < n -> c < n / d.
Proof.
  intros Hd H. apply (Rmult_lt_reg_r d); [exact Hd|].
  unfold Rdiv. rewrite Rmult_assoc, Rinv_l by lra. lra.
Qed.

Lemma Rdiv_lt_bound (c n d : R) : 0 < d -> n < c * d -> n / d < c.
Proof.
  intros Hd H. apply (Rmult_lt_reg_r d); [exact Hd|].
  unfold Rdiv. rewrite Rmult_assoc, Rinv_l by lra. lra.
Qed.

Lemma dew_point_25_95 : 24.1 < calculateDewPoint 25 95 < 24.2.
Proof.
  unfold calculateDewPoint, calculateDewPointMagnus, Math_log. cbn.
  pose proof (ln_le_minus_1 (95 / 100) ltac:(lra)) as Hup.
  pose proof (ln_ge_1_minus_inv (95 / 100) ltac:(lra)) as Hlo.
  replace (/ (95 / 100)) with (100 / 95) in Hlo by lra.
  set (g := ln (95 / 100)) in *.
  split.
  - apply Rdiv_gt_bound; lra.
  - apply Rdiv_lt_bound; lra.
Qed.

Lemma findTube_6 :
  findTube 6
  = Some (mkTubeSize copper "DN8" 6 [(6, 486); (9, 342); (13, 216)]%Z).
Proof.
  unfold findTube, ALL_TUBE_SIZES. cbn [find mm]. decide_cmp. reflexivity.
Qed.

Lemma availableThicknesses_6 : availableThicknesses 6 = [6; 9; 13]%Z.
Proof. unfold availableThicknesses. rewrite findTube_6. reflexivity. Qed.

(** On this tube no thickness up to 13 mm keeps the surface at the dew
    point of the scenario plus the margin. *)
Lemma tube_6_criterion_fails (t : R) :
  0 < t <= 13 ->
  ~ surfaceCriterion 6 25 (-5) (calculateDewPoint 25 95) 0.035 9 t.
Proof.
  intros [Ht Hle]. unfold surfaceCriterion.
  pose proof dew_point_25_95 as [Hdew _].
  pose proof (surfaceTempAt_cold_upper (6 / 2 / 1000) 0.035 9 25 (-5) t
                ltac:(lra) ltac:(lra) ltac:(lra) Ht ltac:(lra)) as Hup.
  assert (Hden : 0 < 0.035 + 9 * (6 / 2 / 1000 + t / 1000)
                           * (t / 1000 / (6 / 2 / 1000)) <= 0.66).
  { replace (t / 1000 / (6 / 2 / 1000)) with (t / 3) by lra. nra. }
  set (D := 0.035 + 9 * (6 / 2 / 1000 + t / 1000)
                   * (t / 1000 / (6 / 2 / 1000))) in *.
  assert (Hfrac : 1.05 / 0.66 <= (25 - -5) * 0.035 / D).
  { unfold Rdiv. replace ((25 - -5) * 0.035) with 1.05 by lra.
    apply Rmult_le_compat_l; [lra|].
    apply Rinv_le_contravar; lra. }
  lra.
Qed.

(** The calculation produces a result, and its minimum thickness is
    above 13 mm. *)
Lemma tube_6_calculated :
  exists r, calculateCondensation tube6Inputs = Calculated r /\
            13 < minimumThickness r.
Proof.
  pose proof dew_point_25_95 as [Hlo Hhi].
  assert (Hv : validatedInput 6 25 (calculateDewPoint 25 95) 9)
    by (unfold validatedInput; lra).
  unfold calculateCondensation, tube6Inputs. cbn [ci_relativeHumidity ci_h
    ci_ambientTemp ci_mediumTemp ci_tubeDiameter ci_material].
  rewrite (proj2 (leb_false 95 0)), (proj2 (gtb_false 95 100)),
    (proj2 (leb_false 9 0)) by lra.
  cbn [orb]. unfold calculateMinimumThickness.
  destruct (minimum_thickness_scan 6 25 (-5) _ "ROKAFLEX ST" 9 0.035 Hv
              scenarioA_meanLambda)
    as [(k & Hk & _ & Hacc & Heq) | [_ Heq]]; rewrite Heq; cbn [fst].
  - eexists. split; [reflexivity|]. cbn [minimumThickness].
    destruct (Rle_dec (0.1 + 0.1 * INR k) 13) as [Hle | Hgt]; [|lra].
    exfalso. apply (tube_6_criterion_fails (0.1 + 0.1 * INR k)); [|exact Hacc].
    pose proof (pos_INR k). lra.
  - eexists. split; [reflexivity|]. cbn [minimumThickness]. lra.
Qed.

Lemma recommendedThickness_6_above_13 (minThickness : R) :
  13 < minThickness -> recommendedThickness minThickness 6 = Some 13%Z.
Proof.
  intros H. unfold recommendedThickness, nominalThickness. cbv zeta.
  rewrite availableThicknesses_6.
  assert (Hn : (13 < Zceil (minThickness * 1.2))%Z).
  { apply lt_IZR. pose proof (Zceil_bound (minThickness * 1.2)). lra. }
  cbn [find].
  rewrite !(proj2 (Z.leb_gt _ _)) by lia. reflexivity.
Qed.

(** C3 as stated fails: the calculation on the 6 mm tube produces a
    result whose recommended thickness, 13 mm, is the largest stocked
    one and is below the computed minimum thickness. *)
Lemma recommended_below_minimum :
  match calculateCondensation tube6Inputs with
  | Calculated r =>
      recommendationThickness r = Some 13%Z /\
      In 13%Z (getAvailableThicknesses 6) /\
      IZR 13 < minimumThickness r
  | _ => False
  end.
Proof.
  destruct tube_6_calculated as (r & Hr & Hmin). rewrite Hr.
  destruct (calculateCondensation_calculated _ _ Hr) as (_ & _ & Hrec).
  split; [|split; [|exact Hmin]].
  - rewrite Hrec. apply recommendedThickness_6_above_13. exact Hmin.
  - unfold getAvailableThicknesses. rewrite findTube_6. cbn. tauto.
Qed.

Lemma recommended_thickness_on_ladder_witness :
  exists r t,
    calculateCondensation tube6Inputs = Calculated r /\
    recommendationThickness r = Some t /\
    In t (getAvailableThicknesses 6).
Proof.
  destruct tube_6_calculated as (r & Hr & _).
  assert (Hstock : forall tube, findTube (ci_tubeDiameter tube6Inputs)
                                = Some tube -> wallThicknesses tube <> []).
  { cbn [tube6Inputs ci_tubeDiameter]. rewrite findTube_6.
    intros tube [= <-]. discriminate. }
  destruct (recommended_thickness_on_ladder tube6Inputs r Hr Hstock)
    as (t & Ht & Hin & _).
  exists r, t. repeat split; assumption.
Defined.

(** The tubes with an empty stock table: [getAvailableThicknesses] falls
    back to the default ladder for them, the condensation calculator
    selects from an empty ladder and recommends nothing. *)
Lemma empty_stock_table_no_recommendation (minThickness : R) :
  getAvailableThicknesses 10.2 = defaultThicknesses /\
  availableThicknesses 10.2 = [] /\
  recommendedThickness minThickness 10.2 = None.
Proof.
  assert (H : findTube 10.2 = Some (mkTubeSize steel "DN6" 10.2 [])).
  { unfold findTube, ALL_TUBE_SIZES. cbn [find mm]. decide_cmp. reflexivity. }
  unfold getAvailableThicknesses, recommendedThickness, availableThicknesses.
  rewrite H. repeat split; reflexivity.
Qed.

(** * Further properties of the engine *)

(** ** Heat loss through a pipe *)

Lemma Rmult4_pos (a b c d : R) :
  0 < a -> 0 < b -> 0 < c -> 0 < d -> 0 < a * b * c * d.
Proof.
  intros Ha Hb Hc Hd.
  apply Rmult_lt_0_compat; [|exact Hd].
  apply Rmult_lt_0_compat; [|exact Hc].
  apply Rmult_lt_0_compat; assumption.
Qed.

Lemma alphaRejected_false (alpha : option R) :
  alphaRejected alpha = false <-> (forall a, alpha = Some a -> 0 < a).
Proof.
  unfold alphaRejected. destruct alpha as [a|].
  - rewrite leb_false. split.
    + intros H b [= <-]. exact H.
    + intros H. apply H. reflexivity.
  - split; [intros _ a; discriminate | reflexivity].
Qed.

Lemma whenAlpha_nonneg (alpha : option R) (f : R -> R) :
  (forall a, alpha = Some a -> 0 < a) ->
  (forall a, 0 < a -> 0 < f a) ->
  0 <= whenAlpha alpha f.
Proof.
  intros Ha Hf. unfold whenAlpha. destruct alpha as [a|]; [|lra].
  destruct (eqb a 0); [lra|].
  left. apply Hf. apply Ha. reflexivity.
Qed.

(** The three resistances of a valid pipe: the film inside is not
    negative, the insulation and the film outside are positive. *)
Lemma pipe_resistances (p : HeatLossPipeParams) :
  validPipe p ->
  0 <= whenAlpha (hlp_alpha p)
         (fun alpha => 1 / (alpha * Math_PI * hlp_d p * hlp_L p)) /\
  0 < Math_log (hlp_D p / hlp_d p) / (2 * Math_PI * hlp_lambda p * hlp_L p) /\
  0 < 1 / (hlp_h p * Math_PI * hlp_D p * hlp_L p).
Proof.
  intros (Hd & HD & HL & Hlam & Hh & Ha).
  pose proof PI_RGT_0 as Hpi. unfold Math_PI, Math_log.
  split; [|split].
  - apply whenAlpha_nonneg; [exact Ha|].
    intros a Hpos. apply Rdiv_lt_0_compat; [lra|].
    apply Rmult4_pos; assumption.
  - apply Rdiv_lt_0_compat.
    + rewrite <- ln_1. apply ln_increasing; [lra|].
      apply Rdiv_gt_bound; lra.
    + apply Rmult4_pos; lra.
  - apply Rdiv_lt_0_compat; [lra|].
    apply Rmult4_pos; lra.
Qed.

Lemma calculateHeatLossPipe_valid (p : HeatLossPipeParams) :
  validPipe p ->
  calculateHeatLossPipe p
  = Returns
      ((hlp_Ti p - hlp_Te p)
       / (whenAlpha (hlp_alpha p)
            (fun alpha => 1 / (alpha * Math_PI * hlp_d p * hlp_L p))
          + Math_log (hlp_D p / hlp_d p)
            / (2 * Math_PI * hlp_lambda p * hlp_L p)
          + 1 / (hlp_h p * Math_PI * hlp_D p * hlp_L p))).
Proof.
  intros (Hd & HD & HL & Hlam & Hh & Ha).
  unfold calculateHeatLossPipe. cbv zeta.
  rewrite (proj2 (leb_false (hlp_D p) (hlp_d p))) by exact HD.
  rewrite (proj2 (leb_false (hlp_L p) 0)) by exact HL.
  rewrite (proj2 (leb_false (hlp_lambda p) 0)) by exact Hlam.
  rewrite (proj2 (leb_false (hlp_h p) 0)) by exact Hh.
  rewrite (proj2 (alphaRejected_false (hlp_alpha p))) by exact Ha.
  reflexivity.
Qed.

(** X1.  On a valid pipe [calculateHeatLossPipe] returns a heat flow in
    the direction of the temperature difference, and smaller in size
    than the flow [h * PI * D * L * (Ti - Te)] that the outer surface
    film alone would let through; it is 0 for equal temperatures. *)
Theorem heat_loss_pipe_bounded (p : HeatLossPipeParams) (Hp : validPipe p) :
  exists Q,
    calculateHeatLossPipe p = Returns Q /\
    let film :=
      hlp_h p * Math_PI * hlp_D p * hlp_L p * (hlp_Ti p - hlp_Te p) in
    (hlp_Te p < hlp_Ti p -> 0 < Q < film) /\
    (hlp_Ti p < hlp_Te p -> film < Q < 0) /\
    (hlp_Ti p = hlp_Te p -> Q = 0).
Proof.
  eexists. split; [apply calculateHeatLossPipe_valid; exact Hp|].
  destruct (pipe_resistances p Hp) as (Ha & Hi & Hc).
  destruct Hp as (Hd & HD & HL & Hlam & Hh & _).
  pose proof PI_RGT_0 as Hpi. unfold Math_PI in *.
  set (Ra := whenAlpha _ _) in *.
  set (Ri := Math_log _ / _) in *.
  assert (Hk : 0 < hlp_h p * PI * hlp_D p * hlp_L p).
  { apply Rmult4_pos; lra. }
  set (k := hlp_h p * PI * hlp_D p * hlp_L p) in *.
  assert (Hrt : 0 < Ra + Ri + 1 / k) by lra.
  assert (Hkr : 1 < k * (Ra + Ri + 1 / k)).
  { replace (k * (Ra + Ri + 1 / k)) with (k * (Ra + Ri) + 1)
      by (field; lra).
    assert (0 < k * (Ra + Ri)) by (apply Rmult_lt_0_compat; lra). lra. }
  cbv zeta. split; [|split].
  - intros Hdt. split.
    + apply Rdiv_lt_0_compat; lra.
    + apply Rdiv_lt_bound; [exact Hrt|]. nra.
  - intros Hdt. split.
    + apply Rdiv_gt_bound; [exact Hrt|]. nra.
    + apply Rdiv_lt_bound; [exact Hrt|]. lra.
  - intros ->. unfold Rdiv. lra.
Qed.

Lemma warmPipe_valid : validPipe warmPipe.
Proof.
  unfold validPipe, warmPipe. cbn.
  repeat split; try lra. intros a. discriminate.
Qed.

Lemma heat_loss_pipe_bounded_witness :
  exists Q,
    calculateHeatLossPipe warmPipe = Returns Q /\
    let film :=
      hlp_h warmPipe * Math_PI * hlp_D warmPipe * hlp_L warmPipe
      * (hlp_Ti warmPipe - hlp_Te warmPipe) in
    (hlp_Te warmPipe < hlp_Ti warmPipe -> 0 < Q < film) /\
    (hlp_Ti warmPipe < hlp_Te warmPipe -> film < Q < 0) /\
    (hlp_Ti warmPipe = hlp_Te warmPipe -> Q = 0).
Proof.
  apply (heat_loss_pipe_bounded warmPipe). exact warmPipe_valid.
Defined.

(** The surface temperature of a valid pipe in closed form: the film
    outside carries the part [1 / ((R_alpha + R_ins) * k + 1)] of the
    temperature difference, [k] being [h * PI * D * L]. *)
Lemma pipeSurfaceTemperature_valid (T_amb : R) (p : HeatLossPipeParams) :
  validPipe p ->
  pipeSurfaceTemperature T_amb p
  = Returns
      (T_amb
       + (hlp_Ti p - hlp_Te p)
         / ((whenAlpha (hlp_alpha p)
               (fun alpha => 1 / (alpha * Math_PI * hlp_d p * hlp_L p))
             + Math_log (hlp_D p / hlp_d p)
               / (2 * Math_PI * hlp_lambda p * hlp_L p))
            * (hlp_h p * Math_PI * hlp_D p * hlp_L p) + 1)).
Proof.
  intros Hp. unfold pipeSurfaceTemperature.
  rewrite (calculateHeatLossPipe_valid p Hp).
  unfold calculateSurfaceTemperature.
  cbn [st_T_amb st_Q st_h st_A st_D st_L]. f_equal.
  destruct (pipe_resistances p Hp) as (Ha & Hi & Hc).
  destruct Hp as (Hd & HD & HL & Hlam & Hh & _).
  pose proof PI_RGT_0 as Hpi. unfold Math_PI in *.
  set (Ra := whenAlpha _ _) in *.
  set (Ri := Math_log _ / _) in *.
  assert (Hk : 0 < hlp_h p * PI * hlp_D p * hlp_L p)
    by (apply Rmult4_pos; lra).
  replace (hlp_h p * (PI * hlp_D p * hlp_L p))
    with (hlp_h p * PI * hlp_D p * hlp_L p) by ring.
  set (k := hlp_h p * PI * hlp_D p * hlp_L p) in *.
  assert (0 < (Ra + Ri) * k) by (apply Rmult_lt_0_compat; lra).
  field. split; lra.
Qed.

(** X2.  The surface temperature computed from the heat loss of a valid
    pipe lies strictly between the air temperature [T_amb] and
    [T_amb + (Ti - Te)]; when [T_amb] is the outer temperature [Te] of
    the heat-loss calculation, strictly between [Te] and [Ti]. *)
Theorem pipe_surface_between (T_amb : R) (p : HeatLossPipeParams)
    (Hp : validPipe p) :
  exists T,
    pipeSurfaceTemperature T_amb p = Returns T /\
    (hlp_Te p < hlp_Ti p -> T_amb < T < T_amb + (hlp_Ti p - hlp_Te p)) /\
    (hlp_Ti p < hlp_Te p -> T_amb + (hlp_Ti p - hlp_Te p) < T < T_amb) /\
    (hlp_Ti p = hlp_Te p -> T = T_amb).
Proof.
  eexists. split; [apply pipeSurfaceTemperature_valid; exact Hp|].
  destruct (pipe_resistances p Hp) as (Ha & Hi & Hc).
  destruct Hp as (Hd & HD & HL & Hlam & Hh & _).
  pose proof PI_RGT_0 as Hpi. unfold Math_PI in *.
  set (Ra := whenAlpha _ _) in *.
  set (Ri := Math_log _ / _) in *.
  assert (Hk : 0 < hlp_h p * PI * hlp_D p * hlp_L p)
    by (apply Rmult4_pos; lra).
  set (k := hlp_h p * PI * hlp_D p * hlp_L p) in *.
  assert (Hg : 0 < (Ra + Ri) * k) by (apply Rmult_lt_0_compat; lra).
  set (g := (Ra + Ri) * k + 1) in *.
  assert (Hg1 : 1 < g) by (unfold g; lra).
  set (dT := hlp_Ti p - hlp_Te p) in *.
  split; [|split].
  - intros Hdt. assert (0 < dT) by (unfold dT; lra).
    assert (0 < dT / g) by (apply Rdiv_lt_0_compat; lra).
    assert (dT / g < dT) by (apply Rdiv_lt_bound; nra).
    lra.
  - intros Hdt. assert (dT < 0) by (unfold dT; lra).
    assert (dT / g < 0) by (apply Rdiv_lt_bound; lra).
    assert (dT < dT / g) by (apply Rdiv_gt_bound; nra).
    lra.
  - intros Heq. assert (E : dT = 0) by (unfold dT; lra).
    rewrite E. unfold Rdiv. lra.
Qed.

Lemma pipe_surface_between_witness :
  exists T,
    pipeSurfaceTemperature 20 warmPipe = Returns T /\
    (hlp_Te warmPipe < hlp_Ti warmPipe ->
     20 < T < 20 + (hlp_Ti warmPipe - hlp_Te warmPipe)) /\
    (hlp_Ti warmPipe < hlp_Te warmPipe ->
     20 + (hlp_Ti warmPipe - hlp_Te warmPipe) < T < 20) /\
    (hlp_Ti warmPipe = hlp_Te warmPipe -> T = 20).
Proof.
  apply (pipe_surface_between 20 warmPipe). exact warmPipe_valid.
Defined.

Lemma atTemperatures_valid (p : HeatLossPipeParams) (Ti Te : R) :
  validPipe p -> validPipe (atTemperatures p Ti Te).
Proof. intros H. exact H. Qed.

(** X3.  The transmittance computed from the heat loss of a valid pipe
    whose two temperatures differ by at least 1e-10 is positive, gives
    the heat loss back as [K * L * (Ti - Te)], and is the same at any
    other such pair of temperatures: it depends on the pipe only.  For
    temperatures closer than 1e-10 it is 0. *)
Theorem pipe_transmittance_round_trip (p : HeatLossPipeParams)
    (Hp : validPipe p) :
  exists Q K,
    calculateHeatLossPipe p = Returns Q /\
    pipeTransmittance p = Returns K /\
    (1e-10 <= Rabs (hlp_Ti p - hlp_Te p) ->
     0 < K /\ K * hlp_L p * (hlp_Ti p - hlp_Te p) = Q /\
     forall Ti Te, 1e-10 <= Rabs (Ti - Te) ->
       pipeTransmittance (atTemperatures p Ti Te) = Returns K) /\
    (Rabs (hlp_Ti p - hlp_Te p) < 1e-10 -> K = 0).
Proof.
  assert (Hform : forall Ti Te,
    pipeTransmittance (atTemperatures p Ti Te)
    = Returns
        (if ltb (Rabs (Ti - Te)) 1e-10 then 0
         else / (hlp_L p
                 * (whenAlpha (hlp_alpha p)
                      (fun alpha => 1 / (alpha * Math_PI * hlp_d p * hlp_L p))
                    + Math_log (hlp_D p / hlp_d p)
                      / (2 * Math_PI * hlp_lambda p * hlp_L p)
                    + 1 / (hlp_h p * Math_PI * hlp_D p * hlp_L p))))).
  { intros Ti Te. unfold pipeTransmittance.
    rewrite (calculateHeatLossPipe_valid _ (atTemperatures_valid p Ti Te Hp)).
    cbn [atTemperatures hlp_Ti hlp_Te hlp_d hlp_D hlp_L hlp_lambda hlp_h
         hlp_alpha].
    unfold calculateThermalTransmittancePipe, Math_abs. cbv zeta.
    destruct (pipe_resistances p Hp) as (Ha & Hi & Hc).
    destruct Hp as (Hd & HD & HL & Hlam & Hh & _).
    rewrite (proj2 (leb_false (hlp_L p) 0)) by exact HL.
    rewrite orb_false_r.
    destruct (ltb (Rabs (Ti - Te)) 1e-10) eqn:E; [reflexivity|].
    apply ltb_false in E. f_equal.
    assert (Ti - Te <> 0).
    { intros Hz. rewrite Hz, Rabs_R0 in E. lra. }
    set (Rt := whenAlpha _ _ + _ + _) in *.
    assert (HRt : 0 < Rt) by (unfold Rt; lra).
    field. repeat split; lra. }
  pose proof (Hform (hlp_Ti p) (hlp_Te p)) as Hself.
  assert (Eself : atTemperatures p (hlp_Ti p) (hlp_Te p) = p)
    by (destruct p; reflexivity).
  rewrite Eself in Hself.
  eexists. eexists.
  split; [apply calculateHeatLossPipe_valid; exact Hp|].
  split; [exact Hself|].
  destruct (pipe_resistances p Hp) as (Ha & Hi & Hc).
  pose proof Hp as (Hd & HD & HL & Hlam & Hh & _).
  set (Rt := whenAlpha _ _ + _ + _) in *.
  assert (HRt : 0 < Rt) by (unfold Rt; lra).
  split.
  - intros Hdt. rewrite (proj2 (ltb_false _ _)) by exact Hdt.
    split; [|split].
    + apply Rinv_0_lt_compat. apply Rmult_lt_0_compat; assumption.
    + field. lra.
    + intros Ti Te Hdt'. rewrite Hform.
      rewrite (proj2 (ltb_false _ _)) by exact Hdt'. reflexivity.
  - intros Hdt. rewrite (proj2 (ltb_true _ _)) by exact Hdt. reflexivity.
Qed.

Lemma pipe_transmittance_round_trip_witness :
  exists Q K,
    calculateHeatLossPipe warmPipe = Returns Q /\
    pipeTransmittance warmPipe = Returns K /\
    (1e-10 <= Rabs (hlp_Ti warmPipe - hlp_Te warmPipe) ->
     0 < K /\ K * hlp_L warmPipe * (hlp_Ti warmPipe - hlp_Te warmPipe) = Q /\
     forall Ti Te, 1e-10 <= Rabs (Ti - Te) ->
       pipeTransmittance (atTemperatures warmPipe Ti Te) = Returns K) /\
    (Rabs (hlp_Ti warmPipe - hlp_Te warmPipe) < 1e-10 -> K = 0).
Proof.
  apply (pipe_transmittance_round_trip warmPipe). exact warmPipe_valid.
Defined.

(** ** Heat loss through a flat surface *)

Lemma calculateHeatLossSheet_valid (p : HeatLossSheetParams) :
  validSheet p ->
  calculateHeatLossSheet p
  = Returns
      ((hls_Ti p - hls_Te p)
       / (whenAlpha (hls_alpha p) (fun alpha => 1 / (alpha * hls_A p))
          + hls_s p / (hls_lambda p * hls_A p)
          + 1 / (hls_h p * hls_A p))).
Proof.
  intros (HA & Hs & Hlam & Hh & Ha).
  unfold calculateHeatLossSheet. cbv zeta.
  rewrite (proj2 (leb_false (hls_A p) 0)) by exact HA.
  rewrite (proj2 (leb_false (hls_s p) 0)) by exact Hs.
  rewrite (proj2 (leb_false (hls_lambda p) 0)) by exact Hlam.
  rewrite (proj2 (leb_false (hls_h p) 0)) by exact Hh.
  rewrite (proj2 (alphaRejected_false (hls_alpha p))) by exact Ha.
  reflexivity.
Qed.

(** X4.  On a valid flat surface more insulation means less heat flow:
    with a thickness [s'] above the thickness of [p] and everything else
    unchanged, [calculateHeatLossSheet] returns a flow of the same
    direction and strictly smaller size (both flows are 0 at equal
    temperatures). *)
Theorem heat_loss_sheet_decreases_with_thickness (p : HeatLossSheetParams)
    (s' : R) (Hp : validSheet p) (Hs' : hls_s p < s') :
  exists Q Q',
    calculateHeatLossSheet p = Returns Q /\
    calculateHeatLossSheet (withThickness p s') = Returns Q' /\
    (hls_Te p < hls_Ti p -> 0 < Q' < Q) /\
    (hls_Ti p < hls_Te p -> Q < Q' < 0) /\
    (hls_Ti p = hls_Te p -> Q = 0 /\ Q' = 0).
Proof.
  assert (Hp' : validSheet (withThickness p s')).
  { destruct Hp as (HA & Hs & Hlam & Hh & Ha).
    unfold validSheet, withThickness. cbn. repeat split; try assumption. lra. }
  eexists. eexists.
  split; [apply calculateHeatLossSheet_valid; exact Hp|].
  split; [apply calculateHeatLossSheet_valid; exact Hp'|].
  cbn [withThickness hls_Ti hls_Te hls_A hls_s hls_lambda hls_h hls_alpha].
  destruct Hp as (HA & Hs & Hlam & Hh & Ha).
  assert (HRa : 0 <= whenAlpha (hls_alpha p)
                       (fun alpha => 1 / (alpha * hls_A p))).
  { apply whenAlpha_nonneg; [exact Ha|]. intros a Hpos.
    apply Rdiv_lt_0_compat; [lra|]. apply Rmult_lt_0_compat; assumption. }
  set (Ra := whenAlpha _ _) in *.
  assert (HlA : 0 < hls_lambda p * hls_A p)
    by (apply Rmult_lt_0_compat; assumption).
  assert (Hc : 0 < 1 / (hls_h p * hls_A p)).
  { apply Rdiv_lt_0_compat; [lra|]. apply Rmult_lt_0_compat; assumption. }
  set (Rc := 1 / (hls_h p * hls_A p)) in *.
  assert (Hi : 0 < hls_s p / (hls_lambda p * hls_A p))
    by (apply Rdiv_lt_0_compat; assumption).
  assert (Hii : hls_s p / (hls_lambda p * hls_A p)
                < s' / (hls_lambda p * hls_A p)).
  { unfold Rdiv. apply Rmult_lt_compat_r; [|exact Hs'].
    apply Rinv_0_lt_compat. exact HlA. }
  set (Ri := hls_s p / _) in *. set (Ri' := s' / _) in *.
  set (dT := hls_Ti p - hls_Te p).
  assert (Hinv : / (Ra + Ri' + Rc) < / (Ra + Ri + Rc)).
  { apply Rinv_lt_contravar; [|lra]. apply Rmult_lt_0_compat; lra. }
  assert (Hpos : 0 < / (Ra + Ri' + Rc)) by (apply Rinv_0_lt_compat; lra).
  unfold Rdiv. split; [|split].
  - intros Hdt. assert (0 < dT) by (unfold dT; lra). nra.
  - intros Hdt. assert (dT < 0) by (unfold dT; lra). nra.
  - intros Heq. assert (E : dT = 0) by (unfold dT; lra). rewrite E. lra.
Qed.

Lemma warmSheet_valid : validSheet warmSheet.
Proof.
  unfold validSheet, warmSheet. cbn.
  repeat split; try lra. intros a [= <-]. lra.
Qed.

Lemma heat_loss_sheet_decreases_with_thickness_witness :
  exists Q Q',
    calculateHeatLossSheet warmSheet = Returns Q /\
    calculateHeatLossSheet (withThickness warmSheet 0.025) = Returns Q' /\
    (hls_Te warmSheet < hls_Ti warmSheet -> 0 < Q' < Q) /\
    (hls_Ti warmSheet < hls_Te warmSheet -> Q < Q' < 0) /\
    (hls_Ti warmSheet = hls_Te warmSheet -> Q = 0 /\ Q' = 0).
Proof.
  apply (heat_loss_sheet_decreases_with_thickness warmSheet 0.025).
  - exact warmSheet_valid.
  - cbn. lra.
Defined.

(** ** Surface temperature and insulation thickness *)

(** The resistance inside the outer film, counted in units of the film
    resistance, grows with the outer diameter. *)
Lemma pipe_film_factor_increasing (Ra d lam L h D1 D2 : R) :
  0 <= Ra -> 0 < d -> 0 < lam -> 0 < L -> 0 < h -> d < D1 -> D1 < D2 ->
  0 < (Ra + ln (D1 / d) / (2 * PI * lam * L)) * (h * PI * D1 * L)
  < (Ra + ln (D2 / d) / (2 * PI * lam * L)) * (h * PI * D2 * L).
Proof.
  intros HRa Hd Hlam HL Hh HD1 HD2.
  pose proof PI_RGT_0 as Hpi.
  assert (Hden : 0 < 2 * PI * lam * L) by (apply Rmult4_pos; lra).
  assert (Hl1 : 0 < ln (D1 / d)).
  { rewrite <- ln_1. apply ln_increasing; [lra|].
    apply Rdiv_gt_bound; lra. }
  assert (Hl2 : ln (D1 / d) < ln (D2 / d)).
  { apply ln_increasing.
    - apply Rdiv_lt_0_compat; lra.
    - unfold Rdiv. apply Rmult_lt_compat_r; [|exact HD2].
      apply Rinv_0_lt_compat. exact Hd. }
  assert (Hi1 : 0 < ln (D1 / d) / (2 * PI * lam * L))
    by (apply Rdiv_lt_0_compat; assumption).
  assert (Hi2 : ln (D1 / d) / (2 * PI * lam * L)
                < ln (D2 / d) / (2 * PI * lam * L)).
  { unfold Rdiv. apply Rmult_lt_compat_r; [|exact Hl2].
    apply Rinv_0_lt_compat. exact Hden. }
  assert (Hk1 : 0 < h * PI * D1 * L) by (apply Rmult4_pos; lra).
  assert (Hk2 : h * PI * D1 * L < h * PI * D2 * L).
  { apply Rmult_lt_compat_r; [exact HL|].
    apply Rmult_lt_compat_l; [|exact HD2].
    apply Rmult_lt_0_compat; lra. }
  set (i1 := ln (D1 / d) / _) in *. set (i2 := ln (D2 / d) / _) in *.
  set (k1 := h * PI * D1 * L) in *. set (k2 := h * PI * D2 * L) in *.
  split.
  - apply Rmult_lt_0_compat; lra.
  - apply Rle_lt_trans with ((Ra + i1) * k2).
    + apply Rmult_le_compat_l; lra.
    + apply Rmult_lt_compat_r; lra.
Qed.

Lemma pipeSurfaceTemperature_monotone (T_amb : R) (p : HeatLossPipeParams)
    (D' : R) (Hp : validPipe p) (HD' : hlp_D p < D') :
  exists T T',
    pipeSurfaceTemperature T_amb p = Returns T /\
    pipeSurfaceTemperature T_amb (withOuterDiameter p D') = Returns T' /\
    (hlp_Ti p < hlp_Te p -> T < T' < T_amb) /\
    (hlp_Te p < hlp_Ti p -> T_amb < T' < T).
Proof.
  assert (Hp' : validPipe (withOuterDiameter p D')).
  { destruct Hp as (Hd & HD & HL & Hlam & Hh & Ha).
    unfold validPipe, withOuterDiameter. cbn.
    repeat split; try assumption. lra. }
  eexists. eexists.
  split; [apply pipeSurfaceTemperature_valid; exact Hp|].
  split; [apply pipeSurfaceTemperature_valid; exact Hp'|].
  cbn [withOuterDiameter hlp_Ti hlp_Te hlp_d hlp_D hlp_L hlp_lambda hlp_h
       hlp_alpha].
  destruct (pipe_resistances p Hp) as (HRa & _ & _).
  destruct Hp as (Hd & HD & HL & Hlam & Hh & Ha).
  unfold Math_PI, Math_log in *.
  set (Ra := whenAlpha _ _) in *.
  pose proof (pipe_film_factor_increasing Ra (hlp_d p) (hlp_lambda p)
                (hlp_L p) (hlp_h p) (hlp_D p) D' HRa Hd Hlam HL Hh HD HD')
    as [Hg1 Hg2].
  set (g1 := (Ra + ln (hlp_D p / hlp_d p) / _) * _) in *.
  set (g2 := (Ra + ln (D' / hlp_d p) / _) * _) in *.
  set (dT := hlp_Ti p - hlp_Te p).
  assert (Hinv : / (g2 + 1) < / (g1 + 1)).
  { apply Rinv_lt_contravar; [|lra]. apply Rmult_lt_0_compat; lra. }
  assert (Hpos : 0 < / (g2 + 1)) by (apply Rinv_0_lt_compat; lra).
  unfold Rdiv. split.
  - intros Hdt. assert (dT < 0) by (unfold dT; lra). nra.
  - intros Hdt. assert (0 < dT) by (unfold dT; lra). nra.
Qed.

(** X5.  On a valid pipe a larger outer diameter (more insulation on
    the same pipe) brings the computed surface temperature strictly
    closer to the air temperature [T_amb], from the side of the medium:
    upwards for a cold medium, downwards for a warm one. *)
Theorem pipe_surface_approaches_ambient (T_amb : R) (p : HeatLossPipeParams)
    (D' : R) (Hp : validPipe p) (HD' : hlp_D p < D') :
  exists T T',
    pipeSurfaceTemperature T_amb p = Returns T /\
    pipeSurfaceTemperature T_amb (withOuterDiameter p D') = Returns T' /\
    (hlp_Ti p < hlp_Te p -> T < T' < T_amb) /\
    (hlp_Te p < hlp_Ti p -> T_amb < T' < T).
Proof. exact (pipeSurfaceTemperature_monotone T_amb p D' Hp HD'). Qed.

Lemma pipe_surface_approaches_ambient_witness :
  exists T T',
    pipeSurfaceTemperature 20 warmPipe = Returns T /\
    pipeSurfaceTemperature 20 (withOuterDiameter warmPipe 0.051)
    = Returns T' /\
    (hlp_Ti warmPipe < hlp_Te warmPipe -> T < T' < 20) /\
    (hlp_Te warmPipe < hlp_Ti warmPipe -> 20 < T' < T).
Proof.
  apply (pipe_surface_approaches_ambient 20 warmPipe 0.051).
  - exact warmPipe_valid.
  - cbn. lra.
Defined.

(** ** The anti-condensation search *)

Lemma searchPipe_valid (params : AntiCondensationParams) (s : R) :
  validSearch params -> 0 < s -> validPipe (searchPipe params s).
Proof.
  intros (Hd & Hlam & Hh & Ha) Hs. unfold validPipe, searchPipe. cbn.
  repeat split; try assumption; lra.
Qed.

Lemma antiCondensationSurface_eq (params : AntiCondensationParams) (s : R) :
  antiCondensationSurface params s
  = pipeSurfaceTemperature (ac_T_amb params) (searchPipe params s).
Proof. reflexivity. Qed.

Lemma antiCondensationSurface_returns (params : AntiCondensationParams)
    (s : R) :
  validSearch params -> 0 < s ->
  exists T, antiCondensationSurface params s = Returns T.
Proof.
  intros Hv Hs. rewrite antiCondensationSurface_eq.
  rewrite (pipeSurfaceTemperature_valid _ _ (searchPipe_valid _ _ Hv Hs)).
  eexists. reflexivity.
Qed.

(** For a medium colder than the outer temperature the surface
    temperature of the loop body grows with the thickness. *)
Lemma antiCondensationSurface_increasing (params : AntiCondensationParams)
    (s1 s2 T1 T2 : R) :
  validSearch params -> ac_Ti params < ac_Te params ->
  0 < s1 -> s1 < s2 ->
  antiCondensationSurface params s1 = Returns T1 ->
  antiCondensationSurface params s2 = Returns T2 ->
  T1 < T2.
Proof.
  intros Hv Hcold Hs1 Hs2 E1 E2.
  rewrite antiCondensationSurface_eq in E1, E2.
  destruct (pipeSurfaceTemperature_monotone (ac_T_amb params)
              (searchPipe params s1) (ac_d params + 2 * s2)
              (searchPipe_valid _ _ Hv Hs1))
    as (T & T' & HT & HT' & Hc & _).
  { cbn. lra. }
  change (withOuterDiameter (searchPipe params s1) (ac_d params + 2 * s2))
    with (searchPipe params s2) in HT'.
  rewrite E1 in HT. rewrite E2 in HT'.
  injection HT as <-. injection HT' as <-.
  apply Hc. exact Hcold.
Qed.

(** The loop from [s0] ends within [m + 1] iterations when fewer than
    [m] steps fit between [s0] and the bound, and it ends with the
    first thickness whose surface is above the dew point. *)
Lemma antiCondensationLoop_run (params : AntiCondensationParams)
    (maxThickness step T_dew : R) (m : nat) :
  0 < step ->
  forall (fuel : nat) (s0 : R),
    (forall k, exists T,
        antiCondensationSurface params (s0 + INR k * step) = Returns T) ->
    maxThickness - s0 < INR m * step ->
    (m < fuel)%nat ->
    (exists k T,
        s0 + INR k * step <= maxThickness /\
        antiCondensationSurface params (s0 + INR k * step) = Returns T /\
        T_dew < T /\
        (forall j, (j < k)%nat ->
           surfaceNotAbove params T_dew (s0 + INR j * step)) /\
        antiCondensationLoop Rplus fuel params maxThickness step T_dew s0
        = Finished (Some {| acr_thickness := s0 + INR k * step;
                            acr_D := ac_d params + 2 * (s0 + INR k * step);
                            acr_T_sup := T;
                            acr_T_dew := T_dew |})) \/
    ((forall k, s0 + INR k * step <= maxThickness ->
        surfaceNotAbove params T_dew (s0 + INR k * step)) /\
     antiCondensationLoop Rplus fuel params maxThickness step T_dew s0
     = Finished None).
Proof.
  intros Hstep. induction m as [|m IH]; intros fuel s0 Hret Hm Hfuel.
  - destruct fuel as [|fuel]; [lia|]. right. cbn [INR] in Hm.
    cbn [antiCondensationLoop].
    rewrite (proj2 (leb_false s0 maxThickness)) by lra.
    split; [|reflexivity].
    intros k Hk. pose proof (pos_INR k). exfalso. nra.
  - destruct fuel as [|fuel]; [lia|].
    cbn [antiCondensationLoop].
    destruct (leb s0 maxThickness) eqn:Ele.
    2:{ right. split; [|reflexivity]. apply leb_false in Ele.
        intros k Hk. pose proof (pos_INR k). exfalso. nra. }
    apply leb_true in Ele.
    assert (E0 : s0 + INR 0 * step = s0) by (cbn [INR]; lra).
    destruct (Hret 0%nat) as [T0 HT0]. rewrite E0 in HT0. rewrite HT0.
    destruct (gtb T0 T_dew) eqn:Egt.
    + apply gtb_true in Egt. left. exists 0%nat, T0. rewrite E0.
      split; [exact Ele|]. split; [exact HT0|]. split; [exact Egt|].
      split; [intros j Hj; lia | reflexivity].
    + apply gtb_false in Egt.
      assert (Eshift : forall k,
                 s0 + step + INR k * step = s0 + INR (S k) * step).
      { intros k. rewrite S_INR. ring. }
      destruct (IH fuel (s0 + step)) as
        [(k & T & Hk & HT & Hdew & Hbelow & Hrun) | (Hall & Hrun)].
      * intros k. rewrite Eshift. apply Hret.
      * rewrite S_INR in Hm. lra.
      * lia.
      * left. exists (S k), T. rewrite <- Eshift.
        split; [exact Hk|]. split; [exact HT|]. split; [exact Hdew|].
        split; [|exact Hrun].
        intros [|j] Hj.
        -- rewrite E0. exists T0. split; assumption.
        -- rewrite <- Eshift. apply Hbelow. lia.
      * right. split; [|exact Hrun].
        intros [|k] Hk.
        -- rewrite E0. exists T0. split; assumption.
        -- rewrite <- Eshift. apply Hall. rewrite Eshift. exact Hk.
Qed.

Lemma searchFuel_suffices (params : AntiCondensationParams) :
  0 < withDefault 0.001 (ac_step params) ->
  withDefault 0.1 (ac_maxThickness params)
  - withDefault 0.001 (ac_minThickness params)
  < INR (pred (searchFuel params)) * withDefault 0.001 (ac_step params).
Proof.
  intros Hstep. unfold searchFuel. cbn [pred].
  set (step := withDefault 0.001 (ac_step params)) in *.
  set (span := withDefault 0.1 (ac_maxThickness params)
               - withDefault 0.001 (ac_minThickness params)).
  pose proof (Zfloor_bound (span / step)) as [_ Hup].
  set (z := Zfloor (span / step)) in *.
  assert (Hq : span = span / step * step) by (field; lra).
  destruct (Z.le_gt_cases 0 (z + 1)) as [Hz | Hz].
  - rewrite INR_IZR_INZ, Z2Nat.id by exact Hz.
    rewrite plus_IZR. rewrite Hq at 1.
    apply Rmult_lt_compat_r; [exact Hstep | exact Hup].
  - assert (E : Z.to_nat (z + 1) = 0%nat) by lia.
    rewrite E. cbn [INR].
    assert (IZR (z + 1) <= -1) by (apply IZR_le; lia).
    rewrite plus_IZR in H.
    assert (span / step < 0) by lra.
    rewrite Hq. nra.
Qed.

Lemma searchPoint_positive (params : AntiCondensationParams) (k : nat) :
  0 < withDefault 0.001 (ac_minThickness params) ->
  0 < withDefault 0.001 (ac_step params) ->
  0 < searchPoint params k.
Proof.
  intros Hmin Hstep. unfold searchPoint. pose proof (pos_INR k). nra.
Qed.

(** The outcome of a search with a positive start and a positive step,
    run for at least [searchFuel] iterations. *)
Lemma findMinimalAntiCondensationThickness_run
    (params : AntiCondensationParams) (fuel : nat) :
  validSearch params ->
  0 < withDefault 0.001 (ac_minThickness params) ->
  0 < withDefault 0.001 (ac_step params) ->
  (searchFuel params <= fuel)%nat ->
  (exists k T,
      searchPoint params k <= withDefault 0.1 (ac_maxThickness params) /\
      antiCondensationSurface params (searchPoint params k) = Returns T /\
      searchDewPoint params < T /\
      (forall j, (j < k)%nat ->
         surfaceNotAbove params (searchDewPoint params)
           (searchPoint params j)) /\
      findMinimalAntiCondensationThickness fuel params
      = Finished (Some {| acr_thickness := searchPoint params k;
                          acr_D := ac_d params + 2 * searchPoint params k;
                          acr_T_sup := T;
                          acr_T_dew := searchDewPoint params |})) \/
  ((forall k,
      searchPoint params k <= withDefault 0.1 (ac_maxThickness params) ->
      surfaceNotAbove params (searchDewPoint params) (searchPoint params k)) /\
   findMinimalAntiCondensationThickness fuel params = Finished None).
Proof.
  intros Hv Hmin Hstep Hfuel.
  unfold findMinimalAntiCondensationThickness,
    findMinimalAntiCondensationThicknessWith. cbv zeta.
  apply (antiCondensationLoop_run params _ _ _ (pred (searchFuel params))
           Hstep fuel).
  - intros k. apply antiCondensationSurface_returns; [exact Hv|].
    apply (searchPoint_positive params k Hmin Hstep).
  - apply searchFuel_suffices. exact Hstep.
  - unfold searchFuel in *. cbn [pred]. lia.
Qed.

Lemma chilledSearch_valid : validSearch chilledSearch.
Proof.
  unfold validSearch, chilledSearch. cbn.
  repeat split; try lra. intros a. discriminate.
Qed.






(** More iterations do not change the outcome of a loop that ended. *)
Lemma antiCondensationLoop_more_fuel (params : AntiCondensationParams)
    (maxThickness step T_dew : R) (r : option AntiCondensationResult)
    (fuel : nat) :
  forall (fuel' : nat) (s : R),
    (fuel <= fuel')%nat ->
    antiCondensationLoop Rplus fuel params maxThickness step T_dew s
    = Finished r ->
    antiCondensationLoop Rplus fuel' params maxThickness step T_dew s
    = Finished r.
Proof.
  induction fuel as [|fuel IH]; intros fuel' s Hle Hrun.
  - discriminate.
  - destruct fuel' as [|fuel']; [lia|].
    cbn [antiCondensationLoop] in *.
    destruct (leb s maxThickness); [|exact Hrun].
    destruct (antiCondensationSurface params s) as [T|e]; [|exact Hrun].
    destruct (gtb T T_dew); [exact Hrun|].
    apply IH; [lia | exact Hrun].
Qed.

(** X7.  For a medium colder than the outer temperature the thickness
    found by the search is a threshold up to one step: every thickness
    from the one returned on keeps the surface strictly above the dew
    point, and when the scan had to move on from its start, no positive
    thickness up to one step below the one returned does. *)
Theorem anti_condensation_result_is_threshold
    (params : AntiCondensationParams) (fuel : nat)
    (res : AntiCondensationResult)
    (Hv : validSearch params)
    (Hmin : 0 < withDefault 0.001 (ac_minThickness params))
    (Hstep : 0 < withDefault 0.001 (ac_step params))
    (Hcold : ac_Ti params < ac_Te params)
    (Hrun : findMinimalAntiCondensationThickness fuel params
            = Finished (Some res)) :
  acr_T_dew res = searchDewPoint params /\
  (forall s, acr_thickness res <= s ->
     surfaceAbove params (acr_T_dew res) s) /\
  (withDefault 0.001 (ac_minThickness params)
   <= acr_thickness res - withDefault 0.001 (ac_step params) ->
   forall s, 0 < s ->
     s <= acr_thickness res - withDefault 0.001 (ac_step params) ->
     surfaceNotAbove params (acr_T_dew res) s).
Proof.
  set (fuel' := Nat.max fuel (searchFuel params)).
  assert (Hrun' : findMinimalAntiCondensationThickness fuel' params
                  = Finished (Some res)).
  { unfold findMinimalAntiCondensationThickness,
    findMinimalAntiCondensationThicknessWith in *. cbv zeta in *.
    apply (antiCondensationLoop_more_fuel _ _ _ _ _ fuel);
      [unfold fuel'; lia | exact Hrun]. }
  destruct (findMinimalAntiCondensationThickness_run params fuel' Hv Hmin
              Hstep)
    as [(k & T & Hk & HT & Hdew & Hbelow & Heq) | (_ & Heq)];
    [unfold fuel'; lia | | rewrite Heq in Hrun'; discriminate].
  rewrite Heq in Hrun'. injection Hrun' as <-.
  cbn [acr_thickness acr_T_dew].
  pose proof (searchPoint_positive params k Hmin Hstep) as Hpos.
  split; [reflexivity|]. split.
  - intros s Hs. destruct (Req_dec s (searchPoint params k)) as [-> | Hne].
    + exists T. split; assumption.
    + destruct (antiCondensationSurface_returns params s Hv) as [T' HT'];
        [lra|].
      exists T'. split; [exact HT'|].
      assert (T < T'); [|lra].
      apply (antiCondensationSurface_increasing params
               (searchPoint params k) s); try assumption. lra.
  - intros Hmoved s Hs Hle.
    destruct k as [|k].
    { exfalso. unfold searchPoint in Hmoved. cbn [INR] in Hmoved. lra. }
    assert (Eprev : searchPoint params (S k)
                    - withDefault 0.001 (ac_step params)
                    = searchPoint params k).
    { unfold searchPoint. rewrite S_INR. ring. }
    rewrite Eprev in Hle.
    destruct (Hbelow k (Nat.lt_succ_diag_r k)) as (Tk & HTk & Hlow).
    destruct (Req_dec s (searchPoint params k)) as [-> | Hne].
    + exists Tk. split; assumption.
    + destruct (antiCondensationSurface_returns params s Hv Hs) as [T' HT'].
      exists T'. split; [exact HT'|].
      assert (T' < Tk); [|lra].
      apply (antiCondensationSurface_increasing params s
               (searchPoint params k)); try assumption. lra.
Qed.

(** The surface temperature of the loop body without a film inside the
    pipe, with [PI] cancelled. *)
Lemma antiCondensationSurface_closed (params : AntiCondensationParams)
    (s : R) :
  validSearch params -> 0 < s -> ac_alpha params = None ->
  antiCondensationSurface params s
  = Returns
      (ac_T_amb params
       + (ac_Ti params - ac_Te params)
         / (1 + ln ((ac_d params + 2 * s) / ac_d params)
                * (ac_h params * (ac_d params + 2 * s))
                / (2 * ac_lambda params))).
Proof.
  intros Hv Hs Halpha. rewrite antiCondensationSurface_eq.
  rewrite (pipeSurfaceTemperature_valid _ _ (searchPipe_valid _ _ Hv Hs)).
  cbn [searchPipe hlp_Ti hlp_Te hlp_d hlp_D hlp_L hlp_lambda hlp_h hlp_alpha].
  rewrite Halpha. cbn [whenAlpha]. unfold Math_log, Math_PI.
  destruct Hv as (Hd & Hlam & Hh & _).
  pose proof PI_RGT_0 as Hpi.
  assert (Hl : 0 < ln ((ac_d params + 2 * s) / ac_d params)).
  { rewrite <- ln_1. apply ln_increasing; [lra|].
    apply Rdiv_gt_bound; lra. }
  set (L := ln _) in *.
  assert (Hk : 0 < L * (ac_h params * (ac_d params + 2 * s))).
  { apply Rmult_lt_0_compat; [exact Hl|].
    apply Rmult_lt_0_compat; lra. }
  do 2 f_equal. field. repeat split; lra.
Qed.

Lemma chilled_dew_point : 14 < searchDewPoint chilledSearch < 19.
Proof.
  unfold searchDewPoint, calculateDewPointMagnus, Math_log, chilledSearch.
  cbn.
  pose proof (ln_le_minus_1 (60 / 100) ltac:(lra)) as Hup.
  pose proof (ln_ge_1_minus_inv (60 / 100) ltac:(lra)) as Hlo.
  replace (/ (60 / 100)) with (100 / 60) in Hlo by lra.
  set (g := ln (60 / 100)) in *.
  split.
  - apply Rdiv_gt_bound; lra.
  - apply Rdiv_lt_bound; lra.
Qed.

Lemma INR_99 : INR 99 = 99.
Proof. rewrite INR_IZR_INZ. reflexivity. Qed.

(** With 100 mm of insulation the surface of the chilled pipe is above
    the dew point, so its search finds a thickness. *)
Lemma chilledSearch_finds :
  exists res,
    findMinimalAntiCondensationThickness (searchFuel chilledSearch)
      chilledSearch = Finished (Some res).
Proof.
  destruct (findMinimalAntiCondensationThickness_run chilledSearch
              (searchFuel chilledSearch) chilledSearch_valid)
    as [(k & T & _ & _ & _ & _ & Heq) | (Hnone & _)].
  - cbn. lra.
  - cbn. lra.
  - apply le_n.
  - eexists. exact Heq.
  - exfalso.
    assert (E : searchPoint chilledSearch 99 = 0.1).
    { unfold searchPoint. rewrite INR_99. cbn. lra. }
    destruct (Hnone 99%nat) as (T & HT & Hlow).
    { rewrite E. cbn. lra. }
    rewrite E in HT.
    rewrite (antiCondensationSurface_closed chilledSearch 0.1
               chilledSearch_valid) in HT by (lra || reflexivity).
    injection HT as <-.
    pose proof chilled_dew_point as [_ Hdew].
    cbn [chilledSearch ac_T_amb ac_Ti ac_Te ac_d ac_h ac_lambda] in Hlow.
    pose proof (ln_ge_1_minus_inv ((0.025 + 2 * 0.1) / 0.025) ltac:(lra))
      as Hln.
    replace (/ ((0.025 + 2 * 0.1) / 0.025)) with (1 / 9) in Hln by lra.
    set (L := ln ((0.025 + 2 * 0.1) / 0.025)) in *.
    assert (Hg : 20 < 1 + L * (9 * (0.025 + 2 * 0.1)) / (2 * 0.036)) by lra.
    set (g := 1 + L * (9 * (0.025 + 2 * 0.1)) / (2 * 0.036)) in *.
    assert (-1 < (6 - 25) / g) by (apply Rdiv_gt_bound; lra).
    lra.
Qed.

Lemma anti_condensation_result_is_threshold_witness :
  exists res,
    findMinimalAntiCondensationThickness (searchFuel chilledSearch)
      chilledSearch = Finished (Some res) /\
    acr_T_dew res = searchDewPoint chilledSearch /\
    (forall s, acr_thickness res <= s ->
       surfaceAbove chilledSearch (acr_T_dew res) s) /\
    (withDefault 0.001 (ac_minThickness chilledSearch)
     <= acr_thickness res - withDefault 0.001 (ac_step chilledSearch) ->
     forall s, 0 < s ->
       s <= acr_thickness res - withDefault 0.001 (ac_step chilledSearch) ->
       surfaceNotAbove chilledSearch (acr_T_dew res) s).
Proof.
  destruct chilledSearch_finds as [res Hres].
  exists res. split; [exact Hres|].
  apply (anti_condensation_result_is_threshold chilledSearch
           (searchFuel chilledSearch) res chilledSearch_valid).
  - cbn. lra.
  - cbn. lra.
  - cbn. lra.
  - exact Hres.
Defined.

(** X8.  A search with the step 0 never ends when its first iteration
    does not: if the surface at the start thickness is computed and is
    not above the dew point (and the start is within the bound), the
    loop stays at that thickness, whatever number of iterations it is
    given. *)
Theorem anti_condensation_zero_step_never_ends
    (params : AntiCondensationParams) (T : R) (fuel : nat)
    (Hstep : ac_step params = Some 0)
    (Hbound : withDefault 0.001 (ac_minThickness params)
              <= withDefault 0.1 (ac_maxThickness params))
    (Hsurface : antiCondensationSurface params
                  (withDefault 0.001 (ac_minThickness params)) = Returns T)
    (Hlow : T <= searchDewPoint params) :
  findMinimalAntiCondensationThickness fuel params = Unfinished.
Proof.
  unfold findMinimalAntiCondensationThickness,
    findMinimalAntiCondensationThicknessWith. cbv zeta.
  rewrite Hstep. cbn [withDefault].
  fold (searchDewPoint params).
  set (s := withDefault 0.001 (ac_minThickness params)) in *.
  induction fuel as [|fuel IH]; [reflexivity|].
  cbn [antiCondensationLoop].
  rewrite (proj2 (leb_true _ _)) by exact Hbound.
  rewrite Hsurface.
  rewrite (proj2 (gtb_false _ _)) by exact Hlow.
  replace (s + 0) with s by lra. exact IH.
Qed.

Lemma anti_condensation_zero_step_never_ends_witness :
  findMinimalAntiCondensationThickness 1000
    (withScan chilledSearch None (Some 0)) = Unfinished.
Proof.
  assert (Hv : validSearch (withScan chilledSearch None (Some 0)))
    by exact chilledSearch_valid.
  assert (Hs : 0 < 0.001) by lra.
  eapply (anti_condensation_zero_step_never_ends
            (withScan chilledSearch None (Some 0)) _ 1000 eq_refl).
  - cbn. lra.
  - exact (antiCondensationSurface_closed _ 0.001 Hv Hs eq_refl).
  - change (searchDewPoint (withScan chilledSearch None (Some 0)))
      with (searchDewPoint chilledSearch).
    pose proof chilled_dew_point as [Hdew _].
    cbn [withScan chilledSearch ac_T_amb ac_Ti ac_Te ac_d ac_h ac_lambda].
    pose proof (ln_le_minus_1 ((0.025 + 2 * 0.001) / 0.025) ltac:(lra))
      as Hln.
    assert (Hpos : 0 < ln ((0.025 + 2 * 0.001) / 0.025)).
    { rewrite <- ln_1. apply ln_increasing; lra. }
    set (L := ln ((0.025 + 2 * 0.001) / 0.025)) in *.
    assert (Hg : 1 + L * (9 * (0.025 + 2 * 0.001)) / (2 * 0.036) < 1.5)
      by lra.
    assert (Hg1 : 1 < 1 + L * (9 * (0.025 + 2 * 0.001)) / (2 * 0.036))
      by lra.
    set (g := 1 + L * (9 * (0.025 + 2 * 0.001)) / (2 * 0.036)) in *.
    assert ((6 - 25) / g < -12) by (apply Rdiv_lt_bound; lra).
    lra.
Defined.

(** X9.  A search started at a thickness of 0 or below raises the
    exception of [calculateHeatLossPipe] for an outer diameter that is
    not above the inner one in its first iteration, instead of skipping
    to the first positive thickness; this holds for every pipe, air and
    step. *)
Theorem anti_condensation_start_not_positive_raises
    (params : AntiCondensationParams) (fuel : nat)
    (Hmin : withDefault 0.001 (ac_minThickness params) <= 0)
    (Hbound : withDefault 0.001 (ac_minThickness params)
              <= withDefault 0.1 (ac_maxThickness params)) :
  findMinimalAntiCondensationThickness (S fuel) params
  = Raised OuterNotAboveInner.
Proof.
  unfold findMinimalAntiCondensationThickness,
    findMinimalAntiCondensationThicknessWith. cbv zeta.
  cbn [antiCondensationLoop].
  rewrite (proj2 (leb_true _ _)) by exact Hbound.
  unfold antiCondensationSurface, calculateHeatLossPipe.
  cbn [hlp_Ti hlp_Te hlp_d hlp_D hlp_L hlp_lambda hlp_h hlp_alpha].
  rewrite (proj2 (leb_true _ _)) by lra.
  reflexivity.
Qed.

Lemma anti_condensation_start_not_positive_raises_witness :
  findMinimalAntiCondensationThickness 1
    (withScan chilledSearch (Some 0) None)
  = Raised OuterNotAboveInner.
Proof.
  apply (anti_condensation_start_not_positive_raises
           (withScan chilledSearch (Some 0) None) 0); cbn; lra.
Defined.

(** ** Heat losses and stock sizes *)

Lemma calculateHeatLosses_valid (deltaT R_total R_total_uninsulated : R)
    (Ht : 0 < R_total) (Hu : 0 < R_total_uninsulated) (Hd : deltaT <> 0) :
  exists losses,
    calculateHeatLosses deltaT R_total R_total_uninsulated = Returns losses /\
    calculateHeatLosses (- deltaT) R_total R_total_uninsulated
    = Returns losses /\
    0 < heatLoss losses /\ 0 < heatLossUninsulated losses /\
    heatLoss losses * R_total = Rabs deltaT /\
    heatLossUninsulated losses * R_total_uninsulated = Rabs deltaT /\
    decrease losses = (1 - R_total_uninsulated / R_total) * 100 /\
    decrease losses < 100 /\
    (0 < decrease losses <-> R_total_uninsulated < R_total).
Proof.
  unfold calculateHeatLosses. cbv zeta.
  rewrite (proj2 (leb_false R_total 0)) by exact Ht.
  rewrite (proj2 (leb_false R_total_uninsulated 0)) by exact Hu.
  eexists. split; [reflexivity|].
  unfold Math_abs. rewrite Rabs_Ropp. split; [reflexivity|].
  cbn [heatLoss heatLossUninsulated decrease].
  pose proof (Rabs_pos_lt deltaT Hd) as Habs.
  set (a := Rabs deltaT) in *.
  assert (Hq : 0 < R_total_uninsulated / R_total)
    by (apply Rdiv_lt_0_compat; assumption).
  assert (Edec : (a / R_total_uninsulated - a / R_total)
                 / (a / R_total_uninsulated) * 100
                 = (1 - R_total_uninsulated / R_total) * 100)
    by (field; lra).
  rewrite Edec.
  split; [apply Rdiv_lt_0_compat; assumption|].
  split; [apply Rdiv_lt_0_compat; assumption|].
  split; [field; lra|]. split; [field; lra|].
  split; [reflexivity|]. split; [lra|].
  split; intros H.
  - assert (R_total_uninsulated / R_total < 1) by lra.
    apply (Rmult_lt_compat_r R_total) in H0; [|exact Ht].
    unfold Rdiv in H0. rewrite Rmult_assoc, Rinv_l in H0 by lra. lra.
  - assert (R_total_uninsulated / R_total < 1)
      by (apply Rdiv_lt_bound; lra).
    lra.
Qed.

(** X10.  For positive resistances and a temperature difference other
    than 0, [calculateHeatLosses] returns heat losses that are positive
    and depend on the size of the difference only, and a decrease that
    does not depend on the temperatures at all: it is
    [(1 - R_uninsulated / R_total) * 100], hence below 100, and it is
    positive exactly when the insulated resistance is the larger one
    (negative when the insulation lowers the resistance). *)
Theorem heat_losses_decrease (deltaT R_total R_total_uninsulated : R)
    (Ht : 0 < R_total) (Hu : 0 < R_total_uninsulated) (Hd : deltaT <> 0) :
  exists losses,
    calculateHeatLosses deltaT R_total R_total_uninsulated = Returns losses /\
    calculateHeatLosses (- deltaT) R_total R_total_uninsulated
    = Returns losses /\
    0 < heatLoss losses /\ 0 < heatLossUninsulated losses /\
    heatLoss losses * R_total = Rabs deltaT /\
    heatLossUninsulated losses * R_total_uninsulated = Rabs deltaT /\
    decrease losses = (1 - R_total_uninsulated / R_total) * 100 /\
    decrease losses < 100 /\
    (0 < decrease losses <-> R_total_uninsulated < R_total).
Proof.
  exact (calculateHeatLosses_valid deltaT R_total R_total_uninsulated Ht Hu Hd).
Qed.

Lemma heat_losses_decrease_witness :
  exists losses,
    calculateHeatLosses 40 1.5 0.2 = Returns losses /\
    calculateHeatLosses (- 40) 1.5 0.2 = Returns losses /\
    0 < heatLoss losses /\ 0 < heatLossUninsulated losses /\
    heatLoss losses * 1.5 = Rabs 40 /\
    heatLossUninsulated losses * 0.2 = Rabs 40 /\
    decrease losses = (1 - 0.2 / 1.5) * 100 /\
    decrease losses < 100 /\
    (0 < decrease losses <-> 0.2 < 1.5).
Proof.
  apply (heat_losses_decrease 40 1.5 0.2); lra.
Defined.

Lemma conversionTable_identity :
  Forall (fun e => snd e = fst (fst e) /\ snd e <> 0) conversionTable.
Proof.
  unfold conversionTable.
  repeat (apply Forall_cons; [cbn [fst snd]; split; [reflexivity | lra]|]).
  apply Forall_nil.
Qed.

Lemma calculateRokaflexDimension_id
    (tubeDiameter insulationThickness : R) :
  calculateRokaflexDimension tubeDiameter insulationThickness = tubeDiameter.
Proof.
  unfold calculateRokaflexDimension.
  destruct (find _ conversionTable) as [e|] eqn:E; [|reflexivity].
  apply find_some in E as [Hin Hkey].
  apply andb_prop in Hkey as [Hd _]. apply eqb_true in Hd.
  pose proof conversionTable_identity as Hall.
  rewrite Forall_forall in Hall. destruct (Hall e Hin) as [Hid Hnz].
  rewrite (proj2 (eqb_false (snd e) 0)) by exact Hnz.
  rewrite Hid. exact Hd.
Qed.

(** X11.  [calculateRokaflexDimension] returns the tube diameter it is
    given, for every diameter and every insulation thickness: each entry
    of its conversion table maps a diameter to itself, and a pair that
    is not in the table falls back to the diameter. *)
Theorem rokaflex_dimension_is_tube_diameter
    (tubeDiameter insulationThickness : R) :
  calculateRokaflexDimension tubeDiameter insulationThickness = tubeDiameter.
Proof.
  exact (calculateRokaflexDimension_id tubeDiameter insulationThickness).
Qed.

Lemma stocked_thicknesses_ladder :
  Forall (fun tube =>
            let l := sortAsc Z.leb (ObjectKeys (wallThicknesses tube)) in
            StronglySorted Z.lt l /\
            Forall (fun t => In t defaultThicknesses) l)
         ALL_TUBE_SIZES.
Proof.
  unfold ALL_TUBE_SIZES, defaultThicknesses.
  repeat (apply Forall_cons;
          [cbn; split;
           [repeat (constructor; try lia)
           |repeat (apply Forall_cons; [cbn; tauto|]); apply Forall_nil]|]).
  apply Forall_nil.
Qed.

Lemma available_thicknesses_ladder_facts (diameter : R) :
  getAvailableThicknesses diameter <> [] /\
  StronglySorted Z.lt (getAvailableThicknesses diameter) /\
  Forall (fun t => In t defaultThicknesses)
         (getAvailableThicknesses diameter).
Proof.
  assert (Hdef : StronglySorted Z.lt defaultThicknesses /\
                 Forall (fun t => In t defaultThicknesses) defaultThicknesses).
  { unfold defaultThicknesses. split.
    - repeat (constructor; try lia).
    - repeat (apply Forall_cons; [cbn; tauto|]). apply Forall_nil. }
  unfold getAvailableThicknesses.
  destruct (findTube diameter) as [tube|] eqn:E.
  - destruct (wallThicknesses tube) as [|e l] eqn:Ew.
    + cbn. split; [discriminate|]. split; apply Hdef.
    + cbn [ObjectKeys map List.length Nat.eqb].
      apply findTube_In in E as [Hin _].
      pose proof stocked_thicknesses_ladder as Hall.
      rewrite Forall_forall in Hall. specialize (Hall tube Hin).
      cbv zeta in Hall. rewrite Ew in Hall.
      cbn [ObjectKeys map] in Hall. destruct Hall as [Hs Hf].
      split; [|split; assumption].
      intros Hnil.
      assert (Hin' : In (fst e) (sortAsc Z.leb (fst e :: map fst l)))
        by (apply (proj2 (sortAsc_Z_In _ _)); left; reflexivity).
      rewrite Hnil in Hin'. contradiction.
  - split; [discriminate|]. split; apply Hdef.
Qed.

(** X12.  For every diameter [getAvailableThicknesses] returns a ladder
    that is not empty, strictly ascending and made of members of the
    default ladder 6, 9, 13, 19, 25, 32; it is the default ladder itself
    for a diameter that is not listed and for a listed tube without
    stocked thicknesses. *)
Theorem available_thicknesses_ladder (diameter : R) :
  getAvailableThicknesses diameter <> [] /\
  StronglySorted Z.lt (getAvailableThicknesses diameter) /\
  Forall (fun t => In t defaultThicknesses)
         (getAvailableThicknesses diameter) /\
  (findTube diameter = None ->
   getAvailableThicknesses diameter = defaultThicknesses) /\
  (forall tube, findTube diameter = Some tube ->
     wallThicknesses tube = [] ->
     getAvailableThicknesses diameter = defaultThicknesses).
Proof.
  destruct (available_thicknesses_ladder_facts diameter) as (Hne & Hs & Hf).
  split; [exact Hne|]. split; [exact Hs|]. split; [exact Hf|].
  unfold getAvailableThicknesses. split.
  - intros ->. reflexivity.
  - intros tube -> ->. reflexivity.
Qed.

(** The heat loss of a candidate is computed without an exception when
    the radii, the conductivity and h are positive and the inner radius
    is not above the outer one; it is the size of the temperature
    difference over a positive resistance. *)
Lemma candidateHeatLoss_returns (rOuterPipe rInnerPipe lambdaInsul h deltaT : R)
    (t : Z) :
  0 < rInnerPipe -> rInnerPipe <= rOuterPipe -> 0 < lambdaInsul -> 0 < h ->
  (0 < t)%Z ->
  exists q,
    candidateHeatLoss rOuterPipe rInnerPipe lambdaInsul h deltaT t
    = Returns q /\ 0 <= q.
Proof.
  intros Hri Hro Hlam Hh Ht.
  pose proof PI_RGT_0 as Hpi.
  assert (Htr : 0 < IZR t / 1000).
  { apply Rdiv_lt_0_compat; [apply IZR_lt; exact Ht | lra]. }
  assert (Hpipe : 0 <= Math_log (rOuterPipe / rInnerPipe)
                       / (2 * Math_PI * 50)).
  { unfold Math_log, Math_PI. apply Rmult_le_pos.
    - rewrite <- ln_1. destruct (Req_dec rOuterPipe rInnerPipe) as [-> | Hne].
      + right. f_equal. field. lra.
      + left. apply ln_increasing; [lra|]. apply Rdiv_gt_bound; lra.
    - left. apply Rinv_0_lt_compat. lra. }
  assert (Hins : 0 < Math_log ((rOuterPipe + IZR t / 1000) / rOuterPipe)
                     / (2 * Math_PI * lambdaInsul)).
  { unfold Math_log, Math_PI. apply Rdiv_lt_0_compat.
    - rewrite <- ln_1. apply ln_increasing; [lra|].
      apply Rdiv_gt_bound; lra.
    - apply Rmult_lt_0_compat; lra. }
  assert (Hconv : 0 < 1 / (h * 2 * Math_PI * (rOuterPipe + IZR t / 1000))).
  { unfold Math_PI. apply Rdiv_lt_0_compat; [lra|].
    apply Rmult4_pos; lra. }
  assert (Hbare : 0 < 1 / (h * 2 * Math_PI * rOuterPipe)).
  { unfold Math_PI. apply Rdiv_lt_0_compat; [lra|].
    apply Rmult4_pos; lra. }
  unfold candidateHeatLoss, calculateHeatLosses. cbv zeta.
  rewrite (proj2 (leb_false _ 0)) by lra.
  rewrite (proj2 (leb_false _ 0)) by lra.
  cbn [heatLoss]. eexists. split; [reflexivity|].
  unfold Math_abs. apply Rmult_le_pos; [apply Rabs_pos|].
  left. apply Rinv_0_lt_compat. lra.
Qed.

(** The loop over the candidates: it returns the first candidate whose
    heat loss is at most 15, all candidates before it having a larger
    one, or nothing when every candidate has a larger one. *)
Lemma recommendLoop_first_fit (loss : Z -> Outcome R) (candidates : list Z) :
  (forall t, In t candidates -> exists q, loss t = Returns q) ->
  (exists before t after q,
      candidates = before ++ t :: after /\
      loss t = Returns q /\ q <= 15 /\
      (forall u, In u before -> exists q', loss u = Returns q' /\ 15 < q') /\
      recommendLoop loss candidates = Returns (Some t)) \/
  ((forall u, In u candidates -> exists q', loss u = Returns q' /\ 15 < q') /\
   recommendLoop loss candidates = Returns None).
Proof.
  induction candidates as [|t l IH]; intros Hret.
  - right. split; [intros u []| reflexivity].
  - cbn [recommendLoop].
    destruct (Hret t (or_introl eq_refl)) as [q Hq]. rewrite Hq.
    destruct (leb q 15) eqn:E.
    + apply leb_true in E. left. exists [], t, l, q.
      repeat split; try assumption. intros u [].
    + apply leb_false in E.
      destruct IH as [(before & t' & after & q' & Hsplit & Hq' & Hle & Hb & Hr)
                     | (Hall & Hr)].
      * intros u Hu. apply Hret. right. exact Hu.
      * left. exists (t :: before), t', after, q'.
        split; [rewrite Hsplit; reflexivity|].
        split; [exact Hq'|]. split; [exact Hle|]. split; [|exact Hr].
        intros u [<- | Hu]; [exists q; split; assumption | apply Hb; exact Hu].
      * right. split; [|exact Hr].
        intros u [<- | Hu]; [exists q; split; assumption | apply Hall; exact Hu].
Qed.

Lemma getAvailableThicknesses_positive (diameter : R) (t : Z) :
  In t (getAvailableThicknesses diameter) -> (0 < t)%Z.
Proof.
  intros Hin.
  destruct (available_thicknesses_ladder_facts diameter) as (_ & _ & Hf).
  rewrite Forall_forall in Hf. specialize (Hf t Hin).
  unfold defaultThicknesses in Hf. cbn [In] in Hf.
  repeat destruct Hf as [<- | Hf]; lia || contradiction.
Qed.

Lemma StronglySorted_lt_le (l : list Z) :
  StronglySorted Z.lt l -> StronglySorted Z.le l.
Proof.
  induction 1 as [|x l Hs IH Hall]; constructor; [exact IH|].
  rewrite Forall_forall in *. intros y Hy. specialize (Hall y Hy). lia.
Qed.

Lemma StronglySorted_after (before after : list Z) (t u : Z) :
  StronglySorted Z.lt (before ++ t :: after) -> In u after -> (t < u)%Z.
Proof.
  induction before as [|b before IH]; cbn [app]; intros Hs Hu.
  - apply StronglySorted_inv in Hs as [_ Hall].
    rewrite Forall_forall in Hall. apply Hall. exact Hu.
  - apply StronglySorted_inv in Hs as [Hs _]. apply IH; assumption.
Qed.

(** X13.  For a tube of at least 0.002 mm, a wall thickness that is
    not negative, a positive h and a material name that is not
    inherited from [Object.prototype], [getRecommendedThickness] returns
    a member of the ladder of [getAvailableThicknesses]: the smallest
    member whose heat loss per metre is at most 15 W/m, every smaller
    member losing more; or, when every member loses more than 15 W/m,
    the largest member. *)
Theorem recommended_thickness_first_sufficient
    (ambientTemp mediumTemp tubeDiameter : R) (pipeWallThickness : option R)
    (material : string) (h : R)
    (Hd : 0.002 <= tubeDiameter)
    (Hw : forall w, pipeWallThickness = Some w -> 0 <= w)
    (Hh : 0 < h)
    (Hname : ~ In material ObjectPrototypeNames) :
  exists lambdaInsul t,
    interpolateLambda ambientTemp material = Ok lambdaInsul /\
    getRecommendedThickness ambientTemp mediumTemp tubeDiameter
      pipeWallThickness material h = Returns (Some t) /\
    In t (getAvailableThicknesses tubeDiameter) /\
    let loss :=
      candidateHeatLoss (tubeDiameter / 2 / 1000)
        (Math_max 1e-6
           (tubeDiameter / 2 / 1000
            - withDefault 0 pipeWallThickness / 1000))
        lambdaInsul h (mediumTemp - ambientTemp) in
    ((exists q, loss t = Returns q /\ q <= 15 /\
        forall u, In u (getAvailableThicknesses tubeDiameter) ->
          (u < t)%Z -> exists q', loss u = Returns q' /\ 15 < q') \/
     ((forall u, In u (getAvailableThicknesses tubeDiameter) ->
         exists q', loss u = Returns q' /\ 15 < q') /\
      forall u, In u (getAvailableThicknesses tubeDiameter) -> (u <= t)%Z)).
Proof.
  destruct (interpolateLambda_contract ambientTemp material Hname)
    as (lam & Hlam & Hpos & _).
  destruct (available_thicknesses_ladder_facts tubeDiameter)
    as (Hne & Hsorted & _).
  set (rO := tubeDiameter / 2 / 1000).
  set (rI := Math_max 1e-6 (rO - withDefault 0 pipeWallThickness / 1000)).
  assert (HrI : 0 < rI /\ rI <= rO).
  { unfold rI, Math_max. split.
    - apply Rlt_le_trans with 1e-6; [lra | apply Rmax_l].
    - apply Rmax_lub.
      + unfold rO. lra.
      + assert (0 <= withDefault 0 pipeWallThickness).
        { destruct pipeWallThickness as [w|]; cbn; [apply Hw; reflexivity|lra]. }
        lra. }
  destruct HrI as [HrI0 HrI1].
  assert (Hret : forall u, In u (getAvailableThicknesses tubeDiameter) ->
            exists q, candidateHeatLoss rO rI lam h (mediumTemp - ambientTemp) u
                      = Returns q).
  { intros u Hu.
    destruct (candidateHeatLoss_returns rO rI lam h
                (mediumTemp - ambientTemp) u HrI0 HrI1 Hpos Hh
                (getAvailableThicknesses_positive _ _ Hu)) as (q & Hq & _).
    exists q. exact Hq. }
  exists lam.
  unfold getRecommendedThickness. cbv zeta. rewrite Hlam.
  fold rO. fold rI.
  destruct (recommendLoop_first_fit _ _ Hret)
    as [(before & t & after & q & Hsplit & Hq & Hle & Hb & Hr) | (Hall & Hr)];
    rewrite Hr.
  - exists t. split; [reflexivity|]. split; [reflexivity|].
    assert (Hin : In t (getAvailableThicknesses tubeDiameter)).
    { rewrite Hsplit. apply in_or_app. right. left. reflexivity. }
    split; [exact Hin|]. left. exists q.
    split; [exact Hq|]. split; [exact Hle|].
    intros u Hu Hlt. rewrite Hsplit in Hu, Hsorted.
    apply in_app_or in Hu as [Hu | [<- | Hu]].
    + apply Hb. exact Hu.
    + lia.
    + pose proof (StronglySorted_after _ _ _ _ Hsorted Hu). lia.
  - destruct (lastElement_greatest _ (StronglySorted_lt_le _ Hsorted) Hne)
      as (t & Hlast & Hin & Hmax).
    exists t. split; [reflexivity|]. rewrite Hlast.
    split; [reflexivity|]. split; [exact Hin|]. right.
    split; [exact Hall | exact Hmax].
Qed.

Lemma recommended_thickness_first_sufficient_witness :
  exists lambdaInsul t,
    interpolateLambda 20 "ROKAFLEX ST" = Ok lambdaInsul /\
    getRecommendedThickness 20 60 25 (Some 1) "ROKAFLEX ST" 9
    = Returns (Some t) /\
    In t (getAvailableThicknesses 25) /\
    let loss :=
      candidateHeatLoss (25 / 2 / 1000)
        (Math_max 1e-6 (25 / 2 / 1000 - withDefault 0 (Some 1) / 1000))
        lambdaInsul 9 (60 - 20) in
    ((exists q, loss t = Returns q /\ q <= 15 /\
        forall u, In u (getAvailableThicknesses 25) ->
          (u < t)%Z -> exists q', loss u = Returns q' /\ 15 < q') \/
     ((forall u, In u (getAvailableThicknesses 25) ->
         exists q', loss u = Returns q' /\ 15 < q') /\
      forall u, In u (getAvailableThicknesses 25) -> (u <= t)%Z)).
Proof.
  apply (recommended_thickness_first_sufficient 20 60 25 (Some 1)
           "ROKAFLEX ST" 9).
  - lra.
  - intros w [= <-]. lra.
  - lra.
  - cbn [ObjectPrototypeNames In]. intros H.
    repeat destruct H as [H | H]; try discriminate. contradiction.
Defined.

(** ** Fluid temperature *)

Lemma exp_monotone (x y : R) : x <= y -> exp x <= exp y.
Proof.
  intros [H | ->]; [left; apply exp_increasing; exact H | right; reflexivity].
Qed.


Lemma staticCooling_eq (p : StaticFluidTemperatureParams) (Ti t : R) :
  staticCooling p Ti t
  = sf_Te p + (Ti - sf_Te p)
              * exp (- sf_k p * sf_L p * t / (sf_Cp p * sf_m p)).
Proof. reflexivity. Qed.

(** X14.  For positive transmittance, length, heat capacity and mass,
    the temperature of a standing fluid after the time [t] starts at the
    initial temperature, composes over time (cooling for [t1 + t2] is
    cooling for [t1] and then for [t2] from the temperature reached),
    and for a fluid warmer than the air it does not rise with time and
    stays between the air temperature and the initial temperature.
    (The bounds are stated with [<=]: in the arithmetic of the source
    the result meets the air temperature after a long time.) *)
Theorem static_fluid_cooling (p : StaticFluidTemperatureParams)
    (Hk : 0 < sf_k p) (HL : 0 < sf_L p) (HCp : 0 < sf_Cp p)
    (Hm : 0 < sf_m p) :
  (forall Ti, staticCooling p Ti 0 = Ti) /\
  (forall Ti t1 t2,
     staticCooling p Ti (t1 + t2)
     = staticCooling p (staticCooling p Ti t1) t2) /\
  (forall Ti t1 t2,
     sf_Te p <= Ti -> 0 <= t1 -> t1 <= t2 ->
     sf_Te p <= staticCooling p Ti t2 /\
     staticCooling p Ti t2 <= staticCooling p Ti t1 /\
     staticCooling p Ti t1 <= Ti).
Proof.
  assert (Hc : 0 < sf_Cp p * sf_m p) by (apply Rmult_lt_0_compat; assumption).
  assert (Hkl : 0 < sf_k p * sf_L p) by (apply Rmult_lt_0_compat; assumption).
  assert (Hrate : 0 < sf_k p * sf_L p / (sf_Cp p * sf_m p))
    by (apply Rdiv_lt_0_compat; assumption).
  assert (Eexp : forall t,
            - sf_k p * sf_L p * t / (sf_Cp p * sf_m p)
            = - (sf_k p * sf_L p / (sf_Cp p * sf_m p) * t)).
  { intros t. field. lra. }
  set (c := sf_k p * sf_L p / (sf_Cp p * sf_m p)) in *.
  split; [|split].
  - intros Ti. rewrite staticCooling_eq, Eexp.
    replace (- (c * 0)) with 0 by ring. rewrite exp_0. ring.
  - intros Ti t1 t2. rewrite !staticCooling_eq, !Eexp.
    replace (- (c * (t1 + t2))) with (- (c * t1) + - (c * t2)) by ring.
    rewrite exp_plus. ring.
  - intros Ti t1 t2 Hwarm Ht1 Ht12.
    rewrite !staticCooling_eq, !Eexp.
    pose proof (exp_pos (- (c * t2))) as Hp2.
    assert (H21 : exp (- (c * t2)) <= exp (- (c * t1))).
    { apply exp_monotone. nra. }
    assert (H1 : exp (- (c * t1)) <= 1).
    { rewrite <- exp_0. apply exp_monotone. nra. }
    repeat split; nra.
Qed.

Lemma static_fluid_cooling_witness :
  (forall Ti, staticCooling standingWater Ti 0 = Ti) /\
  (forall Ti t1 t2,
     staticCooling standingWater Ti (t1 + t2)
     = staticCooling standingWater (staticCooling standingWater Ti t1) t2) /\
  (forall Ti t1 t2,
     sf_Te standingWater <= Ti -> 0 <= t1 -> t1 <= t2 ->
     sf_Te standingWater <= staticCooling standingWater Ti t2 /\
     staticCooling standingWater Ti t2 <= staticCooling standingWater Ti t1 /\
     staticCooling standingWater Ti t1 <= Ti).
Proof.
  apply (static_fluid_cooling standingWater); cbn; lra.
Defined.

(** X15.  [calculateFlowingFluidTemperature] throws when the speed is
    missing.  With speed and diameter given and positive, and
    positive transmittance, length, heat capacity and density, the
    temperature of a fluid warmer than the air at the end of the pipe
    lies between the air temperature and the initial temperature, and a
    faster flow does not arrive colder.  (The bounds are stated with
    [<=]: in the arithmetic of the source a slow flow arrives at the air
    temperature itself.) *)
Theorem flowing_fluid_outlet (p : FlowingFluidTemperatureParams) (v v' d : R)
    (Hk : 0 < ff_k p) (HL : 0 < ff_L p) (HCp : 0 < ff_Cp p)
    (Hrho : 0 < ff_rho p) (Hd : ff_d p = Some d) (Hdpos : 0 < d)
    (Hv : 0 < v) (Hv' : v <= v') (Hwarm : ff_Te p <= ff_Ti p) :
  calculateFlowingFluidTemperature (atSpeed p None) = Throws MissingFlow /\
  exists T T',
    calculateFlowingFluidTemperature (atSpeed p (Some v)) = Returns T /\
    calculateFlowingFluidTemperature (atSpeed p (Some v')) = Returns T' /\
    ff_Te p <= T /\ T <= T' /\ T' <= ff_Ti p.
Proof.
  split; [reflexivity|].
  unfold calculateFlowingFluidTemperature, atSpeed.
  cbn [ff_Ti ff_Te ff_k ff_L ff_Cp ff_rho ff_v ff_d]. rewrite Hd.
  eexists. eexists. split; [reflexivity|]. split; [reflexivity|].
  unfold Math_PI, Math_pow_int. pose proof PI_RGT_0 as Hpi.
  assert (Hkl : 0 < ff_k p * ff_L p) by (apply Rmult_lt_0_compat; assumption).
  assert (Harea : 0 < ff_Cp p * ff_rho p * PI * d ^ 2 / 4).
  { apply Rdiv_lt_0_compat; [|lra].
    apply Rmult4_pos; try assumption. nra. }
  set (a := ff_Cp p * ff_rho p * PI * d ^ 2 / 4) in *.
  assert (Ee : forall w, 0 < w ->
            - ff_k p * ff_L p / (ff_Cp p * (ff_rho p * w * PI * d ^ 2 / 4))
            = - (ff_k p * ff_L p / (a * w))).
  { intros w Hw. unfold a. field. repeat split; lra. }
  rewrite (Ee v Hv), (Ee v') by lra.
  assert (Hq : forall w, 0 < w -> 0 < ff_k p * ff_L p / (a * w)).
  { intros w Hw. apply Rdiv_lt_0_compat; [exact Hkl|].
    apply Rmult_lt_0_compat; assumption. }
  assert (Hlt : ff_k p * ff_L p / (a * v') <= ff_k p * ff_L p / (a * v)).
  { unfold Rdiv. apply Rmult_le_compat_l; [lra|].
    apply Rinv_le_contravar.
    - apply Rmult_lt_0_compat; lra.
    - apply Rmult_le_compat_l; lra. }
  pose proof (Hq v Hv) as Hqv. pose proof (Hq v' ltac:(lra)) as Hqv'.
  set (x := ff_k p * ff_L p / (a * v)) in *.
  set (x' := ff_k p * ff_L p / (a * v')) in *.
  pose proof (exp_pos (- x)) as Hp.
  assert (H1 : exp (- x) <= exp (- x')) by (apply exp_monotone; lra).
  assert (H2 : exp (- x') <= 1).
  { rewrite <- exp_0. apply exp_monotone. lra. }
  repeat split; nra.
Qed.

Lemma flowing_fluid_outlet_witness :
  calculateFlowingFluidTemperature (atSpeed flowingWater None)
  = Throws MissingFlow /\
  exists T T',
    calculateFlowingFluidTemperature (atSpeed flowingWater (Some 0.5))
    = Returns T /\
    calculateFlowingFluidTemperature (atSpeed flowingWater (Some 1))
    = Returns T' /\
    ff_Te flowingWater <= T /\ T <= T' /\ T' <= ff_Ti flowingWater.
Proof.
  apply (flowing_fluid_outlet flowingWater 0.5 1 0.02); cbn; try lra.
  reflexivity.
Defined.

(** ** Rounding *)

Lemma Math_round_mono (x y : R) : x <= y -> Math_round x <= Math_round y.
Proof.
  intros H. unfold Math_round. apply IZR_le. apply Zfloor_le. lra.
Qed.

Lemma round3_mono (x y : R) : x <= y -> round3 x <= round3 y.
Proof.
  intros H. unfold round3.
  pose proof (Math_round_mono (x * 1000) (y * 1000) ltac:(lra)). lra.
Qed.

Lemma ceil3_mono (x y : R) : x <= y -> ceil3 x <= ceil3 y.
Proof.
  intros H. unfold ceil3, Math_ceil.
  assert (IZR (Zceil (x * 1000)) <= IZR (Zceil (y * 1000))); [|lra].
  apply IZR_le. apply Zceil_le. lra.
Qed.

(** A multiple of 0.001 below [x] is below the rounding of [x]. *)
Lemma round3_ge (z : Z) (x : R) : IZR z <= x * 1000 -> IZR z / 1000 <= round3 x.
Proof.
  intros H. unfold round3, Math_round.
  assert (IZR z <= IZR (Zfloor (x * 1000 + / 2))); [|lra].
  apply IZR_le. apply Zfloor_lub. lra.
Qed.

Lemma round3_error (x : R) : x - 0.0005 < round3 x <= x + 0.0005.
Proof.
  unfold round3, Math_round.
  pose proof (Zfloor_bound (x * 1000 + / 2)) as [Hlo Hhi]. lra.
Qed.

Lemma ceil3_error (x : R) : x <= ceil3 x < x + 0.001.
Proof.
  unfold ceil3, Math_ceil.
  pose proof (Zceil_bound (x * 1000)) as [Hlo Hhi]. lra.
Qed.

(** ** The K-FLEX estimator and the insulation thickness *)

Lemma kflexBaseCoeff_pos (forCondensation : bool) (o : Orientation)
    (deltaT : R) :
  0 < kflexBaseCoeff forCondensation o deltaT.
Proof.
  unfold kflexBaseCoeff, Math_max.
  destruct forCondensation, o; cbn; try lra.
  - eapply Rlt_le_trans; [|apply Rmax_r]. lra.
  - eapply Rlt_le_trans; [|apply Rmax_r]. lra.
Qed.

(** X16.  With a valid emissivity and a known positive tube diameter
    the coefficient of [calculateKFlexH] does not grow with the
    insulation thickness: a thicker insulation (a larger outer
    diameter) never gives a larger h, in both modes and orientations.
    In particular the bare pipe (thickness 0) has the largest h. *)
Theorem kflex_h_falls_with_thickness (p : KFlexHParams) (d t1 t2 : R)
    (Heps : 0 <= kf_epsilon p <= 1)
    (Hd : kf_tubeDiameter p = Some d) (Hdpos : 0 < d)
    (Ht1 : 0 <= t1) (Ht12 : t1 <= t2) :
  exists h1 h2,
    calculateKFlexH (withInsulation p (Some t1)) = Ok h1 /\
    calculateKFlexH (withInsulation p (Some t2)) = Ok h2 /\
    h2 <= h1.
Proof.
  unfold calculateKFlexH, throwIf, withInsulation.
  cbn [kf_T_amb kf_T_medium kf_epsilon kf_orientation kf_tubeDiameter
       kf_insulationThickness kf_forCondensation].
  rewrite (emissivity_guard_accepts _ Heps), Hd.
  rewrite !knownGeometry_valid by lra. cbv zeta.
  eexists. eexists. split; [reflexivity|]. split; [reflexivity|].
  apply round3_mono. apply Rplus_le_compat_r.
  set (fc := withDefault false (kf_forCondensation p)).
  set (o := withDefault horizontal (kf_orientation p)).
  set (dT := Math_max (Math_abs (kf_T_medium p - kf_T_amb p)) 1).
  assert (Hbase : 0 <= kflexBaseCoeff fc o dT
                       * Math_pow dT
                           (if Orientation_eqb o horizontal then 0.33
                            else 0.25)).
  { apply Rmult_le_pos; [left; apply kflexBaseCoeff_pos|].
    rewrite Math_pow_pos by apply Math_max_floor_pos.
    left. apply exp_pos. }
  apply Rmult_le_compat_l; [exact Hbase|].
  assert (H1 : 0 < 0.043 / ((d + 2 * t2) / 1000))
    by (apply Rdiv_lt_0_compat; lra).
  assert (H2 : 0.043 / ((d + 2 * t2) / 1000) <= 0.043 / ((d + 2 * t1) / 1000)).
  { unfold Rdiv at 1 3. apply Rmult_le_compat_l; [lra|].
    apply Rinv_le_contravar; lra. }
  rewrite !Math_pow_pos by lra.
  apply Rle_Rpower_l; [destruct fc; lra | split; assumption].
Qed.

Lemma kflex_h_falls_with_thickness_witness :
  exists h1 h2,
    calculateKFlexH (withInsulation kflexCall (Some 0)) = Ok h1 /\
    calculateKFlexH (withInsulation kflexCall (Some 9)) = Ok h2 /\
    h2 <= h1.
Proof.
  apply (kflex_h_falls_with_thickness kflexCall 25 0 9); cbn; try lra.
  reflexivity.
Defined.

(** ** Radiation *)

Lemma fourth_power_quotient (a b : R) :
  a <> b -> (a ^ 4 - b ^ 4) / (a - b) = (a ^ 2 + b ^ 2) * (a + b).
Proof. intros H. field. lra. Qed.

Lemma cube_nonneg (x : R) : 0 <= x -> 0 <= x ^ 3.
Proof. intros H. apply pow_le. exact H. Qed.

Lemma Rabs_far_neq (a b c : R) : 0 < c -> c <= Rabs (a - b) -> a <> b.
Proof.
  intros Hc H E. replace (a - b) with 0 in H by lra.
  rewrite Rabs_R0 in H. lra.
Qed.

(** X17.  [calculateRadiativeHeatTransfer] does not depend on the order
    of its two temperatures.  For temperatures at least 0.01 apart it is
    [eps * sigma * (Ts^2 + Ta^2) * (Ts + Ta)], with no division left;
    for an emissivity and absolute temperatures that are not negative
    it is not negative. *)
Theorem radiative_coefficient_symmetric (emissivity T_surface T_ambient : R) :
  calculateRadiativeHeatTransfer emissivity T_surface T_ambient
  = calculateRadiativeHeatTransfer emissivity T_ambient T_surface /\
  (0.01 <= Rabs (T_surface - T_ambient) ->
   calculateRadiativeHeatTransfer emissivity T_surface T_ambient
   = emissivity * sigma * (T_surface ^ 2 + T_ambient ^ 2)
     * (T_surface + T_ambient)) /\
  (0 <= emissivity -> 0 <= T_surface -> 0 <= T_ambient ->
   0 <= calculateRadiativeHeatTransfer emissivity T_surface T_ambient).
Proof.
  assert (Hform : forall a b,
            calculateRadiativeHeatTransfer emissivity a b
            = if ltb (Rabs (a - b)) 0.01
              then 4 * emissivity * sigma * ((a + b) / 2) ^ 3
              else emissivity * sigma * (a ^ 2 + b ^ 2) * (a + b)).
  { intros a b. unfold calculateRadiativeHeatTransfer, Math_abs, Math_pow_int.
    cbv zeta. destruct (ltb (Rabs (a - b)) 0.01) eqn:E; [reflexivity|].
    apply ltb_false in E.
    pose proof (Rabs_far_neq a b 0.01 ltac:(lra) E) as Hne.
    unfold Rdiv. rewrite Rmult_assoc.
    fold ((a ^ 4 - b ^ 4) / (a - b)).
    rewrite (fourth_power_quotient a b Hne). ring. }
  assert (Hsigma : 0 < sigma) by (unfold sigma; lra).
  split; [|split].
  - rewrite !Hform. rewrite (Rabs_minus_sym T_ambient T_surface).
    destruct (ltb _ 0.01).
    + do 2 f_equal. lra.
    + ring.
  - intros Hfar. rewrite Hform.
    rewrite (proj2 (ltb_false _ _)) by exact Hfar. reflexivity.
  - intros He Hs Ha. rewrite Hform. destruct (ltb _ 0.01).
    + apply Rmult_le_pos; [|apply cube_nonneg; lra].
      apply Rmult_le_pos; lra.
    + apply Rmult_le_pos; [|lra].
      apply Rmult_le_pos; [apply Rmult_le_pos; lra|].
      pose proof (pow2_ge_0 T_surface). pose proof (pow2_ge_0 T_ambient). lra.
Qed.

(** ** Floors of the estimators *)

Lemma alpha_rad_nonneg (p : HCoefficientParams) :
  0 <= epsilon p -> -273.15 <= T_sup p -> -273.15 <= T_amb p ->
  0 <= Spec.alpha_rad p <= 6.5.
Proof.
  intros He Hs Ha. unfold Spec.alpha_rad. split; [|apply Rmin_r].
  apply Rmin_glb; [|lra].
  assert (Hsigma : 0 < sigma) by (unfold sigma; lra).
  unfold Spec.alpha_rad_uncapped, Spec.kelvin. cbv zeta.
  destruct (Rlt_dec _ 0.01) as [Hnear | Hfar].
  - unfold Spec.rad_linear.
    apply Rmult_le_pos; [|apply cube_nonneg; lra].
    apply Rmult_le_pos; lra.
  - unfold Spec.rad_exact. apply Rnot_lt_le in Hfar.
    pose proof (Rabs_far_neq _ _ 0.01 ltac:(lra) Hfar) as Hne.
    unfold Rdiv. rewrite Rmult_assoc.
    match goal with
    | |- 0 <= _ * ((?a ^ 4 - ?b ^ 4) * / (?a - ?b)) =>
        fold ((a ^ 4 - b ^ 4) / (a - b));
        rewrite (fourth_power_quotient a b Hne);
        pose proof (pow2_ge_0 a); pose proof (pow2_ge_0 b)
    end.
    apply Rmult_le_pos; [apply Rmult_le_pos; lra|].
    apply Rmult_le_pos; lra.
Qed.

(** X18.  For an emissivity in [0, 1] and temperatures not below
    absolute zero the Standard estimator returns a coefficient of at
    least 5.769 W/(m2 K), and of at least 7.692 when the safety factor
    is switched off: the convection floor 1/0.13 times the safety
    factor.  Radiation adds at most its cap of 6.5 to the convection
    term. *)
Theorem standard_h_floor (p : HCoefficientParams)
    (Heps : 0 <= epsilon p <= 1)
    (Hsup : -273.15 <= T_sup p) (Hamb : -273.15 <= T_amb p) :
  exists h,
    calculateHCoefficient p = Ok h /\
    5.769 <= h /\
    (applySafetyFactor p = Some false -> 7.692 <= h) /\
    h <= (Spec.alpha_conv p + 6.5) * Spec.safety p + 0.0005.
Proof.
  exists (Spec.standard_h p).
  split; [apply calculateHCoefficient_valid; exact Heps|].
  destruct (alpha_rad_nonneg p (proj1 Heps) Hsup Hamb) as [Hr0 Hr1].
  assert (Hc : 1 / 0.13 <= Spec.alpha_conv p).
  { unfold Spec.alpha_conv, Spec.conv_floor. apply Rmax_r. }
  assert (Hs : 0.75 <= Spec.safety p <= 1).
  { unfold Spec.safety. destruct (applySafetyFactor p) as [[|]|]; lra. }
  unfold Spec.standard_h. rewrite <- round3_eq.
  set (c := Spec.alpha_conv p) in *. set (r := Spec.alpha_rad p) in *.
  set (s := Spec.safety p) in *.
  assert (Hfloor : 7.6923 < 1 / 0.13) by lra.
  split; [|split].
  - change 5.769 with (IZR 5769 / 1000). apply round3_ge. nra.
  - intros Hoff. assert (Es : s = 1).
    { unfold s, Spec.safety. rewrite Hoff. reflexivity. }
    change 7.692 with (IZR 7692 / 1000). apply round3_ge. rewrite Es. lra.
  - pose proof (round3_error ((c + r) * s)) as [_ Hup]. nra.
Qed.

Lemma standard_h_floor_witness :
  exists h,
    calculateHCoefficient standardCall = Ok h /\
    5.769 <= h /\
    (applySafetyFactor standardCall = Some false -> 7.692 <= h) /\
    h <= (Spec.alpha_conv standardCall + 6.5) * Spec.safety standardCall
         + 0.0005.
Proof.
  apply (standard_h_floor standardCall); cbn; lra.
Defined.

(** X19.  For an emissivity in [0, 1] the sheet estimator returns, at
    all temperatures, a coefficient of at least 5.769 W/(m2 K), and of
    at least [0.75 * (1/0.13 + 1.4 * eps)] up to the rounding: three
    quarters of the convection floor plus the least radiation term. *)
Theorem sheets_h_floor (p : AdvancedHParams)
    (Heps : 0 <= adv_epsilon p <= 1) :
  exists h,
    calculateAdvancedH_Sheets p = Ok h /\
    5.769 <= h /\
    0.75 * (1 / 0.13 + 1.4 * adv_epsilon p) - 0.0005 < h.
Proof.
  unfold calculateAdvancedH_Sheets, throwIf.
  rewrite (emissivity_guard_accepts _ Heps). cbv zeta.
  eexists. split; [reflexivity|].
  match goal with
  | |- _ <= Math_round (?x * 1000) / 1000 /\ _ => fold (round3 x); set (h := x)
  end.
  assert (Hh : 0.75 * (1 / 0.13 + 1.4 * adv_epsilon p) <= h).
  { unfold h, Math_max.
    match goal with
    | |- _ <= (Rmax ?a (1 / 0.13) + _ * Rmax ?b 1.4) * 0.75 =>
        pose proof (Rmax_r a (1 / 0.13)); pose proof (Rmax_r b 1.4);
        set (c := Rmax a (1 / 0.13)) in *; set (r := Rmax b 1.4) in *
    end.
    nra. }
  split.
  - change 5.769 with (IZR 5769 / 1000). apply round3_ge. lra.
  - pose proof (round3_error h) as [Hlo _]. lra.
Qed.

Lemma sheets_h_floor_witness :
  exists h,
    calculateAdvancedH_Sheets advancedCall = Ok h /\
    5.769 <= h /\
    0.75 * (1 / 0.13 + 1.4 * adv_epsilon advancedCall) - 0.0005 < h.
Proof.
  apply (sheets_h_floor advancedCall); cbn; lra.
Defined.

(** X20.  The two variants of the advanced estimator differ in the
    temperature of the radiation term only.  For an emissivity in
    [0, 1] and air not below absolute zero, variant 3 (radiation at the
    air temperature) returns at most what variant 2 (radiation at the
    mean temperature) returns when the medium is not colder than the
    air; both return at least 7.692 W/(m2 K), and they agree when
    medium and air have the same temperature. *)
Theorem advanced_variants_ordered (p : AdvancedHParams)
    (Heps : 0 <= adv_epsilon p <= 1)
    (Hamb : -273.15 <= adv_T_amb p)
    (Hwarm : adv_T_amb p <= adv_T_medium p) :
  exists h2 h3,
    calculateAdvancedH_Variant2 p = Ok h2 /\
    calculateAdvancedH_Variant3 p = Ok h3 /\
    7.692 <= h3 /\ h3 <= h2 /\
    (adv_T_medium p = adv_T_amb p -> h3 = h2).
Proof.
  unfold calculateAdvancedH_Variant2, calculateAdvancedH_Variant3, throwIf.
  rewrite (emissivity_guard_accepts _ Heps). cbv zeta.
  eexists. eexists. split; [reflexivity|]. split; [reflexivity|].
  assert (Hsigma : 0 < sigma) by (unfold sigma; lra).
  set (c := variantConvection _ _).
  assert (Hc : 1 / 0.13 <= c).
  { unfold c, variantConvection, Math_max.
    destruct (Orientation_eqb _ _); apply Rmax_r. }
  unfold Math_pow_int.
  assert (Hcube : (adv_T_amb p + 273.15) ^ 3
                  <= ((adv_T_amb p + adv_T_medium p) / 2 + 273.15) ^ 3).
  { apply pow_incr. lra. }
  assert (Hcube0 : 0 <= (adv_T_amb p + 273.15) ^ 3)
    by (apply cube_nonneg; lra).
  set (x3 := (adv_T_amb p + 273.15) ^ 3) in *.
  set (x2 := ((adv_T_amb p + adv_T_medium p) / 2 + 273.15) ^ 3) in *.
  fold (round3 (c + 4 * adv_epsilon p * sigma * x2)).
  fold (round3 (c + 4 * adv_epsilon p * sigma * x3)).
  assert (Hk : 0 <= 4 * adv_epsilon p * sigma)
    by (apply Rmult_le_pos; lra).
  split; [|split].
  - change 7.692 with (IZR 7692 / 1000). apply round3_ge.
    assert (0 <= 4 * adv_epsilon p * sigma * x3)
      by (apply Rmult_le_pos; assumption).
    lra.
  - apply round3_mono. apply Rplus_le_compat_l.
    apply Rmult_le_compat_l; assumption.
  - intros Heq. unfold x2, x3. rewrite Heq. do 4 f_equal. lra.
Qed.

Lemma advanced_variants_ordered_witness :
  exists h2 h3,
    calculateAdvancedH_Variant2 advancedCall = Ok h2 /\
    calculateAdvancedH_Variant3 advancedCall = Ok h3 /\
    7.692 <= h3 /\ h3 <= h2 /\
    (adv_T_medium advancedCall = adv_T_amb advancedCall -> h3 = h2).
Proof.
  apply (advanced_variants_ordered advancedCall); cbn; lra.
Defined.

(** ** The surface criterion and the minimum thickness *)

(** The film factor [h * ro * ln (ro / ri)] of the loop body grows with
    the thickness. *)
Lemma film_factor_increasing (ri h t1 t2 : R) :
  0 < ri -> 0 < h -> 0 < t1 -> t1 < t2 ->
  0 < h * (ri + t1 / 1000) * ln ((ri + t1 / 1000) / ri)
  < h * (ri + t2 / 1000) * ln ((ri + t2 / 1000) / ri).
Proof.
  intros Hri Hh Ht1 Ht12.
  pose proof (ln_radius_ratio ri t1 Hri Ht1) as [HL1 _].
  assert (HL : ln ((ri + t1 / 1000) / ri) < ln ((ri + t2 / 1000) / ri)).
  { apply ln_increasing.
    - apply Rdiv_lt_0_compat; lra.
    - unfold Rdiv. apply Rmult_lt_compat_r; [|lra].
      apply Rinv_0_lt_compat. exact Hri. }
  set (L1 := ln ((ri + t1 / 1000) / ri)) in *.
  set (L2 := ln ((ri + t2 / 1000) / ri)) in *.
  assert (Hk1 : 0 < h * (ri + t1 / 1000)) by (apply Rmult_lt_0_compat; lra).
  assert (Hk2 : h * (ri + t1 / 1000) < h * (ri + t2 / 1000))
    by (apply Rmult_lt_compat_l; lra).
  split.
  - apply Rmult_lt_0_compat; assumption.
  - apply Rlt_trans with (h * (ri + t1 / 1000) * L2).
    + apply Rmult_lt_compat_l; assumption.
    + apply Rmult_lt_compat_r; lra.
Qed.

(** For a medium colder than the air the surface temperature of the
    loop body grows strictly with the thickness and stays below the air
    temperature. *)
Lemma surfaceTempAt_increasing (ri lam h Ta Tm t1 t2 : R) :
  0 < ri -> 0 < lam -> 0 < h -> Tm < Ta -> 0 < t1 -> t1 < t2 ->
  surfaceTempAt ri lam h Ta Tm t1 < surfaceTempAt ri lam h Ta Tm t2 < Ta.
Proof.
  intros Hri Hlam Hh Hcold Ht1 Ht12.
  rewrite !surfaceTempAt_closed by lra.
  destruct (film_factor_increasing ri h t1 t2 Hri Hh Ht1 Ht12) as [Hf1 Hf2].
  set (f1 := h * (ri + t1 / 1000) * ln ((ri + t1 / 1000) / ri)) in *.
  set (f2 := h * (ri + t2 / 1000) * ln ((ri + t2 / 1000) / ri)) in *.
  assert (Hinv : / (lam + f2) < / (lam + f1)).
  { apply Rinv_lt_contravar; [|lra]. apply Rmult_lt_0_compat; lra. }
  assert (Hpos : 0 < / (lam + f2)) by (apply Rinv_0_lt_compat; lra).
  assert (Hc : 0 < (Ta - Tm) * lam) by (apply Rmult_lt_0_compat; lra).
  unfold Rdiv. split; nra.
Qed.

(** For a medium that is not colder than the air the surface is not
    colder than the air either. *)
Lemma surfaceTempAt_warm (ri lam h Ta Tm t : R) :
  0 < ri -> 0 < lam -> 0 < h -> Ta <= Tm -> 0 < t ->
  Ta <= surfaceTempAt ri lam h Ta Tm t.
Proof.
  intros Hri Hlam Hh Hwarm Ht.
  rewrite surfaceTempAt_closed by lra.
  pose proof (ln_radius_ratio ri t Hri Ht) as [HL _].
  assert (Hf : 0 < h * (ri + t / 1000) * ln ((ri + t / 1000) / ri)).
  { apply Rmult_lt_0_compat; [|exact HL]. apply Rmult_lt_0_compat; lra. }
  set (f := h * (ri + t / 1000) * ln ((ri + t / 1000) / ri)) in *.
  assert (Hpos : 0 < / (lam + f)) by (apply Rinv_0_lt_compat; lra).
  assert (0 <= (Tm - Ta) * lam * / (lam + f)).
  { apply Rmult_le_pos; [apply Rmult_le_pos|]; lra. }
  unfold Rdiv. lra.
Qed.

(** A thickness that meets the criterion of a validated input is
    followed by thicknesses that meet it. *)
Lemma surfaceCriterion_upward
    (tubeDiameter ambientTemp mediumTemp dewPoint lam h t1 t2 : R) :
  validatedInput tubeDiameter ambientTemp dewPoint h -> 0 < lam ->
  0 < t1 -> t1 <= t2 ->
  surfaceCriterion tubeDiameter ambientTemp mediumTemp dewPoint lam h t1 ->
  surfaceCriterion tubeDiameter ambientTemp mediumTemp dewPoint lam h t2.
Proof.
  intros (Hd & Hh & _ & Hmargin) Hlam Ht1 Ht12 Hc.
  unfold surfaceCriterion in *.
  assert (Hri : 0 < tubeDiameter / 2 / 1000) by lra.
  destruct (Rle_dec ambientTemp mediumTemp) as [Hwarm | Hcold].
  - pose proof (surfaceTempAt_warm _ lam h ambientTemp mediumTemp t2 Hri Hlam
                  Hh Hwarm ltac:(lra)).
    lra.
  - destruct (Req_dec t1 t2) as [<- | Hne]; [exact Hc|].
    pose proof (surfaceTempAt_increasing _ lam h ambientTemp mediumTemp t1 t2
                  Hri Hlam Hh ltac:(lra) Ht1 ltac:(lra)).
    lra.
Qed.

Lemma meanLambda_positive (ambientTemp mediumTemp : R) (material : string) :
  ~ In material ObjectPrototypeNames ->
  exists lam, meanLambda ambientTemp mediumTemp material = Ok lam /\ 0 < lam.
Proof.
  intros Hname. unfold meanLambda. cbv zeta.
  destruct (interpolateLambda_contract ((ambientTemp + mediumTemp) / 2)
              material Hname) as (v & Hv & Hpos & _).
  exists v. split; assumption.
Qed.

Lemma INR_499 : INR 499 = 499.
Proof. rewrite INR_IZR_INZ. reflexivity. Qed.

Lemma INR_999 : INR 999 = 999.
Proof. rewrite INR_IZR_INZ. reflexivity. Qed.

(** The two ways [calculateMinimumThickness] ends on a validated input,
    told apart by the criterion at the thickness returned. *)
Lemma minimum_thickness_outcome
    (tubeDiameter ambientTemp mediumTemp dewPoint : R) (material : string)
    (h lam : R) :
  validatedInput tubeDiameter ambientTemp dewPoint h ->
  meanLambda ambientTemp mediumTemp material = Ok lam ->
  let criterion :=
    surfaceCriterion tubeDiameter ambientTemp mediumTemp dewPoint lam h in
  (exists k, (k < 1000)%nat /\
     (forall j, (j < k)%nat -> ~ criterion (0.1 + 0.1 * INR j)) /\
     criterion (0.1 + 0.1 * INR k) /\
     calculateMinimumThickness tubeDiameter ambientTemp mediumTemp dewPoint
       material h = Ok (0.1 + 0.1 * INR k)) \/
  ((forall j, (j < 1000)%nat -> ~ criterion (0.1 + 0.1 * INR j)) /\
   ~ criterion 50 /\
   calculateMinimumThickness tubeDiameter ambientTemp mediumTemp dewPoint
     material h = Ok 50).
Proof.
  intros Hv Hlam criterion. unfold calculateMinimumThickness.
  destruct (minimum_thickness_scan _ _ mediumTemp _ material _ lam Hv Hlam)
    as [(k & Hk & Hrej & Hacc & Heq) | [Hrej Heq]]; rewrite Heq; cbn [fst].
  - left. exists k. repeat split; assumption.
  - right. split; [exact Hrej|]. split; [|reflexivity].
    replace 50 with (0.1 + 0.1 * INR 499) by (rewrite INR_499; lra).
    apply Hrej. lia.
Qed.

Lemma calculateMinimumThickness_warm
    (tubeDiameter ambientTemp mediumTemp dewPoint : R) (material : string)
    (h : R)
    (Hv : validatedInput tubeDiameter ambientTemp dewPoint h)
    (Hwarm : ambientTemp <= mediumTemp)
    (Hname : ~ In material ObjectPrototypeNames) :
  calculateMinimumThickness tubeDiameter ambientTemp mediumTemp dewPoint
    material h = Ok 0.1.
Proof.
  destruct (meanLambda_positive ambientTemp mediumTemp material Hname)
    as (lam & Hlam & Hpos).
  assert (Hfirst : surfaceCriterion tubeDiameter ambientTemp mediumTemp
                     dewPoint lam h (0.1 + 0.1 * INR 0)).
  { unfold surfaceCriterion. cbn [INR].
    destruct Hv as (Hd & Hh & _ & Hmargin).
    pose proof (surfaceTempAt_warm (tubeDiameter / 2 / 1000) lam h
                  ambientTemp mediumTemp (0.1 + 0.1 * 0)
                  ltac:(lra) Hpos Hh Hwarm ltac:(lra)).
    lra. }
  destruct (minimum_thickness_outcome _ _ mediumTemp _ material _ lam Hv Hlam)
    as [(k & Hk & Hrej & _ & Heq) | (Hrej & _ & _)].
  - destruct k as [|k].
    + rewrite Heq. f_equal. cbn [INR]. lra.
    + exfalso. apply (Hrej 0%nat); [lia | exact Hfirst].
  - exfalso. apply (Hrej 0%nat); [lia | exact Hfirst].
Qed.

(** X21.  On a validated input with a medium that is not colder than
    the air, [calculateMinimumThickness] returns the first thickness of
    its scan, 0.1 mm, for every tube, dew point, h and material of the
    catalog (or absent from it): the surface is never colder than the
    air, which is above the target. *)
Theorem minimum_thickness_warm_medium
    (tubeDiameter ambientTemp mediumTemp dewPoint : R) (material : string)
    (h : R)
    (Hv : validatedInput tubeDiameter ambientTemp dewPoint h)
    (Hwarm : ambientTemp <= mediumTemp)
    (Hname : ~ In material ObjectPrototypeNames) :
  calculateMinimumThickness tubeDiameter ambientTemp mediumTemp dewPoint
    material h = Ok 0.1.
Proof.
  exact (calculateMinimumThickness_warm tubeDiameter ambientTemp mediumTemp
           dewPoint material h Hv Hwarm Hname).
Qed.

Lemma not_inherited_rokaflex : ~ In "ROKAFLEX ST"%string ObjectPrototypeNames.
Proof.
  cbn [ObjectPrototypeNames In]. intros H.
  repeat destruct H as [H | H]; try discriminate. contradiction.
Qed.

Lemma minimum_thickness_warm_medium_witness :
  calculateMinimumThickness 25 20 60 12 "ROKAFLEX ST" 9 = Ok 0.1.
Proof.
  apply (minimum_thickness_warm_medium 25 20 60 12 "ROKAFLEX ST" 9).
  - unfold validatedInput. lra.
  - lra.
  - exact not_inherited_rokaflex.
Defined.

(** X22.  On a validated input and a material name that is not
    inherited, the thickness [calculateMinimumThickness] returns is
    either a threshold of the criterion up to the scan step (it lies in
    [0.1, 100], every thickness from it on keeps the surface at the dew
    point plus 0.4 or above, and no positive thickness up to 0.1 below
    it does), or it is the fallback 50, and then no thickness up to 100
    meets the criterion, 50 included. *)
Theorem minimum_thickness_is_threshold
    (tubeDiameter ambientTemp mediumTemp dewPoint : R) (material : string)
    (h : R)
    (Hv : validatedInput tubeDiameter ambientTemp dewPoint h)
    (Hname : ~ In material ObjectPrototypeNames) :
  exists lam t,
    meanLambda ambientTemp mediumTemp material = Ok lam /\
    calculateMinimumThickness tubeDiameter ambientTemp mediumTemp dewPoint
      material h = Ok t /\
    let criterion :=
      surfaceCriterion tubeDiameter ambientTemp mediumTemp dewPoint lam h in
    ((0.1 <= t <= 100 /\
      (forall t', t <= t' -> criterion t') /\
      (forall t', 0 < t' -> t' <= t - 0.1 -> ~ criterion t')) \/
     (t = 50 /\ forall t', 0 < t' -> t' <= 100 -> ~ criterion t')).
Proof.
  destruct (meanLambda_positive ambientTemp mediumTemp material Hname)
    as (lam & Hlam & Hpos).
  exists lam.
  destruct (minimum_thickness_outcome _ _ mediumTemp _ material _ lam Hv Hlam)
    as [(k & Hk & Hrej & Hacc & Heq) | (Hrej & _ & Heq)].
  - exists (0.1 + 0.1 * INR k). split; [exact Hlam|]. split; [exact Heq|].
    left. pose proof (pos_INR k) as Hk0.
    assert (Hk1 : INR k <= 999).
    { rewrite <- INR_999. apply le_INR. lia. }
    split; [lra|]. split.
    + intros t' Ht'.
      apply (surfaceCriterion_upward _ _ _ _ _ _ (0.1 + 0.1 * INR k) t' Hv Hpos);
        [lra | exact Ht' | exact Hacc].
    + intros t' Hpos' Hle Hc. destruct k as [|k].
      { cbn [INR] in Hle. lra. }
      apply (Hrej k (Nat.lt_succ_diag_r k)).
      apply (surfaceCriterion_upward _ _ _ _ _ _ t' _ Hv Hpos Hpos');
        [|exact Hc].
      rewrite S_INR in Hle. lra.
  - exists 50. split; [exact Hlam|]. split; [exact Heq|].
    right. split; [reflexivity|].
    intros t' Hpos' Hle Hc.
    apply (Hrej 999%nat); [lia|].
    apply (surfaceCriterion_upward _ _ _ _ _ _ t' _ Hv Hpos Hpos');
      [|exact Hc].
    rewrite INR_999. lra.
Qed.

Lemma minimum_thickness_is_threshold_witness :
  exists lam t,
    meanLambda 25 (-5) "ROKAFLEX ST" = Ok lam /\
    calculateMinimumThickness 25 25 (-5) 16.7 "ROKAFLEX ST" 9 = Ok t /\
    let criterion := surfaceCriterion 25 25 (-5) 16.7 lam 9 in
    ((0.1 <= t <= 100 /\
      (forall t', t <= t' -> criterion t') /\
      (forall t', 0 < t' -> t' <= t - 0.1 -> ~ criterion t')) \/
     (t = 50 /\ forall t', 0 < t' -> t' <= 100 -> ~ criterion t')).
Proof.
  apply (minimum_thickness_is_threshold 25 25 (-5) 16.7 "ROKAFLEX ST" 9).
  - unfold validatedInput. lra.
  - exact not_inherited_rokaflex.
Defined.

(** X23.  A lower dew point never asks for more insulation, as long as
    the scan succeeds: when [calculateMinimumThickness] returns, for
    the dew point [dew2], a thickness at which the criterion holds (the
    result of a successful scan, not the fallback 50), then for every
    validated dew point [dew1 <= dew2] it returns a thickness that is
    not larger and meets the criterion of [dew1]. *)
Theorem minimum_thickness_monotone_in_dew_point
    (tubeDiameter ambientTemp mediumTemp dew1 dew2 : R) (material : string)
    (h lam t2 : R)
    (Hv1 : validatedInput tubeDiameter ambientTemp dew1 h)
    (Hv2 : validatedInput tubeDiameter ambientTemp dew2 h)
    (Hdew : dew1 <= dew2)
    (Hlam : meanLambda ambientTemp mediumTemp material = Ok lam)
    (Hrun : calculateMinimumThickness tubeDiameter ambientTemp mediumTemp
              dew2 material h = Ok t2)
    (Hfound : surfaceCriterion tubeDiameter ambientTemp mediumTemp dew2 lam h
                t2) :
  exists t1,
    calculateMinimumThickness tubeDiameter ambientTemp mediumTemp dew1
      material h = Ok t1 /\
    t1 <= t2 /\
    surfaceCriterion tubeDiameter ambientTemp mediumTemp dew1 lam h t1.
Proof.
  assert (Hweaker : forall t,
            surfaceCriterion tubeDiameter ambientTemp mediumTemp dew2 lam h t ->
            surfaceCriterion tubeDiameter ambientTemp mediumTemp dew1 lam h t).
  { unfold surfaceCriterion. intros t Ht. lra. }
  destruct (minimum_thickness_outcome _ _ mediumTemp _ material _ lam Hv2 Hlam)
    as [(k2 & Hk2 & _ & Hacc2 & Heq2) | (_ & Hfail & Heq2)];
    rewrite Heq2 in Hrun; injection Hrun as <-; [|contradiction].
  destruct (minimum_thickness_outcome _ _ mediumTemp _ material _ lam Hv1 Hlam)
    as [(k1 & Hk1 & Hrej1 & Hacc1 & Heq1) | (Hrej1 & _ & _)].
  - exists (0.1 + 0.1 * INR k1). split; [exact Heq1|]. split; [|exact Hacc1].
    destruct (Nat.le_gt_cases k1 k2) as [Hle | Hgt].
    + apply le_INR in Hle. lra.
    + exfalso. apply (Hrej1 k2 Hgt). apply Hweaker. exact Hacc2.
  - exfalso. apply (Hrej1 k2 Hk2). apply Hweaker. exact Hacc2.
Qed.

(** With 100 mm of insulation the surface of the 25 mm tube between 25
    and -5 degrees is above 17.1 degrees, so the scan for the dew point
    16.7 succeeds. *)
Lemma scenario_scan_succeeds :
  exists t2,
    calculateMinimumThickness 25 25 (-5) 16.7 "ROKAFLEX ST" 9 = Ok t2 /\
    surfaceCriterion 25 25 (-5) 16.7 0.035 9 t2.
Proof.
  assert (Hv : validatedInput 25 25 16.7 9) by (unfold validatedInput; lra).
  destruct (minimum_thickness_outcome 25 25 (-5) 16.7 "ROKAFLEX ST" 9 0.035
              Hv scenarioA_meanLambda)
    as [(k & _ & _ & Hacc & Heq) | (Hrej & _ & _)].
  - eexists. split; [exact Heq | exact Hacc].
  - exfalso. apply (Hrej 999%nat); [lia|].
    rewrite INR_999. replace (0.1 + 0.1 * 999) with 100 by lra.
    unfold surfaceCriterion.
    rewrite surfaceTempAt_closed by lra.
    pose proof (ln_ge_1_minus_inv ((25 / 2 / 1000 + 100 / 1000)
                                   / (25 / 2 / 1000)) ltac:(lra)) as Hln.
    replace (/ ((25 / 2 / 1000 + 100 / 1000) / (25 / 2 / 1000)))
      with (1 / 9) in Hln by lra.
    set (L := ln _) in *.
    assert (Hden : 0.9 < 0.035 + 9 * (25 / 2 / 1000 + 100 / 1000) * L) by lra.
    set (D := 0.035 + 9 * (25 / 2 / 1000 + 100 / 1000) * L) in *.
    assert ((25 - -5) * 0.035 / D < 2) by (apply Rdiv_lt_bound; lra).
    lra.
Qed.

Lemma minimum_thickness_monotone_in_dew_point_witness :
  exists t2 t1,
    calculateMinimumThickness 25 25 (-5) 16.7 "ROKAFLEX ST" 9 = Ok t2 /\
    calculateMinimumThickness 25 25 (-5) 14 "ROKAFLEX ST" 9 = Ok t1 /\
    t1 <= t2 /\
    surfaceCriterion 25 25 (-5) 14 0.035 9 t1.
Proof.
  destruct scenario_scan_succeeds as (t2 & Hrun & Hfound).
  assert (Hv1 : validatedInput 25 25 14 9) by (unfold validatedInput; lra).
  assert (Hv2 : validatedInput 25 25 16.7 9) by (unfold validatedInput; lra).
  assert (Hdew : 14 <= 16.7) by lra.
  destruct (minimum_thickness_monotone_in_dew_point 25 25 (-5) 14 16.7
              "ROKAFLEX ST" 9 0.035 t2 Hv1 Hv2 Hdew scenarioA_meanLambda
              Hrun Hfound) as (t1 & H1 & Hle & Hc).
  exists t2, t1. repeat split; assumption.
Defined.

(** ** The outcomes of the condensation calculator *)

Lemma meanLambda_outcome (ambientTemp mediumTemp : R) (material : string) :
  (In material ObjectPrototypeNames /\
   meanLambda ambientTemp mediumTemp material = Throw TypeError) \/
  (~ In material ObjectPrototypeNames /\
   exists lam, meanLambda ambientTemp mediumTemp material = Ok lam /\ 0 < lam).
Proof.
  destruct (in_dec string_dec material ObjectPrototypeNames) as [Hin | Hout].
  - left. split; [exact Hin|]. unfold meanLambda. cbv zeta.
    apply interpolateLambda_inherited. exact Hin.
  - right. split; [exact Hout|]. apply meanLambda_positive. exact Hout.
Qed.

Lemma calculateCondensation_outcomes (i : CondensationInputs) :
  condensationOutcomeExplained i (calculateCondensation i).
Proof.
  unfold calculateCondensation. cbv zeta.
  destruct (leb (ci_relativeHumidity i) 0) eqn:E1.
  { apply leb_true in E1. cbn. left. exact E1. }
  destruct (gtb (ci_relativeHumidity i) 100) eqn:E2.
  { apply gtb_true in E2. cbn. right. left. exact E2. }
  destruct (leb (ci_h i) 0) eqn:E3.
  { apply leb_true in E3. cbn. right. right. exact E3. }
  apply leb_false in E1, E3. apply gtb_false in E2. cbn [orb].
  set (dew := calculateDewPoint (ci_ambientTemp i) (ci_relativeHumidity i)).
  assert (Hin : 0 < ci_relativeHumidity i <= 100) by lra.
  destruct (Rle_dec (ci_tubeDiameter i) 0) as [Hd | Hd].
  { unfold calculateMinimumThickness, calculateMinimumThickness_traced.
    rewrite (proj2 (leb_true _ _)) by exact Hd.
    cbn. repeat split; try lra. }
  apply Rnot_le_lt in Hd.
  destruct (Rle_dec (ci_ambientTemp i) dew) as [Hdew | Hdew].
  { unfold calculateMinimumThickness, calculateMinimumThickness_traced.
    rewrite (proj2 (leb_false _ _)) by exact Hd.
    rewrite (proj2 (leb_false _ _)) by exact E3.
    rewrite (proj2 (geb_true _ _)) by exact Hdew.
    cbn. fold dew. repeat split; try lra. }
  apply Rnot_le_lt in Hdew.
  destruct (Rlt_dec (ci_ambientTemp i) (dew + 0.4)) as [Hm | Hm].
  { unfold calculateMinimumThickness, calculateMinimumThickness_traced.
    rewrite (proj2 (leb_false _ _)) by exact Hd.
    rewrite (proj2 (leb_false _ _)) by exact E3.
    rewrite (proj2 (geb_false _ _)) by exact Hdew.
    cbv zeta. rewrite (proj2 (gtb_true _ _)) by exact Hm.
    cbn. fold dew. repeat split; try lra. }
  apply Rnot_lt_le in Hm.
  assert (Hv : validatedInput (ci_tubeDiameter i) (ci_ambientTemp i) dew
                 (ci_h i))
    by (unfold validatedInput; repeat split; lra).
  destruct (meanLambda_outcome (ci_ambientTemp i) (ci_mediumTemp i)
              (ci_material i)) as [[Hname Hthrow] | [Hname (lam & Hlam & _)]].
  - unfold calculateMinimumThickness, calculateMinimumThickness_traced.
    rewrite (proj2 (leb_false _ _)) by exact Hd.
    rewrite (proj2 (leb_false _ _)) by exact E3.
    rewrite (proj2 (geb_false _ _)) by exact Hdew.
    cbv zeta. rewrite (proj2 (gtb_false _ _)) by exact Hm.
    rewrite Hthrow. cbn. fold dew. repeat split; try lra. exact Hname.
  - destruct (minimum_thickness_outcome _ _ (ci_mediumTemp i) _
                (ci_material i) _ lam Hv Hlam)
      as [(k & Hk & _ & _ & Heq) | (_ & _ & Heq)]; rewrite Heq;
      cbn [condensationOutcomeExplained dewpointTemperature minimumThickness];
      fold dew.
    + pose proof (pos_INR k) as Hk0.
      assert (Hk1 : INR k <= 999).
      { rewrite <- INR_999. apply le_INR. lia. }
      repeat split; try lra; try reflexivity. exact Hname.
    + repeat split; try lra; try reflexivity. exact Hname.
Qed.

(** X24.  Every outcome of [calculateCondensation] has its condition:
    nothing is calculated exactly when the humidity is outside (0, 100]
    or h is not positive; the alert is for the geometry when the
    diameter is not positive, for the humidity when the dew point is
    not below the air temperature, for the unreachable target when it is
    less than 0.4 below, a type error when the material name is one
    inherited from [Object.prototype]; the check of h inside
    [calculateMinimumThickness] never fires.  A result has the dew
    point of the air, at least 0.4 below the air temperature, and a
    minimum thickness between 0.1 and 100. *)
Theorem condensation_outcomes_explained (i : CondensationInputs) :
  condensationOutcomeExplained i (calculateCondensation i) /\
  calculateCondensation i <> Alerted InvalidCoefficient /\
  calculateCondensation i <> Alerted InvalidEmissivity.
Proof.
  pose proof (calculateCondensation_outcomes i) as H.
  split; [exact H|].
  split; intros E; rewrite E in H; cbn in H; tauto.
Qed.

(** In air of at most 100 degrees with a relative humidity of 99 or
    more the dew point is less than 0.4 below the air temperature: by
    more than 0.1 less, which no rounding of the formula uses up. *)
Lemma humid_air_dew_point (T RH : R) :
  -243.12 < T <= 100 -> 99 <= RH <= 100 ->
  T - 0.3 < calculateDewPoint T RH.
Proof.
  intros [HT0 HT1] [HR0 HR1].
  unfold calculateDewPoint, calculateDewPointMagnus, Math_log. cbn.
  pose proof (ln_ge_1_minus_inv (RH / 100) ltac:(lra)) as Hlo.
  assert (Hinv : / (RH / 100) <= 100 / 99).
  { replace (/ (RH / 100)) with (100 / RH) by (field; lra).
    unfold Rdiv. apply Rmult_le_compat_l; [lra|].
    apply Rinv_le_contravar; lra. }
  pose proof (ln_humidity_nonpos RH ltac:(lra)) as Hup.
  set (L := ln (RH / 100)) in *.
  assert (HL : - (1 / 99) <= L) by lra.
  set (u := 243.12 + T).
  assert (Hu : 0 < u <= 343.12) by (unfold u; lra).
  assert (Eg : 17.62 * T / u = 17.62 - 4283.7744 / u).
  { unfold u. apply (Rmult_eq_reg_r (243.12 + T)); [|lra].
    unfold Rdiv. rewrite Rmult_minus_distr_r.
    rewrite !Rmult_assoc, !Rinv_l by lra. lra. }
  rewrite Eg.
  assert (Ha : 0 < 4283.7744 / u) by (apply Rdiv_lt_0_compat; lra).
  assert (Hau : 4283.7744 / u * u = 4283.7744).
  { unfold Rdiv. rewrite Rmult_assoc, Rinv_l by lra. lra. }
  set (a := 4283.7744 / u) in *.
  assert (Ha12 : 12 < a).
  { unfold a. apply Rdiv_gt_bound; lra. }
  replace T with (u - 243.12) by (unfold u; lra).
  apply Rdiv_gt_bound; [lra|].
  assert (Hkey : L * (0.3 - u) < 0.3 * a).
  { destruct (Rle_dec u 0.3) as [Hsmall | Hbig].
    - assert (L * (0.3 - u) <= 0) by nra. lra.
    - assert (L * (0.3 - u) <= 1 / 99 * (u - 0.3)) by nra.
      assert (1 / 99 * (u - 0.3) < 0.3 * 12) by lra. lra. }
  nra.
Qed.

(** X25.  In air of at most 100 degrees (and above the pole -243.12 of
    the Magnus formula) with a relative humidity of 99 to 100 percent
    the calculator never shows a result: the dew point is less than 0.4
    below the air temperature, by a margin of more than 0.1, and the
    calculation ends with the alert for the humidity or for the
    unreachable target, or before it for a diameter or an h that is not
    positive. *)
Theorem condensation_humid_air_no_result (i : CondensationInputs)
    (Hhumid : 99 <= ci_relativeHumidity i <= 100)
    (Hair : -243.12 < ci_ambientTemp i <= 100) :
  ci_ambientTemp i - 0.3
  < calculateDewPoint (ci_ambientTemp i) (ci_relativeHumidity i) /\
  (forall r, calculateCondensation i <> Calculated r) /\
  (ci_h i <= 0 -> calculateCondensation i = NotCalculated) /\
  (0 < ci_h i -> ci_tubeDiameter i <= 0 ->
   calculateCondensation i = Alerted InvalidGeometry) /\
  (0 < ci_h i -> 0 < ci_tubeDiameter i ->
   calculateCondensation i = Alerted InvalidHumidity \/
   calculateCondensation i = Alerted UnreachableTarget).
Proof.
  pose proof (humid_air_dew_point _ _ Hair Hhumid) as Hdew.
  split; [exact Hdew|].
  pose proof (calculateCondensation_outcomes i) as H.
  unfold condensationOutcomeExplained in H. cbv zeta in H.
  set (dew := calculateDewPoint (ci_ambientTemp i) (ci_relativeHumidity i))
    in *.
  destruct (calculateCondensation i) as [ | e | r].
  - split; [discriminate|]. split; [reflexivity|].
    split; intros; lra.
  - destruct H as (_ & Hh & He).
    split; [discriminate|]. split; [intros; lra|].
    destruct e; try contradiction.
    + split; [reflexivity|]. intros; lra.
    + split; [intros; lra|]. intros _ _. left. reflexivity.
    + split; [intros; lra|]. intros _ _. right. reflexivity.
    + exfalso. lra.
  - exfalso. lra.
Qed.

Lemma condensation_humid_air_no_result_witness :
  ci_ambientTemp saturatedInputs - 0.3
  < calculateDewPoint (ci_ambientTemp saturatedInputs)
      (ci_relativeHumidity saturatedInputs) /\
  (forall r, calculateCondensation saturatedInputs <> Calculated r) /\
  (ci_h saturatedInputs <= 0 ->
   calculateCondensation saturatedInputs = NotCalculated) /\
  (0 < ci_h saturatedInputs -> ci_tubeDiameter saturatedInputs <= 0 ->
   calculateCondensation saturatedInputs = Alerted InvalidGeometry) /\
  (0 < ci_h saturatedInputs -> 0 < ci_tubeDiameter saturatedInputs ->
   calculateCondensation saturatedInputs = Alerted InvalidHumidity \/
   calculateCondensation saturatedInputs = Alerted UnreachableTarget).
Proof.
  apply (condensation_humid_air_no_result saturatedInputs); cbn; lra.
Defined.

(** ** Tubes without a recommendation *)

Lemma empty_stock_tables :
  Forall (fun tube => wallThicknesses tube = [] ->
                      mm tube = 10.2 \/ mm tube = 13.5 \/ mm tube = 17.2)
         ALL_TUBE_SIZES.
Proof.
  unfold ALL_TUBE_SIZES.
  repeat (apply Forall_cons;
          [cbn [wallThicknesses mm]; intros H;
           first [discriminate H | tauto]|]).
  apply Forall_nil.
Qed.

Lemma sortAsc_Z_nil (l : list Z) : sortAsc Z.leb l = [] -> l = [].
Proof.
  destruct l as [|x l]; [reflexivity|]. intros H.
  assert (Hin : In x (sortAsc Z.leb (x :: l)))
    by (apply (proj2 (sortAsc_Z_In _ _)); left; reflexivity).
  rewrite H in Hin. contradiction.
Qed.

Lemma recommendedThickness_some (minThickness tubeDiameter : R) :
  availableThicknesses tubeDiameter <> [] ->
  exists t, recommendedThickness minThickness tubeDiameter = Some t.
Proof.
  intros Hne. unfold recommendedThickness. cbv zeta.
  destruct (find _ (availableThicknesses tubeDiameter)) as [t|] eqn:Ef.
  - apply find_some in Ef as [Hin _].
    pose proof (availableThicknesses_positive _ _ Hin) as Hpos.
    exists t. unfold orElse. destruct (Z.eqb_spec t 0); [lia | reflexivity].
  - destruct (lastElement_greatest _ (availableThicknesses_sorted tubeDiameter)
                Hne) as (t & Hlast & _).
    exists t. unfold orElse. exact Hlast.
Qed.

Lemma findTube_empty_stock (d : R) :
  d = 10.2 \/ d = 13.5 \/ d = 17.2 ->
  exists tube, findTube d = Some tube /\ wallThicknesses tube = [].
Proof.
  intros [-> | [-> | ->]]; eexists; unfold findTube, ALL_TUBE_SIZES;
    cbn [find mm]; decide_cmp; split; reflexivity.
Qed.

(** X26.  The condensation calculator recommends no thickness exactly
    for the three steel tubes of the catalog that have no stocked
    thickness, 10.2, 13.5 and 17.2 mm, whatever the minimum thickness
    is; for every other diameter, listed or not, it recommends one. *)
Theorem no_recommendation_iff_empty_stock (minThickness tubeDiameter : R) :
  recommendedThickness minThickness tubeDiameter = None
  <-> tubeDiameter = 10.2 \/ tubeDiameter = 13.5 \/ tubeDiameter = 17.2.
Proof.
  split.
  - intros Hnone.
    destruct (list_eq_dec Z.eq_dec (availableThicknesses tubeDiameter) [])
      as [Hnil | Hne].
    + unfold availableThicknesses in Hnil.
      destruct (findTube tubeDiameter) as [tube|] eqn:E; [|discriminate].
      apply sortAsc_Z_nil in Hnil.
      assert (Hw : wallThicknesses tube = []).
      { destruct (wallThicknesses tube); [reflexivity | discriminate]. }
      apply findTube_In in E as [Hin Hmm].
      pose proof empty_stock_tables as Hall.
      rewrite Forall_forall in Hall. rewrite <- Hmm. exact (Hall tube Hin Hw).
    + destruct (recommendedThickness_some minThickness tubeDiameter Hne)
        as [t Ht].
      congruence.
  - intros Hd. destruct (findTube_empty_stock tubeDiameter Hd)
      as (tube & Htube & Hw).
    unfold recommendedThickness, availableThicknesses. cbv zeta.
    rewrite Htube, Hw. reflexivity.
Qed.

(** ** The conductivity of the catalog material *)

(** X27.  For the material of the catalog [interpolateLambda] is, in
    closed form, [0.034 + 0.0001 * T] for every temperature between -20
    and 60 degrees (the table is a straight line), and 0.036 for every
    temperature outside: it jumps from 0.032 back to 0.036 below -20
    and from 0.040 back to 0.036 above 60.  It always lies between
    0.032 and 0.040. *)
Theorem rokaflex_lambda_closed_form (temp : R) :
  exists v,
    interpolateLambda temp "ROKAFLEX ST" = Ok v /\
    (-20 <= temp <= 60 -> v = 0.034 + 0.0001 * temp) /\
    (temp < -20 \/ 60 < temp -> v = 0.036) /\
    0.032 <= v <= 0.040.
Proof.
  eexists. split; [apply interpolateLambda_rokaflex_ok|].
  rokaflex_ranges temp; repeat split; intros; lra.
Qed.

(** ** The Nusselt mode of [computeH] *)

Lemma calculateRadiativeHeatTransfer_linear (eps T_surface T_ambient : R) :
  calculateRadiativeHeatTransfer eps T_surface T_ambient
  = eps * calculateRadiativeHeatTransfer 1 T_surface T_ambient.
Proof.
  unfold calculateRadiativeHeatTransfer. cbv zeta.
  destruct (ltb _ 0.01); unfold Rdiv; ring.
Qed.

(** X28.  When the flags of [computeH] select none of the named
    estimators, the emissivity is not validated: [computeH] returns a
    coefficient for every emissivity, also outside [0, 1], and the
    coefficient is an affine function of the emissivity, the convective
    part plus the emissivity times the radiative coefficient of a black
    surface. *)
Theorem nusselt_mode_accepts_any_emissivity (args : ComputeHArgs)
    (Hmode : nusseltModeSelected args) :
  exists h_conv h_black,
    forall eps,
      computeH (withEmissivity args eps) = Ok (h_conv + eps * h_black).
Proof.
  destruct Hmode as (Hk & Hs & Ha & Hf).
  eexists. eexists. intros eps.
  unfold computeH, withEmissivity.
  cbn [ambientTemp mediumTemp tubeDiameter orientation emissivity
       arg_calculationType insulationThickness arg_windSpeed
       useSimplifiedFormula arg_applySafetyFactor useAdvancedAlgorithm
       useAdvancedSheetsAlgorithm useKFlexAlgorithm forCondensation].
  cbv zeta. rewrite Hk, Hs, Ha, Hf.
  rewrite calculateRadiativeHeatTransfer_linear. reflexivity.
Qed.

Lemma nusselt_mode_accepts_any_emissivity_witness :
  exists h_conv h_black,
    forall eps,
      computeH (withEmissivity nusseltCall eps) = Ok (h_conv + eps * h_black).
Proof.
  apply (nusselt_mode_accepts_any_emissivity nusseltCall).
  repeat split.
Defined.

(** ** The heat-loss calculator *)

Lemma Rpower_ge_one (x y : R) : 1 <= x -> 0 <= y -> 1 <= Rpower x y.
Proof.
  intros Hx Hy. unfold Rpower. rewrite <- exp_0. apply exp_monotone.
  apply Rmult_le_pos; [exact Hy|].
  rewrite <- ln_1. destruct Hx as [Hx | <-]; [|lra].
  left. apply ln_increasing; lra.
Qed.

Lemma Rpower_small_base (x y : R) :
  0 < x <= 1 -> 0 <= y <= 1 -> x <= Rpower x y.
Proof.
  intros [Hx0 Hx1] [Hy0 Hy1]. unfold Rpower.
  rewrite <- (exp_ln x Hx0) at 1. apply exp_monotone.
  assert (Hln : ln x <= 0).
  { rewrite <- ln_1. destruct Hx1 as [Hx1 | ->]; [|lra].
    left. apply ln_increasing; lra. }
  nra.
Qed.

(** The coefficient of the bare pipe is positive for a tube of at most
    a metre. *)
Lemma barePipe_h_positive (i : HeatLossInputs) :
  0 < hl_tubeDiameter i <= 1000 ->
  0 <= hl_emissivity i <= 1 ->
  -273.15 <= hl_ambientTemp i -> -273.15 <= hl_mediumTemp i ->
  exists hU, computeH (barePipeArgs i) = Ok hU /\ 0.07 <= hU.
Proof.
  intros [Hd0 Hd1] Heps Ha Hm.
  unfold computeH, barePipeArgs.
  cbn [ambientTemp mediumTemp tubeDiameter orientation emissivity
       arg_calculationType insulationThickness arg_windSpeed
       useSimplifiedFormula arg_applySafetyFactor useAdvancedAlgorithm
       useAdvancedSheetsAlgorithm useKFlexAlgorithm forCondensation
       withDefault].
  cbv zeta. unfold calculateKFlexH, throwIf.
  cbn [kf_T_amb kf_T_medium kf_epsilon kf_orientation kf_tubeDiameter
       kf_insulationThickness kf_forCondensation withDefault].
  rewrite (emissivity_guard_accepts _ Heps).
  rewrite knownGeometry_valid by lra. cbv zeta.
  eexists. split; [reflexivity|].
  match goal with
  | |- _ <= Math_round (?x * 1000) / 1000 => fold (round3 x); set (hraw := x)
  end.
  replace 0.07 with (IZR 70 / 1000) by lra. apply round3_ge.
  assert (Hsigma : 0 < sigma) by (unfold sigma; lra).
  assert (Hrad : 0 <= 4 * hl_emissivity i * sigma
                      * Math_pow_int
                          ((hl_ambientTemp i + hl_mediumTemp i) / 2 + 273.15)
                          3).
  { apply Rmult_le_pos; [|apply cube_nonneg; lra].
    apply Rmult_le_pos; lra. }
  set (dT := Math_max (Math_abs (hl_mediumTemp i - hl_ambientTemp i)) 1)
    in *.
  assert (HdT : 1 <= dT) by (unfold dT, Math_max; apply Rmax_r).
  assert (Hbase : 1.646 <= kflexBaseCoeff false (hl_orientation i) dT).
  { unfold kflexBaseCoeff. destruct (hl_orientation i); cbn; lra. }
  assert (Hpow : 1 <= Math_pow dT
                        (if Orientation_eqb (hl_orientation i) horizontal
                         then 0.33 else 0.25)).
  { rewrite Math_pow_pos by lra. apply Rpower_ge_one; [exact HdT|].
    destruct (Orientation_eqb _ _); lra. }
  assert (Hratio : 0.043 <= 0.043 / ((hl_tubeDiameter i + 2 * 0) / 1000)).
  { pose proof (Rinv_le_contravar ((hl_tubeDiameter i + 2 * 0) / 1000) 1
                  ltac:(lra) ltac:(lra)) as Hinv.
    rewrite Rinv_1 in Hinv. unfold Rdiv at 1. lra. }
  assert (Hcorr : 0.043 <= Math_pow
                             (0.043 / ((hl_tubeDiameter i + 2 * 0) / 1000))
                             0.1).
  { rewrite Math_pow_pos by lra.
    destruct (Rle_dec (0.043 / ((hl_tubeDiameter i + 2 * 0) / 1000)) 1)
      as [Hle | Hgt].
    - eapply Rle_trans; [exact Hratio|].
      apply Rpower_small_base; lra.
    - eapply Rle_trans; [|apply Rpower_ge_one; lra]. lra. }
  unfold hraw.
  set (b := kflexBaseCoeff false (hl_orientation i) dT) in *.
  set (p := Math_pow dT _) in *.
  set (c := Math_pow (0.043 / _) 0.1) in *.
  set (r := 4 * hl_emissivity i * sigma * _) in *.
  assert (1.646 * 0.043 <= b * p * c).
  { apply Rmult_le_compat; try lra.
    replace 1.646 with (1.646 * 1) by lra.
    apply Rmult_le_compat; lra. }
  lra.
Qed.

Lemma heatLoss_lambda_positive (ambientTemp mediumTemp : R)
    (material : string) :
  ~ In material ObjectPrototypeNames ->
  exists lam,
    heatLoss_lambda ambientTemp mediumTemp material = Ok lam /\ 0 < lam.
Proof.
  intros Hname. unfold heatLoss_lambda. cbv zeta.
  destruct (interpolateLambda_contract
              (heatLoss_T_lambda ambientTemp mediumTemp) material Hname)
    as (v & Hv & Hpos & _).
  exists v. split; assumption.
Qed.

Lemma heatLoss_guard_passes (i : HeatLossInputs) :
  heatLossValidated i ->
  leb (hl_insulationThickness i) 0 || leb (hl_pipeLength i) 0
  || leb (hl_h i) 0 = false.
Proof.
  intros (Ht & HL & Hh).
  rewrite !(proj2 (leb_false _ _)) by assumption. reflexivity.
Qed.

Lemma calculateHeatLoss_physical (i : HeatLossInputs) :
  heatLossPhysical i ->
  exists lam r,
    heatLoss_lambda (hl_ambientTemp i) (hl_mediumTemp i) (hl_material i)
    = Ok lam /\
    calculateHeatLoss i = HeatLossCalculated r /\
    res_meanLambda r = lam /\
    0 < res_thermalTransmittance r /\
    res_heatLoss r
    = res_thermalTransmittance r
      * Rabs (hl_mediumTemp i - hl_ambientTemp i) * hl_pipeLength i /\
    res_costPerHour r = res_heatLoss r / 1000 * hl_costPerKWh i /\
    res_rokaflexDimension r = hl_tubeDiameter i /\
    res_decrease r < 100.
Proof.
  intros (Hval & [Hd0 Hd1] & Heps & Ha & Hm & Hdiff & Hname).
  destruct (heatLoss_lambda_positive (hl_ambientTemp i) (hl_mediumTemp i)
              (hl_material i) Hname) as (lam & Hlam & Hlampos).
  destruct (barePipe_h_positive i (conj Hd0 Hd1) Heps Ha Hm)
    as (hU & HhU & HhUpos).
  pose proof Hval as (Ht & HL & Hh).
  exists lam. unfold calculateHeatLoss. cbv zeta.
  rewrite (heatLoss_guard_passes i Hval), Hlam, HhU.
  rewrite (proj2 (gtb_true (hl_tubeDiameter i) 0)) by exact Hd0.
  pose proof PI_RGT_0 as Hpi. unfold Math_PI, Math_log.
  set (rO := hl_tubeDiameter i / 2 / 1000).
  assert (HrO : 0 < rO) by (unfold rO; lra).
  set (rI := Math_max 1e-6 (rO - withDefault 0 (hl_pipeWallThickness i) / 1000)).
  assert (HrI : 0 < rI).
  { unfold rI, Math_max. apply Rlt_le_trans with 1e-6; [lra | apply Rmax_l]. }
  set (R_pipe := if gtb (withDefault 0 (hl_pipeWallThickness i)) 0
                    && ltb rI rO
                 then ln (rO / rI) / (2 * PI * 50) else 0).
  assert (Hpipe : 0 <= R_pipe).
  { unfold R_pipe. destruct (gtb _ 0); cbn [andb]; [|lra].
    destruct (ltb rI rO) eqn:E; [|lra]. apply ltb_true in E.
    left. apply Rdiv_lt_0_compat; [|lra].
    rewrite <- ln_1. apply ln_increasing; [lra|].
    apply Rdiv_gt_bound; lra. }
  set (ro := rO + hl_insulationThickness i / 1000).
  assert (Hro : rO < ro) by (unfold ro; lra).
  assert (Hcond : 0 < ln (ro / rO) / (2 * PI * lam)).
  { apply Rdiv_lt_0_compat.
    - rewrite <- ln_1. apply ln_increasing; [lra|].
      apply Rdiv_gt_bound; lra.
    - apply Rmult_lt_0_compat; lra. }
  assert (Hconv : 0 < 1 / (hl_h i * 2 * PI * ro)).
  { apply Rdiv_lt_0_compat; [lra|]. apply Rmult4_pos; lra. }
  assert (Hboost : 0 < hU * Math_pow (25 / hl_tubeDiameter i) 0.2).
  { apply Rmult_lt_0_compat; [lra|].
    rewrite Math_pow_pos by (apply Rdiv_lt_0_compat; lra).
    apply exp_pos. }
  set (hB := hU * Math_pow (25 / hl_tubeDiameter i) 0.2) in *.
  assert (Hbare : 0 < 1 / (hB * 2 * PI * rO)).
  { apply Rdiv_lt_0_compat; [lra|]. apply Rmult4_pos; lra. }
  set (R_total := R_pipe + ln (ro / rO) / (2 * PI * lam)
                  + 1 / (hl_h i * 2 * PI * ro)).
  set (R_unins := R_pipe + 1 / (hB * 2 * PI * rO)).
  assert (Hne : hl_mediumTemp i - hl_ambientTemp i <> 0) by lra.
  destruct (calculateHeatLosses_valid
              (hl_mediumTemp i - hl_ambientTemp i) R_total R_unins)
    as (losses & Hlosses & _ & Hq & _ & Hqr & _ & _ & Hdec & _);
    [unfold R_total; lra | unfold R_unins; lra | exact Hne |].
  rewrite Hlosses. eexists. split; [reflexivity|].
  split; [reflexivity|].
  cbn [res_meanLambda res_thermalTransmittance res_heatLoss res_decrease
       res_costPerHour res_rokaflexDimension].
  pose proof (Rabs_pos_lt _ Hne) as Habs. unfold Math_abs.
  split; [reflexivity|].
  split; [apply Rdiv_lt_0_compat; assumption|].
  split; [field; lra|].
  split; [unfold calculateEconomicData; reflexivity|].
  split; [apply calculateRokaflexDimension_id | exact Hdec].
Qed.

(** X29.  On physical inputs that pass its validation (positive
    thickness, length and h; a tube of at most a metre, an emissivity in
    [0, 1], temperatures not below absolute zero and different from
    each other, a material name that is not inherited) the heat-loss
    calculator shows a result, without an exception.  The conductivity
    shown is the one interpolated at
    [T_amb + 0.533 * (T_medium - T_amb) + 21]; the transmittance shown
    is positive and gives the heat loss back as
    [U * |T_medium - T_amb| * length]; the cost per hour is the heat
    loss in kW times the price; the dimension shown is the tube
    diameter; the decrease is below 100 percent. *)
Theorem heat_loss_calculation_results (i : HeatLossInputs)
    (Hp : heatLossPhysical i) :
  exists lam r,
    heatLoss_lambda (hl_ambientTemp i) (hl_mediumTemp i) (hl_material i)
    = Ok lam /\
    calculateHeatLoss i = HeatLossCalculated r /\
    res_meanLambda r = lam /\
    0 < res_thermalTransmittance r /\
    res_heatLoss r
    = res_thermalTransmittance r
      * Rabs (hl_mediumTemp i - hl_ambientTemp i) * hl_pipeLength i /\
    res_costPerHour r = res_heatLoss r / 1000 * hl_costPerKWh i /\
    res_rokaflexDimension r = hl_tubeDiameter i /\
    res_decrease r < 100.
Proof. exact (calculateHeatLoss_physical i Hp). Qed.

Lemma defaultHeatLossInputs_physical : heatLossPhysical defaultHeatLossInputs.
Proof.
  unfold heatLossPhysical, heatLossValidated, defaultHeatLossInputs. cbn.
  repeat split; try lra.
  exact not_inherited_rokaflex.
Qed.

Lemma heat_loss_calculation_results_witness :
  exists lam r,
    heatLoss_lambda (hl_ambientTemp defaultHeatLossInputs)
      (hl_mediumTemp defaultHeatLossInputs)
      (hl_material defaultHeatLossInputs) = Ok lam /\
    calculateHeatLoss defaultHeatLossInputs = HeatLossCalculated r /\
    res_meanLambda r = lam /\
    0 < res_thermalTransmittance r /\
    res_heatLoss r
    = res_thermalTransmittance r
      * Rabs (hl_mediumTemp defaultHeatLossInputs
              - hl_ambientTemp defaultHeatLossInputs)
      * hl_pipeLength defaultHeatLossInputs /\
    res_costPerHour r
    = res_heatLoss r / 1000 * hl_costPerKWh defaultHeatLossInputs /\
    res_rokaflexDimension r = hl_tubeDiameter defaultHeatLossInputs /\
    res_decrease r < 100.
Proof.
  apply (heat_loss_calculation_results defaultHeatLossInputs).
  exact defaultHeatLossInputs_physical.
Defined.

(** X30.  The heat-loss calculator has no handler for exceptions.  On
    inputs that pass its validation, a material name inherited from
    [Object.prototype] makes the calculation end with the type error
    of [interpolateLambda], whatever the emissivity is; with another
    material name, an emissivity outside [0, 1] makes it end with the
    emissivity error of the estimator for the bare pipe.  No result is
    shown in either case. *)
Theorem heat_loss_calculation_uncaught (i : HeatLossInputs) (eps : R)
    (material : string) (Hv : heatLossValidated i) :
  (In material ObjectPrototypeNames ->
   calculateHeatLoss (withSurface i eps material)
   = HeatLossUncaught (LambdaError TypeError)) /\
  (~ In material ObjectPrototypeNames -> eps < 0 \/ 1 < eps ->
   calculateHeatLoss (withSurface i eps material)
   = HeatLossUncaught (EstimatorError InvalidEmissivity)).
Proof.
  assert (Hv' : heatLossValidated (withSurface i eps material)) by exact Hv.
  split.
  - intros Hname. unfold calculateHeatLoss. cbv zeta.
    rewrite (heatLoss_guard_passes _ Hv').
    cbn [withSurface hl_ambientTemp hl_mediumTemp hl_material].
    unfold heatLoss_lambda. cbv zeta.
    rewrite (interpolateLambda_inherited _ _ Hname). reflexivity.
  - intros Hname Heps. unfold calculateHeatLoss. cbv zeta.
    rewrite (heatLoss_guard_passes _ Hv').
    cbn [withSurface hl_ambientTemp hl_mediumTemp hl_material].
    destruct (heatLoss_lambda_positive (hl_ambientTemp i) (hl_mediumTemp i)
                material Hname) as (lam & Hlam & _).
    rewrite Hlam.
    assert (Hh : computeH (barePipeArgs (withSurface i eps material))
                 = Throw InvalidEmissivity).
    { unfold computeH, barePipeArgs, withSurface.
      cbn [ambientTemp mediumTemp tubeDiameter orientation emissivity
           arg_calculationType insulationThickness arg_windSpeed
           useSimplifiedFormula arg_applySafetyFactor useAdvancedAlgorithm
           useAdvancedSheetsAlgorithm useKFlexAlgorithm forCondensation
           withDefault hl_ambientTemp hl_mediumTemp hl_tubeDiameter
           hl_orientation hl_emissivity].
      cbv zeta. unfold calculateKFlexH, throwIf.
      cbn [kf_epsilon]. rewrite (emissivity_guard_rejects _ Heps).
      reflexivity. }
    rewrite Hh. reflexivity.
Qed.

Lemma heat_loss_calculation_uncaught_witness :
  (In "constructor"%string ObjectPrototypeNames ->
   calculateHeatLoss (withSurface defaultHeatLossInputs (-0.1) "constructor")
   = HeatLossUncaught (LambdaError TypeError)) /\
  (~ In "constructor"%string ObjectPrototypeNames -> -0.1 < 0 \/ 1 < -0.1 ->
   calculateHeatLoss (withSurface defaultHeatLossInputs (-0.1) "constructor")
   = HeatLossUncaught (EstimatorError InvalidEmissivity)).
Proof.
  apply (heat_loss_calculation_uncaught defaultHeatLossInputs (-0.1)
           "constructor").
  unfold heatLossValidated, defaultHeatLossInputs. cbn. lra.
Defined.
